(** * any-to-poem: image-to-poem REST backend

    A shallow embedding of the request-handling core of the repository:

    - [DoubaoService.parsePoetryResult] (src/models/Poetry.js, the
      doubaoService part): the marker-based parser of the model's text,
      with its three regular expressions run by a backtracking matcher;
    - [OSSService.uploadImage] and [OSSService.multipartUploadImage]: the
      two storage paths, over an object-storage bucket;
    - [Poetry]: the persistence model over the [poetry] table;
    - [PoetryController] (src/controllers/poetryController.js) and the
      image router's [POST /api/images/upload] handler;
    - [OSSService.uploadImageFromUrl] and [OSSService.deleteImage] with
      the image router's upload-url and delete handlers.

    JavaScript strings are sequences of UTF-16 code units; the external
    services (image re-encoding, storage client, inference endpoint, clock,
    uuid source) are oracles gathered in one record; the database and the
    bucket are explicit state. *)

From Stdlib Require Import NArith ZArith List Ascii String Bool Lia.
From Stdlib Require Strings.Byte.
From stdpp Require Import base option list gmap.
Import ListNotations.

Open Scope N_scope.

(* ===================================================================== *)
(** * JavaScript strings *)
(* ===================================================================== *)

Module JS.

(** A string is the list of its UTF-16 code units. *)
Abbreviation str := (list N).

(** Source text is written as a UTF-8 literal and decoded to code units. *)
Fixpoint utf16_of_utf8 (bs : list N) : str :=
  match bs with
  | [] => []
  | b0 :: r0 =>
    if b0 <? 128 then b0 :: utf16_of_utf8 r0
    else if b0 <? 224 then
      match r0 with
      | b1 :: r1 =>
        N.lor (N.shiftl (N.land b0 31) 6) (N.land b1 63) :: utf16_of_utf8 r1
      | [] => []
      end
    else if b0 <? 240 then
      match r0 with
      | b1 :: b2 :: r2 =>
        N.lor (N.shiftl (N.land b0 15) 12)
              (N.lor (N.shiftl (N.land b1 63) 6) (N.land b2 63))
          :: utf16_of_utf8 r2
      | _ => []
      end
    else
      match r0 with
      | b1 :: b2 :: b3 :: r3 =>
        let cp := N.lor (N.shiftl (N.land b0 7) 18)
                   (N.lor (N.shiftl (N.land b1 63) 12)
                     (N.lor (N.shiftl (N.land b2 63) 6) (N.land b3 63))) in
        let v := cp - 65536 in
        (55296 + N.shiftr v 10) :: (56320 + N.land v 1023) :: utf16_of_utf8 r3
      | _ => []
      end
  end.

Definition lit (s : string) : str :=
  utf16_of_utf8 (map N_of_ascii (list_ascii_of_string s)).

(** Line terminators: LF, CR, LS, PS. *)
Definition is_line_terminator (c : N) : bool :=
  (c =? 10) || (c =? 13) || (c =? 8232) || (c =? 8233).

(** WhiteSpace and LineTerminator code units: what [\s] matches and what
    [String.prototype.trim] strips. *)
Definition is_space (c : N) : bool :=
  (c =? 9) || (c =? 10) || (c =? 11) || (c =? 12) || (c =? 13) || (c =? 32)
  || (c =? 160) || (c =? 5760) || ((8192 <=? c) && (c <=? 8202))
  || (c =? 8232) || (c =? 8233) || (c =? 8239) || (c =? 8287)
  || (c =? 12288) || (c =? 65279).

Fixpoint trim_start (s : str) : str :=
  match s with
  | [] => []
  | c :: s' => if is_space c then trim_start s' else s
  end.

Definition trim_end (s : str) : str := rev (trim_start (rev s)).

(** [s.trim()] *)
Definition trim (s : str) : str := trim_end (trim_start s).

(** [s.split(c)] for a one-unit separator: never the empty array. *)
Fixpoint split (c : N) (s : str) : list str :=
  match s with
  | [] => [[]]
  | x :: s' =>
    if x =? c then [] :: split c s'
    else match split c s' with
         | l :: ls => (x :: l) :: ls
         | [] => [[x]]
         end
  end.

(** A string is truthy when it is not empty. *)
Definition truthy (s : str) : bool :=
  match s with [] => false | _ => true end.

(** [lines.filter(line => line.trim())] *)
Definition filter_nonblank (ls : list str) : list str :=
  List.filter (fun line => truthy (trim line)) ls.

(** [p] is a prefix of [s]: [s.startsWith(p)]. *)
Fixpoint starts_with (p s : str) : bool :=
  match p, s with
  | [], _ => true
  | _ :: _, [] => false
  | a :: p', b :: s' => (b =? a) && starts_with p' s'
  end.

(** [s.includes(p)] *)
Fixpoint includes (p s : str) : bool :=
  starts_with p s || match s with [] => false | _ :: s' => includes p s' end.

(** Decimal digits of a non-negative integer, as in template literals. *)
Fixpoint digits_fuel (fuel : nat) (n : N) (acc : str) : str :=
  match fuel with
  | O => acc
  | S f =>
    let acc' := (48 + n mod 10) :: acc in
    if n <? 10 then acc' else digits_fuel f (n / 10) acc'
  end.

Definition to_decimal (n : N) : str := digits_fuel (S (N.to_nat (N.log2 n))) n [].

End JS.

Import JS.

(* ===================================================================== *)
(** * Regular expressions: a backtracking matcher *)
(* ===================================================================== *)

Module Regex.

Inductive cclass :=
| CSpace          (* \s *)
| CDot            (* .  (no s flag: anything but a line terminator) *)
| CAny.           (* [\s\S] *)

Definition in_class (k : cclass) (c : N) : bool :=
  match k with
  | CSpace => is_space c
  | CDot => negb (is_line_terminator c)
  | CAny => is_space c || negb (is_space c)
  end.

(** The syntax the parser's patterns need; one capture group. *)
Inductive regex :=
| Eps
| Chr (c : N)
| Cls (k : cclass)
| Seq (r1 r2 : regex)
| Alt (r1 r2 : regex)
| Star (greedy : bool) (r : regex)
| Group (r : regex)
| Look (r : regex)        (* (?=r) *)
| Bol                     (* ^ without the m flag *)
| Eol.                    (* $ without the m flag *)

Fixpoint Lit (l : str) : regex :=
  match l with
  | [] => Eps
  | c :: l' => Seq (Chr c) (Lit l')
  end.

(** [r+] and [r+?] *)
Definition Plus (greedy : bool) (r : regex) : regex := Seq r (Star greedy r).

(** Matcher state: index reached, input left, capture 1. *)
Record mstate := MState { pos : nat; rest : str; cap : option str }.

Definition advance (st : mstate) (s' : str) : mstate :=
  {| pos := S (pos st); rest := s'; cap := cap st |}.

Definition or_else (a b : option mstate) : option mstate :=
  match a with Some x => Some x | None => b end.

(** The loop of [r*] and [r*?]: an iteration that consumes nothing is
    rejected, so the input left bounds the number of iterations. *)
Fixpoint star_loop (body : mstate -> (mstate -> option mstate) -> option mstate)
  (greedy : bool) (k : mstate -> option mstate) (fuel : nat) (st : mstate)
  {struct fuel} : option mstate :=
  match fuel with
  | O => k st
  | S fuel' =>
    let again :=
      body st (fun st' =>
                 if (pos st <? pos st')%nat
                 then star_loop body greedy k fuel' st' else None) in
    if greedy then or_else again (k st) else or_else (k st) again
  end.

(** Continuation-passing backtracking, as the language standard defines
    pattern semantics. *)
Fixpoint rmatch (r : regex) (st : mstate) (k : mstate -> option mstate)
  {struct r} : option mstate :=
  match r with
  | Eps => k st
  | Chr c =>
    match rest st with
    | x :: s' => if x =? c then k (advance st s') else None
    | [] => None
    end
  | Cls cl =>
    match rest st with
    | x :: s' => if in_class cl x then k (advance st s') else None
    | [] => None
    end
  | Seq r1 r2 => rmatch r1 st (fun st1 => rmatch r2 st1 k)
  | Alt r1 r2 => or_else (rmatch r1 st k) (rmatch r2 st k)
  | Star greedy r1 => star_loop (rmatch r1) greedy k (S (length (rest st))) st
  | Group r1 =>
    rmatch r1 st
      (fun st' =>
         k {| pos := pos st'; rest := rest st';
              cap := Some (take (pos st' - pos st) (rest st)) |})
  | Look r1 =>
    match rmatch r1 st Some with
    | Some st' => k {| pos := pos st; rest := rest st; cap := cap st' |}
    | None => None
    end
  | Bol => if (pos st =? 0)%nat then k st else None
  | Eol => match rest st with [] => k st | _ :: _ => None end
  end.

(** A successful match: where it starts, and the matcher's final state. *)
Record rmatch_result := MResult { m_index : nat; m_end : mstate }.

(** Leftmost match: try every start index in turn. *)
Fixpoint exec_from (r : regex) (i : nat) (s : str) : option rmatch_result :=
  match rmatch r {| pos := i; rest := s; cap := None |} Some with
  | Some st => Some {| m_index := i; m_end := st |}
  | None =>
    match s with
    | [] => None
    | _ :: s' => exec_from r (S i) s'
    end
  end.

(** [s.match(r)] for a pattern without the g flag. *)
Definition exec (r : regex) (s : str) : option rmatch_result := exec_from r 0 s.

(** [s.replace(r, '')]: the first match is cut out. *)
Definition replace_empty (r : regex) (s : str) : str :=
  match exec r s with
  | Some m => take (m_index m) s ++ rest (m_end m)
  | None => s
  end.

End Regex.

Import Regex.

(* ===================================================================== *)
(** * Errors *)
(* ===================================================================== *)

(** What a [throw] carries: the kind of error, its [code] property where
    the code reads one, and its message. *)
Inductive exn_kind := ReferenceError | TypeError | PlainError.

Record exn := Exn { exn_kind_of : exn_kind; exn_code : option str; exn_message : str }.

(** Completion of a computation: a value, or a thrown error. *)
Inductive completion (A : Type) :=
| Return (a : A)
| Throw (e : exn).
Arguments Return {A} a.
Arguments Throw {A} e.

#[global] Instance completion_ret : MRet completion := fun A a => Return a.

#[global] Instance completion_bind : MBind completion := fun A B f c =>
  match c with
  | Return a => f a
  | Throw e => Throw e
  end.

(** [try { c } catch (e) { h e }] *)
Definition try_catch {A} (c : completion A) (h : exn -> completion A) : completion A :=
  match c with
  | Return a => Return a
  | Throw e => h e
  end.

Definition new_Error (msg : str) : exn :=
  {| exn_kind_of := PlainError; exn_code := None; exn_message := msg |}.

(* ===================================================================== *)
(** * DoubaoService: prompt table and response parser *)
(* ===================================================================== *)

Module Doubao.

Definition MARK_DESCRIPTION : str := Eval vm_compute in lit "**图片描述：**".
Definition MARK_POETRY : str := Eval vm_compute in lit "**诗歌：**".
Definition MARK_ANALYSIS : str := Eval vm_compute in lit "**分析：**".

(** [/\*\*图片描述：\*\*\s*([\s\S]*?)(?=\*\*诗歌：\*\*|\*\*分析：\*\*|$)/] *)
Definition RE_DESCRIPTION : regex :=
  Seq (Lit MARK_DESCRIPTION)
    (Seq (Star true (Cls CSpace))
      (Seq (Group (Star false (Cls CAny)))
        (Look (Alt (Lit MARK_POETRY) (Alt (Lit MARK_ANALYSIS) Eol))))).

(** [/\*\*诗歌：\*\*\s*([\s\S]*?)(?=\*\*分析：\*\*|$)/] *)
Definition RE_POETRY : regex :=
  Seq (Lit MARK_POETRY)
    (Seq (Star true (Cls CSpace))
      (Seq (Group (Star false (Cls CAny)))
        (Look (Alt (Lit MARK_ANALYSIS) Eol)))).

(** [/^(.+?)\n/] *)
Definition RE_TITLE : regex :=
  Seq Bol (Seq (Group (Plus false (Cls CDot))) (Chr 10)).

(** [/^.+?\n/] *)
Definition RE_TITLE_LINE : regex :=
  Seq Bol (Seq (Plus false (Cls CDot)) (Chr 10)).

(** [/\*\*分析：\*\*\s*([\s\S]*?)$/] *)
Definition RE_ANALYSIS : regex :=
  Seq (Lit MARK_ANALYSIS)
    (Seq (Star true (Cls CSpace))
      (Seq (Group (Star false (Cls CAny))) Eol)).

Definition DEFAULT_DESCRIPTION : str :=
  Eval vm_compute in lit "这是一张美丽的图片，展现了丰富的视觉内容。".
Definition DEFAULT_ANALYSIS : str :=
  Eval vm_compute in lit "图片分析：色彩丰富，构图和谐，具有很强的艺术感染力。".

(** The object [parsePoetryResult] returns; [title] may be [null]. *)
Record parsed := Parsed {
  poetry : list str;
  imageDescription : str;
  analysis : str;
  title : option str
}.

(** [m[1].trim()]: a [TypeError] when group 1 did not take part. *)
Definition group1_trim (m : rmatch_result) : completion str :=
  match cap (m_end m) with
  | Some c => Return (trim c)
  | None =>
    Throw {| exn_kind_of := TypeError; exn_code := None;
             exn_message := lit "Cannot read properties of undefined (reading 'trim')" |}
  end.

(** Reading the [const analysis] of the enclosing block before the
    declaration has run: the binding is in its temporal dead zone. *)
Definition analysis_before_initialization : exn :=
  {| exn_kind_of := ReferenceError; exn_code := None;
     exn_message := lit "Cannot access 'analysis' before initialization" |}.

(** Truthiness of a value that is [null] or a string. *)
Definition truthy_opt (o : option str) : bool :=
  match o with Some s => truthy s | None => false end.

(** [!title || title.length < 2] *)
Definition title_missing_or_short (t : option str) : bool :=
  negb (truthy_opt t) ||
  match t with Some s => (length s <? 2)%nat | None => false end.

(** The [try] block of [parsePoetryResult]. *)
Definition parse_try (result : str) : completion parsed :=
  imageDescription ←
    match exec RE_DESCRIPTION result with
    | Some m => group1_trim m
    | None => Return DEFAULT_DESCRIPTION
    end;
  poetry0 ←
    match exec RE_POETRY result with
    | Some m => group1_trim m
    | None => Return result
    end;
  title ←
    match exec RE_TITLE poetry0 with
    | Some m => c ← group1_trim m; Return (Some c)
    | None => Return None
    end;
  let poetry1 :=
    if truthy_opt title then trim (replace_empty RE_TITLE_LINE poetry0)
    else poetry0 in
  let firstLine := hd [] (split 10 poetry1) in
  if title_missing_or_short title && truthy firstLine && (2 <? length firstLine)%nat
  then
    (* return { poetry: ..., imageDescription, analysis, title: firstLine.trim() }
       with [analysis] declared only further down *)
    Throw analysis_before_initialization
  else
    analysis ←
      match exec RE_ANALYSIS result with
      | Some m => group1_trim m
      | None => Return DEFAULT_ANALYSIS
      end;
    Return {| poetry := filter_nonblank (split 10 poetry1);
              imageDescription := imageDescription;
              analysis := analysis;
              title := title |}.

(** The [catch] block. *)
Definition parse_catch (result : str) (e : exn) : completion parsed :=
  Return {| poetry := filter_nonblank (split 10 result);
            imageDescription := DEFAULT_DESCRIPTION;
            analysis := DEFAULT_ANALYSIS;
            title := None |}.

(** [parsePoetryResult(result)] *)
Definition parsePoetryResult (result : str) : completion parsed :=
  try_catch (parse_try result) (parse_catch result).

End Doubao.

Import Doubao.


(* ===================================================================== *)
(** * The outside world *)
(* ===================================================================== *)

Abbreviation bytes := (list Byte.byte).

(** Reply of the inference endpoint to one HTTPS request. *)
Record https_response := HttpsResponse {
  status : N;                    (* res.statusCode *)
  data_text : str;               (* the body, as `${response.data}` prints it *)
  content : option str           (* response.data.choices[0].message.content,
                                    when the payload has that shape *)
}.

(** What the model call is given as [image_url.url]. *)
Inductive image_ref :=
| DataUri (b : bytes)            (* `data:image/jpeg;base64,${...}` *)
| RemoteUrl (u : str).

(** Everything one request observes of its environment. Each field is the
    outcome of one call site; [None] in an error field means the call
    succeeds. *)
Record world := World {
  (* sharp(buf).resize(800, 800, ...).jpeg({quality: 85}).toBuffer() *)
  sharp : bytes -> option bytes;
  (* Date.now() and uuidv4() where the object key is built *)
  key_now : N;
  key_uuid : str;
  (* this.client.put / this.client.multipartUpload: the error they throw *)
  put_error : str -> bytes -> option exn;
  multipart_error : str -> bytes -> option exn;
  (* fs.writeFile of the temporary file *)
  writeFile_error : option exn;
  etag : str -> bytes -> str;
  oss_url : str -> str;
  (* process.env.OSS_BASE_URL *)
  baseUrl : str;
  (* makeHttpsRequest: rejected (error or timeout event), or resolved *)
  https : image_ref -> str -> completion https_response;
  (* Buffer.from(text, 'base64') *)
  base64_decode : str -> bytes;
  (* `${v}` for a value inherited from Object.prototype *)
  inherited_text : str -> str;
  (* Date.now() in generatePoetry: start, end, file name, path, placeholder id *)
  now_start : N;
  now_end : N;
  now_filename : N;
  now_path : N;
  now_temp : N;
  (* the insert, update or delete statement is refused by the server *)
  insert_error : option exn;
  update_error : option exn;
  delete_error : option exn;
  (* new Date().toISOString() *)
  iso_now : str;
  (* process.env.NODE_ENV === 'development' *)
  development : bool
}.

(* ===================================================================== *)
(** * OSSService *)
(* ===================================================================== *)

Module OSS.

(** An object of the bucket. *)
Record object := Object {
  obj_body : bytes;
  obj_headers : list (str * str);
  obj_meta : list (str * str)
}.

(** Calls received by the storage client. *)
Inductive client_call :=
| CallPut (key : str)
| CallMultipartUpload (key : str).

Record oss_state := OssState {
  bucket : gmap str object;
  calls : list client_call
}.

(** [data] of an upload result. *)
Record upload_data := UploadData {
  filename : str;
  originalName : str;
  size : N;
  mimetype : str;
  url : str;
  ossUrl : str;
  upload_etag : str;
  uploadMethod : option str
}.

Definition SLASH : str := Eval vm_compute in lit "/".
Definition UNDERSCORE : str := Eval vm_compute in lit "_".
Definition EXT_JPG : str := Eval vm_compute in lit ".jpg".
Definition IMAGE_JPEG : str := Eval vm_compute in lit "image/jpeg".
Definition MULTIPART : str := Eval vm_compute in lit "multipart".
Definition FOLDER_POETRY : str := Eval vm_compute in lit "poetry".

(** [`${folder}/${Date.now()}_${uuidv4()}${ext}`] with [ext = '.jpg'] *)
Definition object_key (w : world) (folder : str) : str :=
  folder ++ SLASH ++ to_decimal (key_now w) ++ UNDERSCORE ++ key_uuid w ++ EXT_JPG.

Definition put_headers : list (str * str) :=
  [ (lit "Content-Type", IMAGE_JPEG);
    (lit "Cache-Control", lit "public, max-age=31536000");
    (lit "x-oss-storage-class", lit "Standard");
    (lit "x-oss-forbid-overwrite", lit "false") ].

Definition multipart_headers : list (str * str) :=
  [ (lit "x-oss-storage-class", lit "Standard");
    (lit "x-oss-forbid-overwrite", lit "false") ].

Definition put_meta (w : world) (name : str) : list (str * str) :=
  [ (lit "originalName", name);
    (lit "processedBy", lit "poetry-app");
    (lit "uploadTime", iso_now w) ].

Definition multipart_meta (w : world) (name : str) : list (str * str) :=
  put_meta w name ++ [ (lit "uploadMethod", MULTIPART) ].

(** [this.client.put(key, body, {headers, meta})] *)
Definition client_put (w : world) (o : oss_state) (key : str) (body : bytes)
  (headers meta : list (str * str)) : completion (str * str) * oss_state :=
  let logged := calls o ++ [CallPut key] in
  match put_error w key body with
  | Some e => (Throw e, {| bucket := bucket o; calls := logged |})
  | None =>
    (Return (oss_url w key, etag w key body),
     {| bucket := <[ key := {| obj_body := body; obj_headers := headers;
                               obj_meta := meta |} ]> (bucket o);
        calls := logged |})
  end.

(** [this.client.multipartUpload(key, tempPath, {headers, meta, ...})], the
    temporary file holding [body]. *)
Definition client_multipartUpload (w : world) (o : oss_state) (key : str)
  (body : bytes) (headers meta : list (str * str))
  : completion (str * str) * oss_state :=
  let logged := calls o ++ [CallMultipartUpload key] in
  match multipart_error w key body with
  | Some e => (Throw e, {| bucket := bucket o; calls := logged |})
  | None =>
    (Return (oss_url w key, etag w key body),
     {| bucket := <[ key := {| obj_body := body; obj_headers := headers;
                               obj_meta := meta |} ]> (bucket o);
        calls := logged |})
  end.

Definition has_code (e : exn) (code : string) : bool :=
  match exn_code e with
  | Some c => bool_decide (c = lit code)
  | None => false
  end.

(** In the [catch] block of [uploadImage] both retries call
    [this.client.put(filename, processedBuffer)], naming bindings that are
    declared inside the [try] block: evaluating the arguments throws a
    [ReferenceError] before the client is reached. *)
Definition filename_not_defined : exn :=
  {| exn_kind_of := ReferenceError; exn_code := None;
     exn_message := lit "filename is not defined" |}.

(** [try { r = await this.client.put(filename, processedBuffer); return ... }
     catch (retryError) { }]: the result to return, if any. *)
Definition retry_put (o : oss_state) : option upload_data * oss_state :=
  match (Throw filename_not_defined : completion upload_data) with
  | Return d => (Some d, o)
  | Throw _ => (None, o)
  end.

(** The [catch] block of [uploadImage]: on a signature mismatch one retry
    with the client as it is and one with a client built anew, then the
    message for the error's code. *)
Definition uploadImage_catch (o : oss_state) (error : exn)
  : completion upload_data * oss_state :=
  let '(retried, o) :=
    if has_code error "SignatureDoesNotMatch"
    then match retry_put o with
         | (Some d, o1) => (Some d, o1)
         | (None, o1) => retry_put o1
         end
    else (None, o) in
  match retried with
  | Some d => (Return d, o)
  | None =>
    if has_code error "NoSuchBucket"
    then (Throw (new_Error (lit "OSS存储桶不存在，请检查配置")), o)
    else if has_code error "AccessDenied"
    then (Throw (new_Error (lit "OSS访问被拒绝，请检查权限配置")), o)
    else if has_code error "InvalidAccessKeyId"
    then (Throw (new_Error (lit "OSS访问密钥无效，请检查配置")), o)
    else (Throw (new_Error (lit "图片上传失败，请稍后重试")), o)
  end.

(** [uploadImage(imageBuffer, originalName, folder)]: the single-shot path. *)
Definition uploadImage (w : world) (o : oss_state) (imageBuffer : bytes)
  (originalName : str) (folder : str) : completion upload_data * oss_state :=
  (* try { processedBuffer = await sharp(...) } catch { processedBuffer = imageBuffer } *)
  let processedBuffer :=
    match sharp w imageBuffer with
    | Some b => b
    | None => imageBuffer
    end in
  let filename := object_key w folder in
  match client_put w o filename processedBuffer put_headers (put_meta w originalName) with
  | (Return (u, tag), o') =>
    (Return {| filename := filename; originalName := originalName;
               size := N.of_nat (length processedBuffer);
               mimetype := IMAGE_JPEG;
               url := baseUrl w ++ SLASH ++ filename;
               ossUrl := u; upload_etag := tag; uploadMethod := None |}, o')
  | (Throw e, o') => uploadImage_catch o' e
  end.

Definition multipart_catch (o : oss_state) (error : exn)
  : completion upload_data * oss_state :=
  if has_code error "ConnectionTimeoutError"
  then (Throw (new_Error (lit "上传超时，请检查网络连接")), o)
  else if has_code error "RequestTimeoutError"
  then (Throw (new_Error (lit "请求超时，请稍后重试")), o)
  else if has_code error "NoSuchBucket"
  then (Throw (new_Error (lit "OSS存储桶不存在，请检查配置")), o)
  else (Throw (new_Error (lit "图片上传失败，请稍后重试")), o).

(** What [sharp] rejects with: an [Error] without [code]. *)
Definition sharp_error : exn :=
  new_Error (lit "Input buffer contains unsupported image format").

(** [multipartUploadImage(imageBuffer, originalName, folder, cb)]: the
    chunked path. The re-encoding is not guarded here. *)
Definition multipartUploadImage (w : world) (o : oss_state) (imageBuffer : bytes)
  (originalName : str) (folder : str) : completion upload_data * oss_state :=
  match sharp w imageBuffer with
  | None => multipart_catch o sharp_error
  | Some processedBuffer =>
    let filename := object_key w folder in
    match writeFile_error w with
    | Some e => multipart_catch o e
    | None =>
      match client_multipartUpload w o filename processedBuffer
              multipart_headers (multipart_meta w originalName) with
      | (Return (u, tag), o') =>
        (Return {| filename := filename; originalName := originalName;
                   size := N.of_nat (length processedBuffer);
                   mimetype := IMAGE_JPEG;
                   url := baseUrl w ++ SLASH ++ filename;
                   ossUrl := u; upload_etag := tag;
                   uploadMethod := Some MULTIPART |}, o')
      | (Throw e, o') => multipart_catch o' e
      end
    end
  end.

(** The size threshold of the two routers: [5 * 1024 * 1024]. *)
Definition threshold : N := 5 * 1024 * 1024.

End OSS.

Import OSS.

(* ===================================================================== *)
(** * The model class Poetry over the [poetry] table *)
(* ===================================================================== *)

Module Model.

Record image_info := ImageInfo {
  img_filename : str;
  img_path : str;
  img_size : N;
  img_mimetype : str;
  img_url : option str
}.

(** [labels] and [objects] are always the empty array. *)
Record recognition := Recognition {
  rec_description : str;
  rec_service : str
}.

Record poem := Poem {
  p_content : list str;
  p_title : option str;
  p_style : str;
  p_length : N
}.

Record generation := Generation {
  gen_prompt : str;
  gen_model : str;
  gen_processingTime : Z
}.

Record feedback := Feedback {
  rating : option N;
  comment : option str;
  isLiked : option bool
}.

(** The [share] column. [is_public] and [share_count] are the members the
    model class writes; [isPublic] and [shareUrl] the ones the controller
    sets on the instance. *)
Record share := Share {
  is_public : option bool;
  share_count : option N;
  isPublic : option bool;
  shareUrl : option str
}.

Record metadata := Metadata {
  meta_ip : str;
  meta_userAgent : option str
}.

(** A row of the table, and equally an instance of the class. *)
Record row := Row {
  id : N;
  user_id : option str;
  r_image : image_info;
  r_recognition : recognition;
  r_poetry : poem;
  r_generation : generation;
  r_feedback : feedback;
  r_share : share;
  r_metadata : metadata;
  updated_at : option str
}.

(** The argument of [Poetry.create]. The generation flow, its only caller,
    always passes the first five members and never the last two. *)
Record poetry_data := PoetryData {
  d_userId : option str;
  d_image : image_info;
  d_imageRecognition : recognition;
  d_poetry : poem;
  d_generation : generation;
  d_metadata : metadata;
  d_feedback : option feedback;
  d_share : option share
}.

(** The table: its rows by primary key, and the key sequence. *)
Record table := Table {
  rows : gmap N row;
  next_id : N
}.

(** The module-level [supabase] handle of config/database.js: unset until
    [connectDB] has built the client. *)
Abbreviation database := (option table).

(** [getSupabase()] *)
Definition getSupabase (db : database) : completion table :=
  match db with
  | Some t => Return t
  | None => Throw (new_Error (lit "数据库未初始化"))
  end.

Definition server_error (code message : string) : exn :=
  {| exn_kind_of := PlainError; exn_code := Some (lit code);
     exn_message := lit message |}.

(** [.single()]: a result that is not exactly one row is an error. *)
Definition single (r : option row) : completion row :=
  match r with
  | Some x => Return x
  | None =>
    Throw (server_error "PGRST116"
             "JSON object requested, multiple (or no) rows returned")
  end.

Definition empty_feedback : feedback :=
  {| rating := None; comment := None; isLiked := None |}.

Definition default_share : share :=
  {| is_public := Some false; share_count := Some 0;
     isPublic := None; shareUrl := None |}.

(** [x || null] for an owner id: the empty string is falsy. *)
Definition or_null (o : option str) : option str :=
  match o with
  | Some s => if truthy s then Some s else None
  | None => None
  end.

(** The [catch] block of [Poetry.create]. *)
Definition create_catch (error : exn) : exn :=
  if includes (lit "relation") (exn_message error)
     && includes (lit "does not exist") (exn_message error)
  then new_Error (lit "数据库表未创建，请先初始化数据库")
  else error.

(** [Poetry.create(poetryData)] *)
Definition create (w : world) (db : database) (d : poetry_data)
  : completion row * database :=
  match getSupabase db with
  | Throw e => (Throw (create_catch e), db)
  | Return t =>
    let insertData :=
      {| id := next_id t;
         user_id := or_null (d_userId d);
         r_image := d_image d;
         r_recognition := d_imageRecognition d;
         r_poetry := d_poetry d;
         r_generation := d_generation d;
         r_feedback := default empty_feedback (d_feedback d);
         r_share := default default_share (d_share d);
         r_metadata := d_metadata d;
         updated_at := None |} in
    match insert_error w with
    | Some e => (Throw (create_catch e), db)
    | None =>
      match rows t !! next_id t with
      | Some _ =>
        (Throw (create_catch
                  (server_error "23505"
                     "duplicate key value violates unique constraint")), db)
      | None =>
        (Return insertData,
         Some {| rows := <[ next_id t := insertData ]> (rows t);
                 next_id := next_id t + 1 |})
      end
    end
  end.

(** [Poetry.findById(id)] *)
Definition findById (db : database) (i : N) : completion (option row) :=
  t ← getSupabase db;
  data ← single (rows t !! i);
  Return (Some data).

(** [this.save()]: every column is written back from the instance. *)
Definition save (w : world) (db : database) (this : row)
  : completion row * database :=
  match getSupabase db with
  | Throw e => (Throw e, db)
  | Return t =>
    match update_error w with
    | Some e => (Throw e, db)
    | None =>
      match rows t !! id this with
      | None => (single None, db)
      | Some _ =>
        let data :=
          {| id := id this; user_id := user_id this; r_image := r_image this;
             r_recognition := r_recognition this; r_poetry := r_poetry this;
             r_generation := r_generation this; r_feedback := r_feedback this;
             r_share := r_share this; r_metadata := r_metadata this;
             updated_at := Some (iso_now w) |} in
        (Return data,
         Some {| rows := <[ id this := data ]> (rows t); next_id := next_id t |})
      end
    end
  end.

(** [x || 0] *)
Definition or_zero (o : option N) : N := default 0 o.

(** [this.incrementShareCount()]: the update
    [{'share->share_count': (this.share?.share_count || 0) + 1, updated_at}]
    assigns that member of the stored row's [share] and the time stamp.
    The counter is a natural number, as exact as a JavaScript number below
    2^53. *)
Definition incrementShareCount (w : world) (db : database) (this : row)
  : completion row * database :=
  match getSupabase db with
  | Throw e => (Throw e, db)
  | Return t =>
    match update_error w with
    | Some e => (Throw e, db)
    | None =>
      match rows t !! id this with
      | None => (single None, db)
      | Some stored =>
        let sh := r_share stored in
        let data :=
          {| id := id stored; user_id := user_id stored; r_image := r_image stored;
             r_recognition := r_recognition stored; r_poetry := r_poetry stored;
             r_generation := r_generation stored; r_feedback := r_feedback stored;
             r_share :=
               {| is_public := is_public sh;
                  share_count := Some (or_zero (share_count (r_share this)) + 1);
                  isPublic := isPublic sh; shareUrl := shareUrl sh |};
             r_metadata := r_metadata stored;
             updated_at := Some (iso_now w) |} in
        (Return data,
         Some {| rows := <[ id this := data ]> (rows t); next_id := next_id t |})
      end
    end
  end.

(** [Poetry.deleteById(id)] *)
Definition deleteById (w : world) (db : database) (i : N)
  : completion bool * database :=
  match getSupabase db with
  | Throw e => (Throw e, db)
  | Return t =>
    match delete_error w with
    | Some e => (Throw e, db)
    | None =>
      (Return true, Some {| rows := delete i (rows t); next_id := next_id t |})
    end
  end.

End Model.

Import Model.

(* ===================================================================== *)
(** * Property lookup in an object literal keyed by style *)
(* ===================================================================== *)

Module Styles.

Definition GUFENG : str := Eval vm_compute in lit "古风".
Definition XIANDAI : str := Eval vm_compute in lit "现代".
Definition LANGMAN : str := Eval vm_compute in lit "浪漫".
Definition ZHELI : str := Eval vm_compute in lit "哲理".

(** The fixed enumeration, in the order the tables list it. *)
Definition styles : list str := [GUFENG; XIANDAI; LANGMAN; ZHELI].

(** Names every object literal inherits from [Object.prototype]; each is
    bound to a function or an object, hence truthy. *)
Definition object_prototype_keys : list str :=
  Eval vm_compute in
  map lit [ "constructor"; "__defineGetter__"; "__defineSetter__";
            "hasOwnProperty"; "__lookupGetter__"; "__lookupSetter__";
            "isPrototypeOf"; "propertyIsEnumerable"; "toString"; "valueOf";
            "__proto__"; "toLocaleString" ]%string.

Inductive property (A : Type) :=
| Own (a : A)            (* a member of the literal *)
| Inherited              (* found on the prototype *)
| Undefined.
Arguments Own {A} a.
Arguments Inherited {A}.
Arguments Undefined {A}.

(** [table[key]] for a literal with the given members. *)
Fixpoint own_lookup {A} (members : list (str * A)) (key : str) : option A :=
  match members with
  | [] => None
  | (k, v) :: rest => if bool_decide (k = key) then Some v else own_lookup rest key
  end.

Definition get {A} (members : list (str * A)) (key : str) : property A :=
  match own_lookup members key with
  | Some v => Own v
  | None =>
    if bool_decide (key ∈ object_prototype_keys) then Inherited else Undefined
  end.

End Styles.

Import Styles.

(* ===================================================================== *)
(** * DoubaoService: the model call *)
(* ===================================================================== *)

Module Inference.

Definition stylePrompts : list (str * str) :=
  [ (GUFENG, lit "请以古风诗词的形式，创作一首优美的诗歌。要求：1. 使用古风词汇和表达方式 2. 意境优美，富有诗意 3. 字数控制在50-100字之间 4. 可以包含标题");
    (XIANDAI, lit "请以现代诗的形式，创作一首富有现代感的诗歌。要求：1. 语言简洁明了 2. 情感真挚 3. 字数控制在100-200字之间 4. 可以包含标题");
    (LANGMAN, lit "请以浪漫主义风格，创作一首充满浪漫情怀的诗歌。要求：1. 情感丰富，富有想象力 2. 语言优美动人 3. 字数控制在80-150字之间 4. 可以包含标题");
    (ZHELI, lit "请以哲理诗的形式，创作一首富有哲理的诗歌。要求：1. 思想深刻 2. 语言凝练 3. 字数控制在60-120字之间 4. 可以包含标题") ].

(** [stylePrompts[style] || stylePrompts['古风']], as the template prints it *)
Definition stylePrompt (w : world) (style : str) : str :=
  match get stylePrompts style with
  | Own p => p
  | Inherited => inherited_text w style
  | Undefined => default [] (own_lookup stylePrompts GUFENG)
  end.

(** [buildImagePoetryPrompt(style)] *)
Definition buildImagePoetryPrompt (w : world) (style : str) : str :=
  lit "请仔细观察这张图片，然后：

1. 首先简要描述图片内容（50字以内）
2. 然后根据图片内容，" ++ stylePrompt w style ++ lit "

请按照以下格式返回：

**图片描述：**
[图片内容描述]

**诗歌：**
[诗歌标题]
[诗歌内容]

**分析：**
[对图片的简要分析，包括色彩、构图、意境等]".

(** The argument [imageInput]: a Buffer or a URL string. *)
Inductive image_input :=
| InBuffer (b : bytes)
| InUrl (u : str).

Definition malformed_payload : exn :=
  {| exn_kind_of := TypeError; exn_code := None;
     exn_message := lit "Cannot read properties of undefined" |}.

(** The [catch] block of [generatePoetryFromImage]. *)
Definition generate_catch (error : exn) : exn :=
  let msg := exn_message error in
  if truthy msg && includes (lit "InvalidParameter.UnsupportedImageFormat") msg
  then new_Error (lit "图片格式不支持，请使用JPEG、PNG等常见格式")
  else if truthy msg && includes (lit "InvalidParameter.ImageTooLarge") msg
  then new_Error (lit "图片文件过大，请压缩后重试")
  else if truthy msg && includes (lit "401") msg
  then new_Error (lit "API密钥无效，请检查配置")
  else if truthy msg && includes (lit "429") msg
  then new_Error (lit "API调用频率过高，请稍后重试")
  else new_Error (lit "诗歌生成失败，请稍后重试").

(** [generatePoetryFromImage(imageInput, style)] *)
Definition generatePoetryFromImage (w : world) (imageInput : image_input)
  (style : str) : completion parsed :=
  try_catch
    (let prompt := buildImagePoetryPrompt w style in
     let imageUrl :=
       match imageInput with
       | InBuffer b => DataUri b
       | InUrl u => RemoteUrl u
       end in
     response ← https w imageUrl prompt;
     if negb (status response =? 200)
     then Throw (new_Error (lit "HTTP " ++ to_decimal (status response)
                              ++ lit ": " ++ data_text response))
     else
       result ← match content response with
                | Some c => Return (trim c)
                | None => Throw malformed_payload
                end;
       parsePoetryResult result)
    (fun error => Throw (generate_catch error)).

End Inference.

Import Inference.

(* ===================================================================== *)
(** * HTTP requests and responses *)
(* ===================================================================== *)

(** [req.file] as multer's memory storage fills it. *)
Record file := File {
  buffer : bytes;
  originalname : str;
  file_size : N;
  file_mimetype : str
}.

(** The request of [POST /api/poetry/generate]. *)
Record generate_request := GenerateRequest {
  req_file : option file;
  req_imageBuffer : option str;
  req_imageUrl : option str;
  req_style : option str;
  req_userId : option str;
  req_ip : str;
  req_userAgent : option str
}.

(** Identifier in a generation response: the row's key, or
    [`temp_${Date.now()}`]. *)
Inductive poem_id :=
| RowId (i : N)
| TempId (t : N).

(** [data] of the 201 response of the generation flow. *)
Record generate_data := GenerateData {
  g_id : poem_id;
  g_content : list str;
  g_style : str;
  g_title : option str;
  g_length : N;
  g_description : str;
  g_processingTime : Z;
  g_model : str;
  g_note : option str
}.

Inductive body :=
| BError (error : str) (details : option str)
| BGenerate (d : generate_data)
| BFeedback (f : feedback)
| BShare (url : option str) (count : option N) (public : option bool)
| BMessage (message : str)
| BPoem (r : row)
| BUpload (d : upload_data).

Record response := Response {
  code : N;
  payload : body
}.

(** [process.env.NODE_ENV === 'development' ? error.message : undefined] *)
Definition details_of (w : world) (e : exn) : option str :=
  if development w then Some (exn_message e) else None.

(* ===================================================================== *)
(** * PoetryController *)
(* ===================================================================== *)

Module Controller.

Record mock_entry := MockEntry {
  mock_title : str;
  mock_content : list str
}.

(** The canned poems of the [catch] block of the model call. *)
Definition mockPoetries : list (str * mock_entry) :=
  [ (GUFENG,
     {| mock_title := lit "春日即景";
        mock_content := map lit [ "山水如画意境深"; "清风徐来花满林";
                                  "诗情画意共此时"; "万物可作诗一首" ]%string |});
    (XIANDAI,
     {| mock_title := lit "光影瞬间";
        mock_content := map lit [ "光影交织的瞬间"; "捕捉时光的足迹";
                                  "每一帧都是诗"; "生活处处有惊喜" ]%string |});
    (LANGMAN,
     {| mock_title := lit "岁月静好";
        mock_content := map lit [ "花开花落情依旧"; "岁月静好你依然";
                                  "温柔如水话相思"; "爱在心中永不变" ]%string |});
    (ZHELI,
     {| mock_title := lit "人生感悟";
        mock_content := map lit [ "万象更新见真知"; "人生如梦亦如诗";
                                  "时光荏苒悟人生"; "智慧之光照前路" ]%string |}) ].

(** The same poems as [getMockPoetry] lists them, without titles. *)
Definition getMockPoetry (style : str) : option (list str) :=
  match get mockPoetries style with
  | Own e => Some (mock_content e)
  | Inherited => None
  | Undefined => mock_content <$> own_lookup mockPoetries XIANDAI
  end.

Definition MOCK_DESCRIPTION : str :=
  Eval vm_compute in lit "这是一张美丽的图片，展现了丰富的视觉内容和深层的意境。".
Definition MOCK_ANALYSIS : str :=
  Eval vm_compute in lit "图片分析：色彩丰富，构图和谐，具有很强的艺术感染力。".

(** The variable [result] of [generatePoetry]. [poetry] and [title] are
    [undefined] ([None]) when they are read off a value inherited from the
    prototype. *)
Record gen_result := GenResult {
  res_poetry : option (list str);
  res_title : option str;
  res_imageDescription : str;
  res_analysis : str
}.

(** [mockPoetries[style] || mockPoetries['现代']]: [None] stands for an
    inherited value, which has neither [content] nor [title]. *)
Definition mockData (style : str) : option mock_entry :=
  match get mockPoetries style with
  | Own e => Some e
  | Inherited => None
  | Undefined => own_lookup mockPoetries XIANDAI
  end.

Definition mock_result (style : str) : gen_result :=
  {| res_poetry := mock_content <$> mockData style;
     res_title := mock_title <$> mockData style;
     res_imageDescription := MOCK_DESCRIPTION;
     res_analysis := MOCK_ANALYSIS |}.

Definition of_parsed (p : parsed) : gen_result :=
  {| res_poetry := Some (poetry p);
     res_title := title p;
     res_imageDescription := imageDescription p;
     res_analysis := analysis p |}.

Record state := State {
  oss : oss_state;
  db : database
}.

Definition has_image (req : generate_request) : bool :=
  negb (negb (bool_decide (is_Some (req_file req)))
        && negb (truthy_opt (req_imageUrl req))
        && negb (truthy_opt (req_imageBuffer req))).

(** Step 1: store the uploaded file; the result is [finalImageUrl]. *)
Definition upload_step (w : world) (o : oss_state) (req : generate_request)
  : option str * oss_state :=
  match req_file req with
  | Some f =>
    let '(ossResult, o') :=
      if threshold <? file_size f          (* req.file.size > threshold *)
      then multipartUploadImage w o (buffer f) (originalname f) FOLDER_POETRY
      else uploadImage w o (buffer f) (originalname f) FOLDER_POETRY in
    match ossResult with
    | Return d => (Some (url d), o')
    | Throw _ => (None, o')                (* finalImageUrl = null *)
    end
  | None => (req_imageUrl req, o)
  end.

(** The model call of step 2, inside its [try]. *)
Definition inference_call (w : world) (req : generate_request)
  (finalImageUrl : option str) (style : str) : completion parsed :=
  if truthy_opt finalImageUrl
  then generatePoetryFromImage w (InUrl (default [] finalImageUrl)) style
  else match req_file req with
       | Some f => generatePoetryFromImage w (InBuffer (buffer f)) style
       | None =>
         if truthy_opt (req_imageBuffer req)
         then generatePoetryFromImage w
                (InBuffer (base64_decode w (default [] (req_imageBuffer req)))) style
         else Throw (new_Error (lit "没有可用的图片数据"))
       end.

(** Step 2 with its [catch]: the canned poem replaces a failed call. *)
Definition inference_step (w : world) (req : generate_request)
  (finalImageUrl : option str) (style : str) : gen_result :=
  match inference_call w req finalImageUrl style with
  | Return p => of_parsed p
  | Throw _ => mock_result style
  end.

Definition undefined_length : exn :=
  {| exn_kind_of := TypeError; exn_code := None;
     exn_message := lit "Cannot read properties of undefined (reading 'length')" |}.

(** [finalImageUrl || other] *)
Definition or_str (a : option str) (b : str) : str :=
  if truthy_opt a then default [] a else b.

Definition MODEL_NAME : str := Eval vm_compute in lit "doubao-pro".
Definition NOTE : str := Eval vm_compute in lit "数据未保存到数据库，请稍后重试".

(** The object literal [poetryData]; reading [result.poetry.length] throws
    when [result.poetry] is [undefined]. *)
Definition poetryData (w : world) (req : generate_request)
  (finalImageUrl : option str) (style : str) (result : gen_result)
  (processingTime : Z) : completion poetry_data :=
  match res_poetry result with
  | None => Throw undefined_length
  | Some lines =>
    Return
      {| d_userId := req_userId req;
         d_image :=
           {| img_filename :=
                if truthy_opt finalImageUrl
                then List.last (split 47 (default [] finalImageUrl)) []
                else match req_file req with
                     | Some f => originalname f
                     | None => lit "poetry_" ++ to_decimal (now_filename w) ++ EXT_JPG
                     end;
              img_path :=
                or_str finalImageUrl
                  (lit "/uploads/poetry_" ++ to_decimal (now_path w) ++ EXT_JPG);
              img_size :=
                match req_file req with
                | Some f => file_size f
                | None =>
                  if truthy_opt (req_imageBuffer req)
                  then N.of_nat (length (base64_decode w (default [] (req_imageBuffer req))))
                  else 0
                end;
              img_mimetype :=
                match req_file req with
                | Some f => file_mimetype f
                | None => IMAGE_JPEG
                end;
              img_url :=
                if truthy_opt finalImageUrl then finalImageUrl else req_imageUrl req |};
         d_imageRecognition :=
           {| rec_description := res_imageDescription result;
              rec_service := lit "doubao-vision" |};
         d_poetry :=
           {| p_content := lines; p_title := res_title result; p_style := style;
              p_length := N.of_nat (length lines) |};
         d_generation :=
           {| gen_prompt := buildImagePoetryPrompt w style;
              gen_model := MODEL_NAME;
              gen_processingTime := processingTime |};
         d_metadata := {| meta_ip := req_ip req; meta_userAgent := req_userAgent req |};
         d_feedback := None;
         d_share := None |}
  end.

Definition created_response (poetry : row) (result : gen_result)
  (processingTime : Z) : response :=
  {| code := 201;
     payload := BGenerate
       {| g_id := RowId (id poetry);
          g_content := p_content (r_poetry poetry);
          g_style := p_style (r_poetry poetry);
          g_title := p_title (r_poetry poetry);
          g_length := p_length (r_poetry poetry);
          g_description := res_imageDescription result;
          g_processingTime := processingTime;
          g_model := gen_model (r_generation poetry);
          g_note := None |} |}.

(** The response of [catch (dbError)]; its literal reads
    [result.poetry.length] too. *)
Definition unsaved_response (w : world) (style : str) (result : gen_result)
  (processingTime : Z) : completion response :=
  match res_poetry result with
  | None => Throw undefined_length
  | Some lines =>
    Return
      {| code := 201;
         payload := BGenerate
           {| g_id := TempId (now_temp w);
              g_content := lines;
              g_style := style;
              g_title := res_title result;
              g_length := N.of_nat (length lines);
              g_description := res_imageDescription result;
              g_processingTime := processingTime;
              g_model := MODEL_NAME;
              g_note := Some NOTE |} |}
  end.

(** Step 3: [try { ... Poetry.create ... } catch (dbError) { ... }] *)
Definition persist_step (w : world) (d : database) (req : generate_request)
  (finalImageUrl : option str) (style : str) (result : gen_result)
  (processingTime : Z) : completion response * database :=
  match poetryData w req finalImageUrl style result processingTime with
  | Throw _ => (unsaved_response w style result processingTime, d)
  | Return data =>
    match create w d data with
    | (Return poetry, d') => (Return (created_response poetry result processingTime), d')
    | (Throw _, d') => (unsaved_response w style result processingTime, d')
    end
  end.

Definition error_response (w : world) (message : string) (e : exn) : response :=
  {| code := 500; payload := BError (lit message) (details_of w e) |}.

(** [generatePoetry(req, res)] *)
Definition generatePoetry (w : world) (st : state) (req : generate_request)
  : response * state :=
  let style := default GUFENG (req_style req) in
  if negb (has_image req)
  then ({| code := 400;
           payload := BError (lit "请提供图片文件、图片数据或图片URL") None |}, st)
  else
    let '(finalImageUrl, o') := upload_step w (oss st) req in
    let result := inference_step w req finalImageUrl style in
    let processingTime := (Z.of_N (now_end w) - Z.of_N (now_start w))%Z in
    let '(outcome, d') :=
      persist_step w (db st) req finalImageUrl style result processingTime in
    match outcome with
    | Return r => (r, {| oss := o'; db := d' |})
    | Throw e =>
      ({| code := 500;
          payload := BError (lit "诗歌生成失败，请稍后重试") (details_of w e) |},
       {| oss := o'; db := d' |})
    end.

(** The body of [PUT /api/poetry/:id/feedback]: absent members are
    [undefined]. *)
Record feedback_body := FeedbackBody {
  fb_rating : option N;
  fb_comment : option str;
  fb_isLiked : option bool
}.

(** [updateFeedback(req, res)] *)
Definition updateFeedback (w : world) (d : database) (i : N) (b : feedback_body)
  : response * database :=
  match findById d i with
  | Throw e => (error_response w "更新反馈失败" e, d)
  | Return None => ({| code := 404; payload := BError (lit "诗歌不存在") None |}, d)
  | Return (Some poetry) =>
    let f0 := r_feedback poetry in
    let f1 := match fb_rating b with
              | Some r => {| rating := Some r; comment := comment f0; isLiked := isLiked f0 |}
              | None => f0
              end in
    let f2 := match fb_comment b with
              | Some c => {| rating := rating f1; comment := Some c; isLiked := isLiked f1 |}
              | None => f1
              end in
    let f3 := match fb_isLiked b with
              | Some l => {| rating := rating f2; comment := comment f2; isLiked := Some l |}
              | None => f2
              end in
    let this :=
      {| id := id poetry; user_id := user_id poetry; r_image := r_image poetry;
         r_recognition := r_recognition poetry; r_poetry := r_poetry poetry;
         r_generation := r_generation poetry; r_feedback := f3;
         r_share := r_share poetry; r_metadata := r_metadata poetry;
         updated_at := updated_at poetry |} in
    match save w d this with
    | (Return saved, d') => ({| code := 200; payload := BFeedback (r_feedback saved) |}, d')
    | (Throw e, d') => (error_response w "更新反馈失败" e, d')
    end
  end.

(** [sharePoetry(req, res)]; [isPublic] defaults to [true]. *)
Definition sharePoetry (w : world) (d : database) (i : N) (isPublicBody : option bool)
  : response * database :=
  match findById d i with
  | Throw e => (error_response w "分享诗歌失败" e, d)
  | Return None => ({| code := 404; payload := BError (lit "诗歌不存在") None |}, d)
  | Return (Some poetry) =>
    let sh := r_share poetry in
    let this :=
      {| id := id poetry; user_id := user_id poetry; r_image := r_image poetry;
         r_recognition := r_recognition poetry; r_poetry := r_poetry poetry;
         r_generation := r_generation poetry; r_feedback := r_feedback poetry;
         r_share :=
           {| is_public := is_public sh; share_count := share_count sh;
              isPublic := Some (default true isPublicBody);
              shareUrl := Some (lit "/poetry/" ++ to_decimal (id poetry)) |};
         r_metadata := r_metadata poetry;
         updated_at := updated_at poetry |} in
    match incrementShareCount w d this with
    | (Return p, d') =>
      ({| code := 200;
          payload := BShare (shareUrl (r_share p)) (share_count (r_share p))
                            (isPublic (r_share p)) |}, d')
    | (Throw e, d') => (error_response w "分享诗歌失败" e, d')
    end
  end.

(** [poetry.userId && poetry.userId !== userId] *)
Definition not_owner (owner caller : option str) : bool :=
  truthy_opt owner && negb (bool_decide (owner = caller)).

(** [deletePoetry(req, res)]; [userId] is read off the parsed body and is
    [undefined] ([None]) when the body has none. *)
Definition deletePoetry (w : world) (d : database) (i : N) (userId : option str)
  : response * database :=
  match findById d i with
  | Throw e => (error_response w "删除诗歌失败" e, d)
  | Return None => ({| code := 404; payload := BError (lit "诗歌不存在") None |}, d)
  | Return (Some poetry) =>
    if not_owner (user_id poetry) userId
    then ({| code := 403; payload := BError (lit "无权限删除此诗歌") None |}, d)
    else
      match deleteById w d i with
      | (Return _, d') => ({| code := 200; payload := BMessage (lit "诗歌删除成功") |}, d')
      | (Throw e, d') => (error_response w "删除诗歌失败" e, d')
      end
  end.

(** [getPoetryById(req, res)] *)
Definition getPoetryById (w : world) (d : database) (i : N) : response :=
  match findById d i with
  | Throw e => error_response w "获取诗歌详情失败" e
  | Return None => {| code := 404; payload := BError (lit "诗歌不存在") None |}
  | Return (Some poetry) => {| code := 200; payload := BPoem poetry |}
  end.

(** The requests of the poetry router that reach the table. *)
Inductive operation :=
| Generate (req : generate_request)
| GetById (i : N)
| UpdateFeedback (i : N) (b : feedback_body)
| SharePoem (i : N) (isPublicBody : option bool)
| DeletePoem (i : N) (userId : option str).

Definition handle (w : world) (st : state) (op : operation) : response * state :=
  match op with
  | Generate req => generatePoetry w st req
  | GetById i => (getPoetryById w (db st) i, st)
  | UpdateFeedback i b =>
    let '(r, d') := updateFeedback w (db st) i b in (r, {| oss := oss st; db := d' |})
  | SharePoem i p =>
    let '(r, d') := sharePoetry w (db st) i p in (r, {| oss := oss st; db := d' |})
  | DeletePoem i u =>
    let '(r, d') := deletePoetry w (db st) i u in (r, {| oss := oss st; db := d' |})
  end.

End Controller.

Import Controller.

(* ===================================================================== *)
(** * The image router: POST /api/images/upload *)
(* ===================================================================== *)

Module Images.

(** The handler of [router.post('/upload', upload.single('image'), ...)] *)
Definition upload (w : world) (o : oss_state) (f : option file)
  : response * oss_state :=
  match f with
  | None => ({| code := 400; payload := BError (lit "请选择要上传的图片") None |}, o)
  | Some f =>
    let '(result, o') :=
      if threshold <? file_size f          (* size > threshold *)
      then multipartUploadImage w o (buffer f) (originalname f) FOLDER_POETRY
      else uploadImage w o (buffer f) (originalname f) FOLDER_POETRY in
    match result with
    | Return d => ({| code := 200; payload := BUpload d |}, o')
    | Throw e =>
      ({| code := 500;
          payload := BError (lit "图片上传失败，请稍后重试") (details_of w e) |}, o')
    end
  end.

(** The handler of [router.post('/upload-multipart', ...)]: always the
    chunked path. *)
Definition upload_multipart (w : world) (o : oss_state) (f : option file)
  : response * oss_state :=
  match f with
  | None => ({| code := 400; payload := BError (lit "请选择要上传的图片") None |}, o)
  | Some f =>
    match multipartUploadImage w o (buffer f) (originalname f) FOLDER_POETRY with
    | (Return d, o') => ({| code := 200; payload := BUpload d |}, o')
    | (Throw e, o') =>
      ({| code := 500;
          payload := BError (lit "图片上传失败，请稍后重试") (details_of w e) |}, o')
    end
  end.

End Images.

(* ===================================================================== *)
(** * What the patterns compute *)
(* ===================================================================== *)

Module Sections.

(** The text after the leftmost occurrence of marker [m]. *)
Fixpoint after (m s : str) : option str :=
  if starts_with m s then Some (drop (length m) s)
  else match s with
       | [] => None
       | _ :: s' => after m s'
       end.

(** The shortest prefix of [s] after which [stop] holds (or [s] ends), and
    what follows it. *)
Fixpoint until (stop : str -> bool) (s : str) : str :=
  match s with
  | [] => []
  | c :: s' => if stop s then [] else c :: until stop s'
  end.

Fixpoint from (stop : str -> bool) (s : str) : str :=
  match s with
  | [] => []
  | _ :: s' => if stop s then s else from stop s'
  end.

Definition is_nil (s : str) : bool := negb (truthy s).

(** Where the lazy groups of the three section patterns stop. *)
Definition stop_description (s : str) : bool :=
  starts_with MARK_POETRY s || (starts_with MARK_ANALYSIS s || is_nil s).
Definition stop_poetry (s : str) : bool :=
  starts_with MARK_ANALYSIS s || is_nil s.
Definition stop_analysis (s : str) : bool := is_nil s.

(** The continuation of a lazy group that starts at index [p0] of a text
    whose remainder there is [s0]: record the capture, then run [tail]. *)
Definition group_then_tail (tail : regex) (p0 : nat) (s0 : str) (st' : mstate)
  : option mstate :=
  rmatch tail {| pos := pos st'; rest := rest st';
                 cap := Some (take (pos st' - p0) s0) |} Some.

(** A lazy group stops only in front of an asterisk or at the end. *)
Definition stops_at_star (stop : str -> bool) : Prop :=
  forall c s, c <> 42 -> stop (c :: s) = false.

(** A section pattern: marker, [\s*], lazy group, tail. *)
Definition section_pattern (m : str) (tail : regex) : regex :=
  Seq (Lit m) (Seq (Star true (Cls CSpace)) (Seq (Group (Star false (Cls CAny))) tail)).

(** What [match ... ? m[1].trim() : fallback] yields for a section pattern. *)
Definition section_text (m : str) (stop : str -> bool) (fallback s : str) : str :=
  match after m s with
  | Some r => trim (until stop (trim_start r))
  | None => fallback
  end.

(** No asterisk, so no marker, in the text. *)
Definition no_star (s : str) : bool := forallb (fun c => negb (c =? 42)) s.

(** No line terminator in the text. *)
Definition single_line (s : str) : bool :=
  forallb (fun c => negb (is_line_terminator c)) s.

(** What is left of pattern [m] to compare once the text [x] has been
    read: [None] when [x] already differs from [m]. *)
Fixpoint residue (m x : str) {struct x} : option str :=
  match x, m with
  | [], _ => Some m
  | _ :: _, [] => Some []
  | b :: x', a :: m' => if b =? a then residue m' x' else None
  end.

Definition has_star (s : str) : bool := existsb (N.eqb 42) s.
Definition no_lf (s : str) : bool := forallb (fun c => negb (c =? 10)) s.

(** [m] cannot match at the start of [x] followed by an asterisk-free
    line: [x] differs from it, or what is left of [m] holds an asterisk. *)
Definition refuted (m x : str) : bool :=
  match residue m x with
  | None => true
  | Some w => has_star w && no_lf w
  end.

(** [m] matches at no index inside [p] when an asterisk-free line follows. *)
Definition not_inside (m p : str) : bool :=
  forallb (fun j => refuted m (drop j p)) (seq 0 (length p)).

(** The synthetic input of the round trip:
    [**图片描述：**D\n**诗歌：**T\nL1\nL2\n**分析：**A] *)
Definition template (D T L1 L2 A : str) : str :=
  MARK_DESCRIPTION ++ D ++ 10 :: MARK_POETRY ++ T ++ 10 :: L1 ++ 10 :: L2
    ++ 10 :: MARK_ANALYSIS ++ A.

(** The poem section of the template, trimmed. *)
Definition poem_body (T L1 L2 : str) : str := T ++ 10 :: L1 ++ 10 :: L2.

(** A field of the round trip that comes back unchanged: nothing to trim,
    one line, no asterisk, not empty. *)
Definition plain_line (s : str) : Prop :=
  trim s = s /\ s <> [] /\ single_line s = true /\ no_star s = true.

End Sections.

Import Sections.

(* ===================================================================== *)
(** * Conditions on the environment, and sample inputs *)
(* ===================================================================== *)

Module Scenario.

(** The model call fails: the request is rejected (network error or
    timeout), the status is not 200, or the payload lacks the text. *)
Definition inference_fails (w : world) : Prop :=
  forall ref prompt,
    match https w ref prompt with
    | Throw _ => True
    | Return r => status r <> 200 \/ content r = None
    end.

(** The poem record the generation flow hands to [Poetry.create]. *)
Definition assembled (w : world) (st : state) (req : generate_request)
  : completion poetry_data :=
  let style := default GUFENG (req_style req) in
  let finalImageUrl := fst (upload_step w (oss st) req) in
  poetryData w req finalImageUrl style
    (inference_step w req finalImageUrl style)
    (Z.of_N (now_end w) - Z.of_N (now_start w))%Z.

(** The row stored under key [i], and its share counter. *)
Definition row_in (d : database) (i : N) : option row :=
  match d with
  | Some t => rows t !! i
  | None => None
  end.

Definition row_at (st : state) (i : N) : option row := row_in (db st) i.

(** The table is keyed by the [id] column. *)
Definition keyed (d : database) : Prop :=
  forall i r, row_in d i = Some r -> id r = i.

Definition count (r : row) : N := or_zero (share_count (r_share r)).

(** A request that uploads file [f]. *)
Definition with_file (req : generate_request) (f : file) : generate_request :=
  {| req_file := Some f; req_imageBuffer := req_imageBuffer req;
     req_imageUrl := req_imageUrl req; req_style := req_style req;
     req_userId := req_userId req; req_ip := req_ip req;
     req_userAgent := req_userAgent req |}.

Definition timeout_error : exn := new_Error (lit "Request timeout").

(** A world in which storage and database answer; [re_encode] is the
    image library, [reply] the inference endpoint, [refuse_insert] the
    server's answer to an insert. *)
Definition sample_world (re_encode : bytes -> option bytes)
  (reply : completion https_response) (refuse_insert : option exn) : world :=
  {| sharp := re_encode;
     key_now := 1700000000000;
     key_uuid := lit "3b241101-e2bb-4255-8caf-4136c566a962";
     put_error := fun _ _ => None;
     multipart_error := fun _ _ => None;
     writeFile_error := None;
     etag := fun _ _ => lit "5D41402ABC4B2A76B9719D911017C592";
     oss_url := fun k => lit "http://poems.oss-cn-beijing.aliyuncs.com/" ++ k;
     baseUrl := lit "https://img.example.com";
     https := fun _ _ => reply;
     base64_decode := fun _ => [];
     inherited_text := fun _ => lit "function Object() { [native code] }";
     now_start := 1700000000000;
     now_end := 1700000000750;
     now_filename := 1700000000751;
     now_path := 1700000000751;
     now_temp := 1700000000752;
     insert_error := refuse_insert;
     update_error := None;
     delete_error := None;
     iso_now := lit "2023-11-14T22:13:20.000Z";
     development := false |}.

(** The image library re-encodes (here: leaves the bytes), or rejects. *)
Definition re_encodes : bytes -> option bytes := Some.
Definition rejects : bytes -> option bytes := fun _ => None.

Definition good_reply : completion https_response :=
  Return {| status := 200; data_text := lit "[object Object]";
            content := Some (lit "**图片描述：**一座山
**诗歌：**春日即景
山水如画意境深
清风徐来花满林
**分析：**色彩丰富") |}.

(** Four bytes that are no image. *)
Definition not_an_image : bytes := [Byte.x61; Byte.x62; Byte.x63; Byte.x64].

(** An upload of [n] zero bytes, which are no image either. *)
Definition zero_bytes (n : N) : bytes := repeat Byte.x00 (N.to_nat n).

Definition sized_file (n : N) : file :=
  {| buffer := zero_bytes n; originalname := lit "holiday.png";
     file_size := n; file_mimetype := lit "image/png" |}.

(** A request that names a remote image. *)
Definition url_request (style : option str) : generate_request :=
  {| req_file := None; req_imageBuffer := None;
     req_imageUrl := Some (lit "https://example.com/a.jpg");
     req_style := style; req_userId := None;
     req_ip := lit "127.0.0.1"; req_userAgent := None |}.

Definition empty_oss : oss_state := {| bucket := ∅; calls := [] |}.

Definition sample_row (i : N) (owner : option str) (shared : N) : row :=
  {| id := i; user_id := owner;
     r_image := {| img_filename := lit "a.jpg"; img_path := lit "/uploads/a.jpg";
                   img_size := 0; img_mimetype := IMAGE_JPEG; img_url := None |};
     r_recognition := {| rec_description := lit "一座山";
                         rec_service := lit "doubao-vision" |};
     r_poetry := {| p_content := [lit "山水如画意境深"]; p_title := None;
                    p_style := GUFENG; p_length := 1 |};
     r_generation := {| gen_prompt := []; gen_model := MODEL_NAME;
                        gen_processingTime := 750 |};
     r_feedback := empty_feedback;
     r_share := {| is_public := Some false; share_count := Some shared;
                   isPublic := None; shareUrl := None |};
     r_metadata := {| meta_ip := lit "127.0.0.1"; meta_userAgent := None |};
     updated_at := None |}.

(** A table holding one row, with key 7. *)
Definition one_row (owner : option str) (shared : N) : table :=
  {| rows := {[ 7 := sample_row 7 owner shared ]}; next_id := 8 |}.

Definition sample_state (d : database) : state := {| oss := empty_oss; db := d |}.

End Scenario.

Import Scenario.

(* ===================================================================== *)
(** * OSSService: the other operations *)
(* ===================================================================== *)

Module Objects.

(** The call sites of the operations below. *)
Record remote := Remote {
  (* this.client.delete(key): the error it throws *)
  remove_error : str -> option exn;
  (* axios.get(imageUrl, ...): the body, or the error's [code] and
     [response?.status] *)
  download : str -> bytes + (option str * option N);
  (* Date.now() in `image_${Date.now()}.jpg` *)
  download_now : N
}.

(** The message the [catch] block of [uploadImage] ends with, by the
    [code] of the client's error. *)
Definition put_failure_message (e : exn) : str :=
  if has_code e "NoSuchBucket" then lit "OSS存储桶不存在，请检查配置"
  else if has_code e "AccessDenied" then lit "OSS访问被拒绝，请检查权限配置"
  else if has_code e "InvalidAccessKeyId" then lit "OSS访问密钥无效，请检查配置"
  else lit "图片上传失败，请稍后重试".

(** [getImageUrl(filename)] *)
Definition getImageUrl (w : world) (name : str) : str :=
  baseUrl w ++ SLASH ++ name.

(** [deleteImage(filename)]: [true], or [false] when the client throws.
    The list [calls] keeps the uploads only. *)
Definition deleteImage (x : remote) (o : oss_state) (name : str)
  : bool * oss_state :=
  match remove_error x name with
  | Some _ => (false, o)
  | None => (true, {| bucket := delete name (bucket o); calls := calls o |})
  end.

(** The [catch] block of [uploadImageFromUrl], on the error's [code] and
    [response?.status]. *)
Definition fromUrl_catch (code : option str) (status : option N) : exn :=
  if bool_decide (code = Some (lit "ECONNABORTED"))
  then new_Error (lit "下载图片超时，请检查网络连接")
  else
    match status with
    | Some n =>
      if n =? 404 then new_Error (lit "图片URL不存在")
      else if 400 <=? n
      then new_Error (lit "下载图片失败: HTTP " ++ to_decimal n)
      else new_Error (lit "图片上传失败，请稍后重试")
    | None => new_Error (lit "图片上传失败，请稍后重试")
    end.

(** [uploadImageFromUrl(imageUrl, folder)]: the errors of the two upload
    paths pass through the same [catch] block; they carry no [response]. *)
Definition uploadImageFromUrl (w : world) (x : remote) (o : oss_state)
  (imageUrl folder : str) : completion upload_data * oss_state :=
  match download x imageUrl with
  | inr (code, status) => (Throw (fromUrl_catch code status), o)
  | inl imageBuffer =>
    let originalName := lit "image_" ++ to_decimal (download_now x) ++ EXT_JPG in
    let fileSize := N.of_nat (length imageBuffer) in
    let '(result, o') :=
      if threshold <? fileSize             (* fileSize > threshold *)
      then multipartUploadImage w o imageBuffer originalName folder
      else uploadImage w o imageBuffer originalName folder in
    match result with
    | Return d => (Return d, o')
    | Throw e => (Throw (fromUrl_catch (exn_code e) None), o')
    end
  end.

End Objects.

Import Objects.

(* ===================================================================== *)
(** * The image router: upload-url and delete *)
(* ===================================================================== *)

Module ImageRoutes.

(** The handler of [router.post('/upload-url', ...)], after validation;
    [folder] defaults to ['poetry']. *)
Definition upload_url (w : world) (x : remote) (o : oss_state) (imageUrl : str)
  (folder : option str) : response * oss_state :=
  match uploadImageFromUrl w x o imageUrl (default FOLDER_POETRY folder) with
  | (Return d, o') => ({| code := 200; payload := BUpload d |}, o')
  | (Throw e, o') =>
    ({| code := 500;
        payload := BError (lit "图片上传失败，请稍后重试") (details_of w e) |}, o')
  end.

(** The handler of [router.delete('/:filename', ...)] *)
Definition remove (x : remote) (o : oss_state) (name : str) : response * oss_state :=
  if negb (truthy name)
  then ({| code := 400; payload := BError (lit "请提供文件名") None |}, o)
  else
    match deleteImage x o name with
    | (true, o') => ({| code := 200; payload := BMessage (lit "图片删除成功") |}, o')
    | (false, o') => ({| code := 500; payload := BError (lit "图片删除失败") None |}, o')
    end.

End ImageRoutes.

(* ===================================================================== *)
(** * Replies in the format the prompt asks for *)
(* ===================================================================== *)

Module Format.

(** [lines.join('\n')] *)
Fixpoint join_lines (ls : list str) : str :=
  match ls with
  | [] => []
  | [l] => l
  | l :: ls' => l ++ 10 :: join_lines ls'
  end.

(** The layout [buildImagePoetryPrompt] shows: each marker on a line of
    its own, an empty line between the sections. *)
Definition formatted_reply (D T : str) (Ls : list str) (A : str) : str :=
  MARK_DESCRIPTION ++ 10 :: D ++ 10 :: 10 ::
  MARK_POETRY ++ 10 :: T ++ 10 :: join_lines Ls ++ 10 :: 10 ::
  MARK_ANALYSIS ++ 10 :: A.

(** The place holders the prompt puts in that layout. *)
Definition prompt_layout : str :=
  formatted_reply (lit "[图片内容描述]") (lit "[诗歌标题]") [lit "[诗歌内容]"]
    (lit "[对图片的简要分析，包括色彩、构图、意境等]").

(** A reply of the endpoint with status 200 and that text. *)
Definition replies (w : world) (text : str) : Prop :=
  forall ref prompt,
    exists r, https w ref prompt = Return r /\ status r = 200 /\ content r = Some text.

End Format.

Import Format.

(* ===================================================================== *)
(** * Sequences of requests, and what they keep *)
(* ===================================================================== *)

Module Runs.

(** The requests handled one after the other, each in its own world. *)
Fixpoint run (st : state) (steps : list (world * operation)) : state :=
  match steps with
  | [] => st
  | (w, op) :: rest => run (snd (handle w st op)) rest
  end.

(** The [length] member of every stored poem counts its lines. *)
Definition lengths_agree (d : database) : Prop :=
  forall i r, row_in d i = Some r ->
              p_length (r_poetry r) = N.of_nat (length (p_content (r_poetry r))).

(** Every key in use lies below the key sequence. *)
Definition ids_below (d : database) : Prop :=
  match d with
  | Some t => forall i r, rows t !! i = Some r -> i < next_id t
  | None => True
  end.

(** What the requests of the poetry router keep of a table. *)
Definition well_formed (d : database) : Prop :=
  keyed d /\ lengths_agree d /\ ids_below d.

(** A connected database whose table is empty. *)
Definition empty_table : table := {| rows := ∅; next_id := 1 |}.

(** The members of the body laid over the stored feedback. *)
Definition merge_feedback (b : feedback_body) (f : feedback) : feedback :=
  {| rating := match fb_rating b with Some x => Some x | None => rating f end;
     comment := match fb_comment b with Some x => Some x | None => comment f end;
     isLiked := match fb_isLiked b with Some x => Some x | None => isLiked f end |}.

(** A row with another feedback and time stamp. *)
Definition with_feedback (r : row) (f : feedback) (stamp : option str) : row :=
  {| id := id r; user_id := user_id r; r_image := r_image r;
     r_recognition := r_recognition r; r_poetry := r_poetry r;
     r_generation := r_generation r; r_feedback := f;
     r_share := r_share r; r_metadata := r_metadata r; updated_at := stamp |}.


(** A request that names a remote image and a user. *)
Definition request_of (userId : option str) : generate_request :=
  {| req_file := None; req_imageBuffer := None;
     req_imageUrl := Some (lit "https://example.com/a.jpg");
     req_style := None; req_userId := userId;
     req_ip := lit "127.0.0.1"; req_userAgent := None |}.

(** A world whose storage client rejects every put with the given error
    code, and whose image library rejects the bytes. *)
Definition refusing_world (code : string) : world :=
  {| sharp := rejects;
     key_now := 1700000000000;
     key_uuid := lit "3b241101-e2bb-4255-8caf-4136c566a962";
     put_error := fun _ _ =>
       Some {| exn_kind_of := PlainError; exn_code := Some (lit code);
               exn_message := lit "The request was rejected" |};
     multipart_error := fun _ _ => None;
     writeFile_error := None;
     etag := fun _ _ => lit "5D41402ABC4B2A76B9719D911017C592";
     oss_url := fun k => lit "http://poems.oss-cn-beijing.aliyuncs.com/" ++ k;
     baseUrl := lit "https://img.example.com";
     https := fun _ _ => good_reply;
     base64_decode := fun _ => [];
     inherited_text := fun _ => lit "function Object() { [native code] }";
     now_start := 1700000000000;
     now_end := 1700000000750;
     now_filename := 1700000000751;
     now_path := 1700000000751;
     now_temp := 1700000000752;
     insert_error := None;
     update_error := None;
     delete_error := None;
     iso_now := lit "2023-11-14T22:13:20.000Z";
     development := false |}.

(** A storage service that answers, for the samples. *)
Definition sample_remote (data : bytes + (option str * option N)) : remote :=
  {| remove_error := fun _ => None;
     download := fun _ => data;
     download_now := 1700000000001 |}.

End Runs.

Import Runs.

(** Re-association of appended texts. *)
Ltac reassoc :=
  repeat (rewrite <- app_assoc || rewrite <- app_comm_cons); reflexivity.

(* ===================================================================== *)
(** * Strings: prefixes, trimming, splitting *)
(* ===================================================================== *)

Section StringFacts.

Lemma starts_with_app (m s : str) : starts_with m (m ++ s) = true.
Proof.
  induction m as [|a m IH]; simpl; [reflexivity|].
  now rewrite N.eqb_refl, IH.
Qed.

Lemma drop_length_app (m s : str) : drop (length m) (m ++ s) = s.
Proof. induction m; simpl; auto. Qed.

Lemma trim_start_length (s : str) : (length (trim_start s) <= length s)%nat.
Proof.
  induction s as [|c s IH]; simpl; [lia|].
  destruct (is_space c); simpl; lia.
Qed.

Lemma trim_start_cons (c : N) (s : str) :
  is_space c = false -> trim_start (c :: s) = c :: s.
Proof. intros H; simpl; now rewrite H. Qed.

Lemma trim_end_length (s : str) : (length (trim_end s) <= length s)%nat.
Proof.
  unfold trim_end. rewrite length_rev.
  etransitivity; [apply trim_start_length|]. now rewrite length_rev.
Qed.

Lemma trim_end_snoc_space (s : str) (c : N) :
  is_space c = true -> trim_end (s ++ [c]) = trim_end s.
Proof. intros H. unfold trim_end. rewrite rev_app_distr. simpl. now rewrite H. Qed.

Lemma trim_end_snoc (s : str) (c : N) :
  is_space c = false -> trim_end (s ++ [c]) = s ++ [c].
Proof.
  intros H. unfold trim_end. rewrite rev_app_distr. simpl. rewrite H.
  simpl. now rewrite rev_involutive.
Qed.

(** A trimmed, non-empty string starts and ends with a unit that is not
    white space. *)
Lemma trimmed_first (c : N) (s : str) :
  trim (c :: s) = c :: s -> is_space c = false.
Proof.
  intros H. destruct (is_space c) eqn:E; [|reflexivity].
  exfalso. assert (L : length (trim (c :: s)) = length (c :: s)) by now rewrite H.
  unfold trim in L. simpl in L. rewrite E in L.
  pose proof (trim_end_length (trim_start s)).
  pose proof (trim_start_length s). lia.
Qed.

Lemma trimmed_last (s : str) (c : N) :
  trim (s ++ [c]) = s ++ [c] -> is_space c = false.
Proof.
  intros H. destruct (is_space c) eqn:E; [|reflexivity].
  exfalso. assert (L : length (trim (s ++ [c])) = length (s ++ [c])) by now rewrite H.
  unfold trim in L.
  assert (S : trim_start (s ++ [c]) = [] \/ exists z, trim_start (s ++ [c]) = z ++ [c]).
  { clear H L. induction s as [|a s IH]; simpl.
    - rewrite E. now left.
    - destruct (is_space a); [exact IH|]. right. now exists (a :: s). }
  rewrite length_app in L. simpl in L.
  destruct S as [S|[z S]].
  - rewrite S in L. simpl in L. lia.
  - pose proof (trim_start_length (s ++ [c])) as L1. rewrite length_app in L1.
    simpl in L1. rewrite S in L, L1. rewrite trim_end_snoc_space in L by exact E.
    pose proof (trim_end_length z). rewrite length_app in L1. simpl in L1. lia.
Qed.

Lemma trim_kept (c d : N) (s : str) :
  is_space c = false -> is_space d = false ->
  trim (c :: s ++ [d]) = c :: s ++ [d].
Proof.
  intros Hc Hd. unfold trim. rewrite trim_start_cons by exact Hc.
  exact (trim_end_snoc (c :: s) d Hd).
Qed.

Lemma split_no_sep (c : N) (s : str) :
  forallb (fun x => negb (x =? c)) s = true -> split c s = [s].
Proof.
  induction s as [|x s IH]; simpl; [reflexivity|].
  intros H. apply andb_prop in H as [H1 H2].
  apply negb_true_iff in H1. rewrite H1, (IH H2). reflexivity.
Qed.

Lemma split_app (c : N) (l s : str) :
  forallb (fun x => negb (x =? c)) l = true ->
  split c (l ++ c :: s) = l :: split c s.
Proof.
  induction l as [|x l IH]; simpl; intros H.
  - now rewrite N.eqb_refl.
  - apply andb_prop in H as [H1 H2]. apply negb_true_iff in H1.
    rewrite H1, (IH H2). reflexivity.
Qed.

Lemma single_line_no_lf (s : str) :
  single_line s = true -> forallb (fun x => negb (x =? 10)) s = true.
Proof.
  unfold single_line. induction s as [|x s IH]; simpl; [reflexivity|].
  intros H. apply andb_prop in H as [H1 H2]. rewrite (IH H2), andb_true_r.
  unfold is_line_terminator in H1. destruct (x =? 10); [discriminate|reflexivity].
Qed.

End StringFacts.

(* ===================================================================== *)
(** * The matcher on the shapes the parser uses *)
(* ===================================================================== *)

Section Engine.

Lemma or_else_None_r (a : option mstate) : or_else a None = a.
Proof. now destruct a. Qed.

Lemma rmatch_Cls (cl : cclass) (st : mstate) (k : mstate -> option mstate) :
  rmatch (Cls cl) st k =
  match rest st with
  | x :: s' => if in_class cl x then k (advance st s') else None
  | [] => None
  end.
Proof. reflexivity. Qed.

Lemma rmatch_Seq (r1 r2 : regex) (st : mstate) (k : mstate -> option mstate) :
  rmatch (Seq r1 r2) st k = rmatch r1 st (fun st1 => rmatch r2 st1 k).
Proof. reflexivity. Qed.

Lemma rmatch_Star (g : bool) (r : regex) (st : mstate) (k : mstate -> option mstate) :
  rmatch (Star g r) st k = star_loop (rmatch r) g k (S (length (rest st))) st.
Proof. reflexivity. Qed.

Lemma rmatch_Group (r : regex) (st : mstate) (k : mstate -> option mstate) :
  rmatch (Group r) st k =
  rmatch r st (fun st' => k {| pos := pos st'; rest := rest st';
                               cap := Some (take (pos st' - pos st) (rest st)) |}).
Proof. reflexivity. Qed.

(** A literal is a prefix test. *)
Lemma rmatch_Lit (l : str) (st : mstate) (k : mstate -> option mstate) :
  rmatch (Lit l) st k =
  if starts_with l (rest st)
  then k {| pos := pos st + length l; rest := drop (length l) (rest st);
            cap := cap st |}
  else None.
Proof.
  revert st. induction l as [|a l IH]; intros [p r c]; cbn [Lit rmatch rest pos cap].
  - simpl. now rewrite Nat.add_0_r.
  - destruct r as [|x r]; [reflexivity|]. cbn [starts_with].
    destruct (x =? a); [|reflexivity]. rewrite IH. cbn [advance rest pos cap andb].
    destruct (starts_with l r); [|reflexivity].
    simpl. now rewrite Nat.add_succ_r.
Qed.

(** Greedy [\s*] before a continuation that accepts the longest run. *)
Lemma greedy_space (k : mstate -> option mstate) (c : option str) :
  forall (fuel : nat) (p : nat) (s : str),
    (length s < fuel)%nat ->
    is_Some (k {| pos := p + (length s - length (trim_start s));
                  rest := trim_start s; cap := c |}) ->
    star_loop (rmatch (Cls CSpace)) true k fuel {| pos := p; rest := s; cap := c |}
    = k {| pos := p + (length s - length (trim_start s));
           rest := trim_start s; cap := c |}.
Proof.
  induction fuel as [|fuel IH]; intros p s Hf Hk; [lia|].
  cbn [star_loop]. rewrite rmatch_Cls. cbn [rest pos]. destruct s as [|a s].
  - cbn [trim_start length or_else]. now rewrite Nat.add_0_r.
  - cbn [in_class advance cap pos]. cbn [trim_start] in *.
    destruct (is_space a) eqn:E.
    + assert (L : (p <? S p)%nat = true) by (apply Nat.ltb_lt; lia).
      rewrite L. unfold advance. cbn [pos cap].
      pose proof (trim_start_length s) as Hl.
      assert (Q : (p + (length (a :: s) - length (trim_start s))
                   = S p + (length s - length (trim_start s)))%nat)
        by (simpl; lia).
      rewrite Q in *. simpl in Hf.
      rewrite IH by (try lia; exact Hk).
      destruct Hk as [x Hx]. now rewrite Hx.
    + cbn [or_else]. now rewrite Nat.sub_diag, Nat.add_0_r.
Qed.

Section LazyGroup.

Variable stop : str -> bool.
Variable tail : regex.
Hypothesis tail_spec :
  forall st, rmatch tail st Some = if stop (rest st) then Some st else None.
Hypothesis stop_nil : stop [] = true.

Lemma group_then_tail_eq (p0 : nat) (s0 : str) (st' : mstate) :
  group_then_tail tail p0 s0 st' =
  if stop (rest st')
  then Some {| pos := pos st'; rest := rest st';
               cap := Some (take (pos st' - p0) s0) |}
  else None.
Proof. unfold group_then_tail. now rewrite tail_spec. Qed.

(** Lazy [[\s\S]*?] takes the shortest prefix the tail accepts. *)
Lemma lazy_any_until (p0 : nat) (c : option str) :
  forall (fuel : nat) (pre s : str),
    (length s < fuel)%nat ->
    star_loop (rmatch (Cls CAny)) false (group_then_tail tail p0 (pre ++ s)) fuel
      {| pos := p0 + length pre; rest := s; cap := c |}
    = Some {| pos := p0 + length pre + length (until stop s);
              rest := from stop s; cap := Some (pre ++ until stop s) |}.
Proof.
  induction fuel as [|fuel IH]; intros pre s Hf; [lia|].
  cbn [star_loop]. rewrite group_then_tail_eq. cbn [pos rest].
  replace (p0 + length pre - p0)%nat with (length pre) by lia.
  rewrite take_app_length.
  destruct s as [|x s].
  - rewrite stop_nil. cbn [or_else until from length].
    now rewrite Nat.add_0_r, app_nil_r.
  - cbn [until from]. destruct (stop (x :: s)) eqn:E.
    + cbn [or_else length]. now rewrite Nat.add_0_r, app_nil_r.
    + cbn [or_else]. rewrite rmatch_Cls. cbn [rest in_class advance pos cap].
      replace (is_space x || negb (is_space x)) with true
        by (now destruct (is_space x)).
      assert (L : (p0 + length pre <? S (p0 + length pre))%nat = true)
        by (apply Nat.ltb_lt; lia).
      rewrite L. unfold advance. cbn [pos cap]. specialize (IH (pre ++ [x]) s).
      rewrite <- app_assoc, length_app in IH. cbn [app length] in IH.
      replace (p0 + (length pre + 1))%nat with (S (p0 + length pre)) in IH by lia.
      simpl in Hf. rewrite IH by lia. f_equal. f_equal; [simpl; lia|].
      now rewrite <- app_assoc.
Qed.

(** One attempt of a section pattern at a given start. *)
Lemma section_attempt (m : str) (i : nat) (s : str) :
  exists p,
    rmatch (section_pattern m tail) {| pos := i; rest := s; cap := None |} Some
    = if starts_with m s
      then Some {| pos := p;
                   rest := from stop (trim_start (drop (length m) s));
                   cap := Some (until stop (trim_start (drop (length m) s))) |}
      else None.
Proof.
  unfold section_pattern. rewrite rmatch_Seq, rmatch_Lit. cbn [pos rest cap].
  destruct (starts_with m s); [|now exists O].
  set (r := drop (length m) s).
  set (q := (i + length m + (length r - length (trim_start r)))%nat).
  assert (G : star_loop (rmatch (Cls CAny)) false
                (group_then_tail tail q (trim_start r)) (S (length (trim_start r)))
                {| pos := q; rest := trim_start r; cap := None |}
              = Some {| pos := q + length (until stop (trim_start r));
                        rest := from stop (trim_start r);
                        cap := Some (until stop (trim_start r)) |}).
  { pose proof (lazy_any_until q None (S (length (trim_start r))) [] (trim_start r)) as H.
    cbn [app length] in H. rewrite Nat.add_0_r in H. apply H. lia. }
  exists (q + length (until stop (trim_start r)))%nat.
  rewrite rmatch_Seq, rmatch_Star. cbn [rest].
  rewrite greedy_space; fold r; fold q.
  - rewrite rmatch_Seq, rmatch_Group, rmatch_Star. cbn [pos rest]. exact G.
  - lia.
  - rewrite rmatch_Seq, rmatch_Group, rmatch_Star. cbn [pos rest].
    unfold group_then_tail in G. rewrite G. eauto.
Qed.

(** Leftmost search: the capture is cut from the text after the marker. *)
Lemma exec_from_section (m : str) :
  forall (s : str) (i : nat),
    (fun r => cap (m_end r)) <$> exec_from (section_pattern m tail) i s
    = (fun t => Some (until stop (trim_start t))) <$> after m s.
Proof.
  induction s as [|x s IH]; intros i; cbn [exec_from after].
  - destruct (section_attempt m i []) as [p0 H0].
    rewrite H0. now destruct (starts_with m []).
  - destruct (section_attempt m i (x :: s)) as [p1 H1].
    rewrite H1. destruct (starts_with m (x :: s)); [reflexivity|]. apply IH.
Qed.

(** [match ? match[1].trim() : fallback] *)
Lemma section_or_default (m fallback s : str) :
  match exec (section_pattern m tail) s with
  | Some r => group1_trim r
  | None => Return fallback
  end = Return (section_text m stop fallback s).
Proof.
  pose proof (exec_from_section m s 0) as H. unfold exec, section_text.
  destruct (exec_from (section_pattern m tail) 0 s) as [r|];
    destruct (after m s) as [t|]; simpl in H; try discriminate; [|reflexivity].
  unfold group1_trim. injection H as H. now rewrite H.
Qed.

End LazyGroup.

(** The tails of the three section patterns. *)
Lemma tail_description (st : mstate) :
  rmatch (Look (Alt (Lit MARK_POETRY) (Alt (Lit MARK_ANALYSIS) Eol))) st Some
  = if stop_description (rest st) then Some st else None.
Proof.
  cbn [rmatch]. rewrite !rmatch_Lit. unfold stop_description.
  destruct st as [p r c]. cbn [pos rest cap].
  destruct (starts_with MARK_POETRY r); [reflexivity|].
  destruct (starts_with MARK_ANALYSIS r); [reflexivity|].
  now destruct r.
Qed.

Lemma tail_poetry (st : mstate) :
  rmatch (Look (Alt (Lit MARK_ANALYSIS) Eol)) st Some
  = if stop_poetry (rest st) then Some st else None.
Proof.
  cbn [rmatch]. rewrite !rmatch_Lit. unfold stop_poetry.
  destruct st as [p r c]. cbn [pos rest cap].
  destruct (starts_with MARK_ANALYSIS r); [reflexivity|].
  now destruct r.
Qed.

Lemma tail_analysis (st : mstate) :
  rmatch Eol st Some = if stop_analysis (rest st) then Some st else None.
Proof. destruct st as [p [|x r] c]; reflexivity. Qed.

(** The three extractions of [parsePoetryResult], without the matcher. *)
Lemma description_text (s : str) :
  match exec RE_DESCRIPTION s with
  | Some r => group1_trim r
  | None => Return DEFAULT_DESCRIPTION
  end = Return (section_text MARK_DESCRIPTION stop_description DEFAULT_DESCRIPTION s).
Proof. exact (section_or_default _ _ tail_description eq_refl _ _ s). Qed.

Lemma poetry_text (s : str) :
  match exec RE_POETRY s with
  | Some r => group1_trim r
  | None => Return s
  end = Return (section_text MARK_POETRY stop_poetry s s).
Proof. exact (section_or_default _ _ tail_poetry eq_refl _ _ s). Qed.

Lemma analysis_text (s : str) :
  match exec RE_ANALYSIS s with
  | Some r => group1_trim r
  | None => Return DEFAULT_ANALYSIS
  end = Return (section_text MARK_ANALYSIS stop_analysis DEFAULT_ANALYSIS s).
Proof. exact (section_or_default _ _ tail_analysis eq_refl _ _ s). Qed.

End Engine.

(* ===================================================================== *)
(** * The title pattern *)
(* ===================================================================== *)

Section TitleLine.

Lemma rmatch_Chr (a : N) (st : mstate) (k : mstate -> option mstate) :
  rmatch (Chr a) st k =
  match rest st with
  | x :: s' => if x =? a then k (advance st s') else None
  | [] => None
  end.
Proof. reflexivity. Qed.

Lemma rmatch_Bol (st : mstate) (k : mstate -> option mstate) :
  rmatch Bol st k = if (pos st =? 0)%nat then k st else None.
Proof. reflexivity. Qed.

Lemma single_line_cons (x : N) (s : str) :
  single_line (x :: s) = true ->
  is_line_terminator x = false /\ x <> 10 /\ single_line s = true.
Proof.
  unfold single_line. cbn [forallb]. intros H. apply andb_prop in H as [H1 H2].
  apply negb_true_iff in H1. repeat split; try assumption.
  intros ->. discriminate.
Qed.

(** Lazy [.*?] in front of a continuation that needs a line feed: it runs
    to the end of the line. *)
Lemma lazy_dot_line (k : mstate -> option mstate) (c : option str) (R : str) :
  (forall p x r, x <> 10 -> k {| pos := p; rest := x :: r; cap := c |} = None) ->
  forall (fuel : nat) (T : str) (p : nat),
    single_line T = true ->
    (length (T ++ 10%N :: R) < fuel)%nat ->
    star_loop (rmatch (Cls CDot)) false k fuel
      {| pos := p; rest := T ++ 10 :: R; cap := c |}
    = k {| pos := p + length T; rest := 10 :: R; cap := c |}.
Proof.
  intros Hk. induction fuel as [|fuel IH]; intros T p Hs Hf; [lia|].
  cbn [star_loop]. rewrite rmatch_Cls. cbn [rest]. destruct T as [|x T].
  - cbn [app in_class length]. rewrite Nat.add_0_r. apply or_else_None_r.
  - apply single_line_cons in Hs as (Hx & Hx' & Hs).
    cbn [app in_class length]. rewrite Hx, (Hk p x _ Hx'). cbn [negb or_else].
    unfold advance. cbn [pos cap].
    assert (L : (p <? S p)%nat = true) by (apply Nat.ltb_lt; lia).
    rewrite L. simpl in Hf. rewrite IH by (try lia; exact Hs).
    now rewrite Nat.add_succ_r.
Qed.

(** [.+?] up to the first line feed. *)
Lemma plus_dot_line (k : mstate -> option mstate) (c : option str) (T R : str)
  (p : nat) :
  (forall p x r, x <> 10 -> k {| pos := p; rest := x :: r; cap := c |} = None) ->
  T <> [] -> single_line T = true ->
  rmatch (Plus false (Cls CDot)) {| pos := p; rest := T ++ 10 :: R; cap := c |} k
  = k {| pos := p + length T; rest := 10 :: R; cap := c |}.
Proof.
  intros Hk Hne Hs. destruct T as [|x T]; [congruence|].
  apply single_line_cons in Hs as (Hx & _ & Hs).
  unfold Plus. rewrite rmatch_Seq, rmatch_Cls. cbn [rest app in_class].
  rewrite Hx. cbn [negb]. rewrite rmatch_Star. unfold advance.
  cbn [pos rest cap]. rewrite (lazy_dot_line k c R Hk) by (try lia; exact Hs).
  cbn [length]. now rewrite Nat.add_succ_r.
Qed.

Lemma exec_from_hit (r : regex) (i : nat) (s : str) (st : mstate) :
  rmatch r {| pos := i; rest := s; cap := None |} Some = Some st ->
  exec_from r i s = Some {| m_index := i; m_end := st |}.
Proof. intros H. destruct s; cbn [exec_from]; now rewrite H. Qed.

(** [poetry.match(/^(.+?)\n/)] on a text whose first line is [T]. *)
Lemma title_exec (T R : str) :
  T <> [] -> single_line T = true ->
  exec RE_TITLE (T ++ 10 :: R)
  = Some {| m_index := 0;
            m_end := {| pos := S (length T); rest := R; cap := Some T |} |}.
Proof.
  intros Hne Hs. unfold exec, RE_TITLE. apply exec_from_hit.
  rewrite rmatch_Seq, rmatch_Bol. cbn [pos Nat.eqb].
  rewrite rmatch_Seq, rmatch_Group. cbn [pos rest].
  rewrite plus_dot_line; try assumption.
    - rewrite rmatch_Chr. cbn [pos rest]. rewrite N.eqb_refl.
      unfold advance. cbn [pos rest cap].
      rewrite Nat.sub_0_r, Nat.add_0_l, take_app_length. reflexivity.
    - intros p x r Hx. rewrite rmatch_Chr. cbn [rest].
      apply N.eqb_neq in Hx. now rewrite Hx.
Qed.

(** [poetry.replace(/^.+?\n/, '')] drops that first line. *)
Lemma title_line_replace (T R : str) :
  T <> [] -> single_line T = true ->
  replace_empty RE_TITLE_LINE (T ++ 10 :: R) = R.
Proof.
  intros Hne Hs. unfold replace_empty, exec, RE_TITLE_LINE.
  rewrite (exec_from_hit _ 0 _ {| pos := S (length T); rest := R; cap := None |});
    [reflexivity|].
  rewrite rmatch_Seq, rmatch_Bol. cbn [pos Nat.eqb].
  rewrite rmatch_Seq. rewrite plus_dot_line; try assumption.
  - rewrite rmatch_Chr. cbn [pos rest]. now rewrite N.eqb_refl.
  - intros p x r Hx. rewrite rmatch_Chr. cbn [rest].
    apply N.eqb_neq in Hx. now rewrite Hx.
Qed.

End TitleLine.

(* ===================================================================== *)
(** * Texts without asterisks between the markers *)
(* ===================================================================== *)

Section Template.

Lemma stop_description_star : stops_at_star stop_description.
Proof.
  intros c s Hc. apply N.eqb_neq in Hc. unfold stop_description, MARK_POETRY,
    MARK_ANALYSIS. cbn [starts_with is_nil truthy negb]. now rewrite Hc.
Qed.

Lemma stop_poetry_star : stops_at_star stop_poetry.
Proof.
  intros c s Hc. apply N.eqb_neq in Hc. unfold stop_poetry, MARK_ANALYSIS.
  cbn [starts_with is_nil truthy negb]. now rewrite Hc.
Qed.

Lemma no_star_cons (x : N) (s : str) :
  no_star (x :: s) = true -> x <> 42 /\ no_star s = true.
Proof.
  unfold no_star. cbn [forallb]. intros H. apply andb_prop in H as [H1 H2].
  apply negb_true_iff, N.eqb_neq in H1. now split.
Qed.

Lemma until_no_star (stop : str -> bool) (X Y : str) :
  stops_at_star stop -> no_star X = true ->
  until stop (X ++ Y) = X ++ until stop Y.
Proof.
  intros Hst. induction X as [|x X IH]; intros H; [reflexivity|].
  apply no_star_cons in H as [Hx H]. cbn [app until].
  now rewrite (Hst x _ Hx), IH.
Qed.

Lemma until_lf (stop : str -> bool) (Y : str) :
  stops_at_star stop -> until stop (10 :: Y) = 10 :: until stop Y.
Proof. intros Hst. cbn [until]. now rewrite (Hst 10 Y). Qed.

(** A pattern with an asterisk and no line feed does not match at the
    start of an asterisk-free line. *)
Lemma starts_with_no_star (W D Y : str) :
  no_star D = true -> has_star W = true -> no_lf W = true ->
  starts_with W (D ++ 10 :: Y) = false.
Proof.
  unfold has_star, no_lf.
  revert W. induction D as [|d D IH]; intros W HD H42 H10.
  - destruct W as [|a W]; [discriminate|]. cbn [app starts_with].
    cbn [forallb] in H10. apply andb_prop in H10 as [Ha _].
    apply negb_true_iff in Ha. rewrite N.eqb_sym in Ha. now rewrite Ha.
  - apply no_star_cons in HD as [Hd HD].
    destruct W as [|a W]; [discriminate|]. cbn [app starts_with].
    cbn [existsb forallb] in H42, H10. apply andb_prop in H10 as [_ H10].
    destruct (d =? a) eqn:E; [|reflexivity]. apply N.eqb_eq in E. subst a.
    apply N.eqb_neq in Hd. rewrite N.eqb_sym, Hd in H42. cbn [orb] in H42.
    now rewrite IH.
Qed.

Lemma starts_with_residue (m x s : str) :
  starts_with m (x ++ s) =
  match residue m x with
  | None => false
  | Some w => starts_with w s
  end.
Proof.
  revert m. induction x as [|b x IH]; intros m; [reflexivity|].
  destruct m as [|a m]; [reflexivity|]. cbn [app starts_with residue].
  destruct (b =? a); [apply IH|reflexivity].
Qed.

Lemma refuted_sound (m x D Y : str) :
  no_star D = true -> refuted m x = true ->
  starts_with m (x ++ D ++ 10 :: Y) = false.
Proof.
  intros HD H. rewrite starts_with_residue. unfold refuted in H.
  destruct (residue m x) as [w|]; [|reflexivity].
  apply andb_prop in H as [H1 H2]. now apply starts_with_no_star.
Qed.

Lemma after_skip (m p s : str) :
  (forall j, (j < length p)%nat -> starts_with m (drop j p ++ s) = false) ->
  after m (p ++ s) = after m s.
Proof.
  induction p as [|x p IH]; intros H; [reflexivity|].
  pose proof (H O ltac:(simpl; lia)) as E. cbn [drop app] in E.
  cbn [app after]. rewrite E. apply IH.
  intros j Hj. apply (H (S j)). simpl. lia.
Qed.

(** Searching a marker skips a text it cannot match inside, up to the end
    of the asterisk-free line that follows. *)
Lemma after_not_inside (m p D Y : str) :
  no_star D = true -> has_star m = true -> no_lf m = true ->
  not_inside m p = true ->
  after m (p ++ D ++ 10 :: Y) = after m Y.
Proof.
  intros HD H42 H10 Hp. rewrite after_skip.
  - clear Hp. induction D as [|d D IH].
    + pose proof (starts_with_no_star m [] Y HD H42 H10) as E.
      cbn [app] in *. cbn [after]. now rewrite E.
    + pose proof (starts_with_no_star m (d :: D) Y HD H42 H10) as E.
      cbn [app] in *. cbn [after]. rewrite E. apply IH.
      now apply no_star_cons in HD.
  - intros j Hj. apply refuted_sound; [exact HD|].
    unfold not_inside in Hp. rewrite forallb_forall in Hp.
    apply Hp. apply in_seq. lia.
Qed.

Lemma after_no_star (m D Y : str) :
  no_star D = true -> has_star m = true -> no_lf m = true ->
  after m (D ++ 10 :: Y) = after m Y.
Proof. intros HD H42 H10. now apply (after_not_inside m [] D Y). Qed.

Lemma after_found (m Y : str) : after m (m ++ Y) = Some Y.
Proof.
  destruct m as [|a m]; [now destruct Y|].
  cbn [app after]. change (a :: m ++ Y) with ((a :: m) ++ Y).
  now rewrite starts_with_app, drop_length_app.
Qed.

End Template.

(* ===================================================================== *)
(** * The parser on the synthetic input *)
(* ===================================================================== *)

Section RoundTrip.

Lemma bind_Return {A B} (a : A) (f : A -> completion B) : (Return a ≫= f) = f a.
Proof. reflexivity. Qed.

Lemma trim_start_idem (s : str) : trim_start (trim_start s) = trim_start s.
Proof.
  induction s as [|c s IH]; [reflexivity|]. cbn [trim_start].
  destruct (is_space c) eqn:E; [exact IH|]. cbn [trim_start]. now rewrite E.
Qed.

Lemma trim_snoc_lf (X : str) : trim X = X -> trim (X ++ [10]) = X.
Proof.
  intros H. destruct X as [|c X]; [reflexivity|].
  pose proof (trimmed_first c X H) as Hc. unfold trim in *.
  rewrite trim_start_cons in H by exact Hc.
  change ((c :: X) ++ [10]) with (c :: X ++ [10]).
  rewrite trim_start_cons by exact Hc.
  change (c :: X ++ [10]) with ((c :: X) ++ [10]).
  rewrite trim_end_snoc_space by reflexivity. exact H.
Qed.

Lemma until_is_nil (s : str) : until stop_analysis s = s.
Proof. induction s as [|c s IH]; [reflexivity|]. cbn. now rewrite IH. Qed.

Lemma plain_line_last (L : str) :
  plain_line L -> exists L' l, L = L' ++ [l] /\ is_space l = false.
Proof.
  intros (Ht & Hne & _). destruct (exists_last Hne) as (L' & l & ->).
  exists L', l. split; [reflexivity|]. now apply trimmed_last in Ht.
Qed.

Lemma plain_line_first (L : str) :
  plain_line L -> exists l L', L = l :: L' /\ is_space l = false.
Proof.
  intros (Ht & Hne & _). destruct L as [|l L']; [congruence|].
  exists l, L'. split; [reflexivity|]. now apply trimmed_first in Ht.
Qed.

(** Lines joined by line feeds keep their ends under [trim]. *)
Lemma trim_joined (X Y mid : str) :
  plain_line X -> plain_line Y -> trim (X ++ mid ++ Y) = X ++ mid ++ Y.
Proof.
  intros HX HY.
  destruct (plain_line_first X HX) as (x & X' & -> & Hx).
  destruct (plain_line_last Y HY) as (Y' & y & -> & Hy).
  replace ((x :: X') ++ mid ++ Y' ++ [y]) with (x :: (X' ++ mid ++ Y') ++ [y])
    by reassoc.
  now apply trim_kept.
Qed.

Lemma filter_nonblank_plain (L1 L2 : str) :
  plain_line L1 -> plain_line L2 -> filter_nonblank [L1; L2] = [L1; L2].
Proof.
  intros (H1 & N1 & _) (H2 & N2 & _). unfold filter_nonblank. cbn [List.filter].
  rewrite H1, H2. destruct L1; [congruence|]. destruct L2; [congruence|].
  reflexivity.
Qed.

Variables D T L1 L2 A : str.
Hypothesis D_trimmed : trim D = D.
Hypothesis D_no_star : no_star D = true.
Hypothesis T_plain : plain_line T.
Hypothesis L1_plain : plain_line L1.
Hypothesis L2_plain : plain_line L2.
Hypothesis A_trimmed : trim A = A.

Lemma template_description :
  section_text MARK_DESCRIPTION stop_description DEFAULT_DESCRIPTION
    (template D T L1 L2 A) = D.
Proof.
  unfold section_text, template. rewrite after_found.
  set (Z := T ++ 10 :: L1 ++ 10 :: L2 ++ 10 :: MARK_ANALYSIS ++ A).
  assert (S0 : until stop_description (MARK_POETRY ++ Z) = []).
  { unfold MARK_POETRY at 1. cbn [app until].
    change (42 :: 42 :: 35799 :: 27468 :: 65306 :: 42 :: 42 :: Z)
      with (MARK_POETRY ++ Z).
    unfold stop_description. now rewrite starts_with_app. }
  destruct D as [|d D'] eqn:ED.
  - cbn [app trim_start]. change (is_space 10) with true. cbv iota.
    unfold MARK_POETRY at 1. cbn [app trim_start]. change (is_space 42) with false.
    cbv iota.
    change (42 :: 42 :: 35799 :: 27468 :: 65306 :: 42 :: 42 :: Z)
      with (MARK_POETRY ++ Z).
    now rewrite S0.
  - rewrite <- ED in *. assert (Hd : is_space d = false).
    { rewrite ED in D_trimmed. now apply trimmed_first in D_trimmed. }
    assert (E1 : trim_start (D ++ 10 :: MARK_POETRY ++ Z) = D ++ 10 :: MARK_POETRY ++ Z).
    { rewrite ED. cbn [app]. now apply trim_start_cons. }
    rewrite E1, (until_no_star _ _ _ stop_description_star D_no_star).
    rewrite (until_lf _ _ stop_description_star), S0.
    now apply trim_snoc_lf.
Qed.

Lemma template_poetry :
  section_text MARK_POETRY stop_poetry (template D T L1 L2 A)
    (template D T L1 L2 A) = poem_body T L1 L2.
Proof.
  destruct T_plain as (_ & _ & _ & HT). destruct L1_plain as (_ & _ & _ & H1).
  destruct L2_plain as (_ & _ & _ & H2).
  unfold section_text. unfold template at 1.
  rewrite after_not_inside by (assumption || reflexivity).
  rewrite after_found.
  destruct (plain_line_first T T_plain) as (t & T' & ET & Ht).
  assert (E1 : forall Z, trim_start (T ++ Z) = T ++ Z).
  { intros Z. rewrite ET. cbn [app]. now apply trim_start_cons. }
  rewrite E1, (until_no_star _ _ _ stop_poetry_star HT).
  rewrite (until_lf _ _ stop_poetry_star).
  rewrite (until_no_star _ _ _ stop_poetry_star H1).
  rewrite (until_lf _ _ stop_poetry_star).
  rewrite (until_no_star _ _ _ stop_poetry_star H2).
  rewrite (until_lf _ _ stop_poetry_star).
  assert (S0 : until stop_poetry (MARK_ANALYSIS ++ A) = []).
  { unfold MARK_ANALYSIS at 1. cbn [app until].
    change (42 :: 42 :: 20998 :: 26512 :: 65306 :: 42 :: 42 :: A)
      with (MARK_ANALYSIS ++ A).
    unfold stop_poetry. now rewrite starts_with_app. }
  rewrite S0.
  replace (T ++ 10 :: L1 ++ 10 :: L2 ++ [10]) with (poem_body T L1 L2 ++ [10])
    by (unfold poem_body; reassoc).
  apply trim_snoc_lf. unfold poem_body.
  replace (T ++ 10 :: L1 ++ 10 :: L2) with (T ++ (10 :: L1 ++ [10]) ++ L2)
    by reassoc.
  now apply trim_joined.
Qed.

Lemma template_analysis :
  section_text MARK_ANALYSIS stop_analysis DEFAULT_ANALYSIS
    (template D T L1 L2 A) = A.
Proof.
  destruct T_plain as (_ & _ & _ & HT). destruct L1_plain as (_ & _ & _ & H1).
  destruct L2_plain as (_ & _ & _ & H2).
  unfold section_text, template.
  rewrite after_not_inside by (assumption || reflexivity).
  rewrite after_not_inside by (assumption || reflexivity).
  rewrite (after_no_star MARK_ANALYSIS L1) by (assumption || reflexivity).
  rewrite (after_no_star MARK_ANALYSIS L2) by (assumption || reflexivity).
  rewrite after_found, until_is_nil.
  unfold trim in *. now rewrite trim_start_idem.
Qed.

Lemma body_title :
  exec RE_TITLE (poem_body T L1 L2)
  = Some {| m_index := 0;
            m_end := {| pos := S (length T); rest := L1 ++ 10 :: L2;
                        cap := Some T |} |}.
Proof. destruct T_plain as (_ & HT & HS & _). now apply title_exec. Qed.

Lemma body_lines :
  trim (replace_empty RE_TITLE_LINE (poem_body T L1 L2)) = L1 ++ 10 :: L2.
Proof.
  destruct T_plain as (_ & HT & HS & _). unfold poem_body.
  rewrite title_line_replace by assumption.
  replace (L1 ++ 10 :: L2) with (L1 ++ [10] ++ L2) by reassoc.
  now apply trim_joined.
Qed.

Lemma lines_split : filter_nonblank (split 10 (L1 ++ 10 :: L2)) = [L1; L2].
Proof.
  destruct L1_plain as (_ & _ & S1 & _). destruct L2_plain as (_ & _ & S2 & _).
  rewrite split_app by now apply single_line_no_lf.
  rewrite split_no_sep by now apply single_line_no_lf.
  now apply filter_nonblank_plain.
Qed.

Hypothesis T_long : (2 <= length T)%nat.

Lemma template_parse_try :
  parse_try (template D T L1 L2 A)
  = Return {| poetry := [L1; L2]; imageDescription := D; analysis := A;
              title := Some T |}.
Proof.
  unfold parse_try.
  rewrite description_text, bind_Return, poetry_text, bind_Return.
  rewrite template_description, template_poetry, body_title.
  unfold group1_trim. cbn [m_end cap]. rewrite !bind_Return.
  destruct T_plain as (HT & HN & _). rewrite HT.
  assert (Ht : truthy_opt (Some T) = true) by (destruct T; [congruence|reflexivity]).
  assert (Hs : title_missing_or_short (Some T) = false).
  { unfold title_missing_or_short. rewrite Ht. cbn [negb orb].
    apply Nat.ltb_ge. exact T_long. }
  rewrite Ht, Hs. cbn [andb].
  rewrite analysis_text, bind_Return, template_analysis, body_lines, lines_split.
  reflexivity.
Qed.

End RoundTrip.

(* ===================================================================== *)
(** * parsePoetryResult: totality, round trip, title promotion *)
(* ===================================================================== *)

Lemma filter_nonblank_lines (ls : list str) :
  Forall (fun line => trim line <> []) (filter_nonblank ls).
Proof.
  apply List.Forall_forall. intros line H. unfold filter_nonblank in H.
  apply filter_In in H as [_ H]. intros E. now rewrite E in H.
Qed.

(** The only error the [try] block raises is the read of [analysis]
    before its declaration; otherwise it returns the lines it filtered. *)
Lemma parse_try_cases (s : str) :
  (exists e, parse_try s = Throw e) \/
  (exists r, parse_try s = Return r /\ Forall (fun line => trim line <> []) (poetry r)).
Proof.
  unfold parse_try.
  rewrite description_text, bind_Return, poetry_text, bind_Return.
  destruct (exec RE_TITLE _) as [m|].
  - destruct (group1_trim m) as [c|e]; [|left; now exists e].
    rewrite !bind_Return.
    match goal with |- context [if ?b then _ else _] => destruct b end;
      [left; eauto|].
    rewrite analysis_text, bind_Return. right. eexists. split; [reflexivity|].
    apply filter_nonblank_lines.
  - rewrite bind_Return.
    match goal with |- context [if ?b then _ else _] => destruct b end;
      [left; eauto|].
    rewrite analysis_text, bind_Return. right. eexists. split; [reflexivity|].
    apply filter_nonblank_lines.
Qed.

(** C3, as stated, fails: on the empty string the parser returns, but the
    title it returns is [null]. *)
Lemma parse_title_may_be_null :
  ~ (forall s : str, exists r, parsePoetryResult s = Return r /\ title r <> None).
Proof.
  intros H. destruct (H []) as (r & Hr & Ht). vm_compute in Hr.
  injection Hr as <-. now apply Ht.
Qed.

(** C3 (amended): [parsePoetryResult] is total. For every input string it
    returns a result and raises nothing: either what the [try] block
    returned, or, when that block raised, the canned result of the [catch]
    block. The description, the analysis and the poem lines are always
    present, the lines being the non-blank ones only; the title is a
    string or [null], and it is [null] whenever the [catch] block ran. *)
Theorem parse_total (s : str) :
  exists r,
    parsePoetryResult s = Return r
    /\ Forall (fun line => trim line <> []) (poetry r)
    /\ (forall e, parse_try s = Throw e ->
        r = {| poetry := filter_nonblank (split 10 s);
               imageDescription := DEFAULT_DESCRIPTION;
               analysis := DEFAULT_ANALYSIS;
               title := None |})
    /\ (forall r', parse_try s = Return r' -> r = r').
Proof.
  unfold parsePoetryResult, try_catch.
  destruct (parse_try_cases s) as [[e He]|(r & Hr & Hl)].
  - rewrite He. eexists. split; [reflexivity|]. split; [apply filter_nonblank_lines|].
    split; [reflexivity|discriminate].
  - rewrite Hr. exists r. split; [reflexivity|]. split; [exact Hl|].
    split; [discriminate|]. now intros r' [= ->].
Qed.

(** C4, as stated, fails: with the one-unit title 春 and a first line of
    seven units, the parse degrades to the canned description. *)
Lemma round_trip_fails_on_short_title :
  ~ (forall D T L1 L2 A : str, T <> [] ->
       parsePoetryResult (template D T L1 L2 A)
       = Return {| poetry := [L1; L2]; imageDescription := D; analysis := A;
                   title := Some T |}).
Proof.
  intros H.
  specialize (H (lit "一座山") (lit "春") (lit "山水如画意境深")
                (lit "清风徐来花满林") (lit "色彩丰富")).
  vm_compute in H. specialize (H ltac:(discriminate)). discriminate.
Qed.

(** The other conditions of the round trip are needed too: a leading
    space of the description is trimmed away, and a marker inside the
    description ends it. *)
Lemma round_trip_needs_plain_fields :
  (imageDescription <$>
     match parsePoetryResult (template (lit " 一座山") (lit "春日即景")
             (lit "山水如画意境深") (lit "清风徐来花满林") (lit "色彩丰富")) with
     | Return r => Some r
     | Throw _ => None
     end) = Some (lit "一座山")
  /\ (imageDescription <$>
        match parsePoetryResult (template (lit "一座**分析：**山") (lit "春日即景")
                (lit "山水如画意境深") (lit "清风徐来花满林") (lit "色彩丰富")) with
        | Return r => Some r
        | Throw _ => None
        end) = Some (lit "一座").
Proof. vm_compute. split; reflexivity. Qed.

(** C4 (amended): the round trip holds for fields that come back
    unchanged. For [D], [T], [L1], [L2], [A] without leading or trailing
    white space, [D], [T], [L1], [L2] without asterisk, [T], [L1], [L2]
    non-empty and on one line, and [T] at least two code units long,
    parsing [**图片描述：**D\n**诗歌：**T\nL1\nL2\n**分析：**A] recovers the
    description [D], the title [T], the lines [L1; L2] and the analysis
    [A]. *)
Theorem parse_round_trip (D T L1 L2 A : str) :
  trim D = D -> no_star D = true ->
  plain_line T -> (2 <= length T)%nat ->
  plain_line L1 -> plain_line L2 ->
  trim A = A ->
  parsePoetryResult (template D T L1 L2 A)
  = Return {| poetry := [L1; L2]; imageDescription := D; analysis := A;
              title := Some T |}.
Proof.
  intros HD HD' HT HT' H1 H2 HA. unfold parsePoetryResult.
  now rewrite (template_parse_try D T L1 L2 A HD HD' HT H1 H2 HA HT').
Qed.

Lemma parse_round_trip_witness :
  parsePoetryResult
    (template (lit "一座山") (lit "春日即景") (lit "山水如画意境深")
       (lit "清风徐来花满林") (lit "色彩丰富"))
  = Return {| poetry := [lit "山水如画意境深"; lit "清风徐来花满林"];
              imageDescription := lit "一座山"; analysis := lit "色彩丰富";
              title := Some (lit "春日即景") |}.
Proof.
  apply parse_round_trip;
    try reflexivity;
    try (repeat split; (reflexivity || discriminate));
    vm_compute; lia.
Defined.

(** C5: the promotion of the first body line to the title is never
    carried out. With one poem line of seven units and no title line, the
    [try] block reaches the promotion branch, which reads [analysis]
    before its declaration and raises; the [catch] block then returns the
    whole input as lines, the canned description and analysis, and a
    [null] title. *)
Theorem title_promotion_raises :
  let input := lit "**图片描述：**一座山
**诗歌：**山水如画意境深
**分析：**色彩丰富" in
  parse_try input = Throw analysis_before_initialization
  /\ parsePoetryResult input
     = Return {| poetry := [lit "**图片描述：**一座山";
                            lit "**诗歌：**山水如画意境深";
                            lit "**分析：**色彩丰富"];
                 imageDescription := DEFAULT_DESCRIPTION;
                 analysis := DEFAULT_ANALYSIS;
                 title := None |}.
Proof. vm_compute. split; reflexivity. Qed.

(** A title that is returned was matched by the title pattern: none comes
    from the promotion branch, which never returns. *)
Lemma promoted_title_never_returned (s : str) (r : parsed) :
  parsePoetryResult s = Return r ->
  title r = None \/ exists m, exec RE_TITLE
                       (section_text MARK_POETRY stop_poetry s s) = Some m.
Proof.
  unfold parsePoetryResult, try_catch, parse_try.
  rewrite description_text, bind_Return, poetry_text, bind_Return.
  destruct (exec RE_TITLE _) as [m|]; [right; eauto|].
  rewrite bind_Return.
  match goal with |- context [if ?b then _ else _] => destruct b end.
  - intros [= <-]. now left.
  - rewrite analysis_text, bind_Return. intros [= <-]. now left.
Qed.

(* ===================================================================== *)
(** * The storage paths *)
(* ===================================================================== *)

Section Storage.

Variable w : world.

(** Both [catch] blocks of the storage paths only throw. *)
Lemma uploadImage_catch_throws (o : oss_state) (e : exn) :
  exists e', uploadImage_catch o e = (Throw e', o).
Proof.
  unfold uploadImage_catch, retry_put.
  destruct (has_code e "SignatureDoesNotMatch");
    repeat (match goal with |- context [if ?b then _ else _] => destruct b end;
            eauto).
Qed.

Lemma multipart_catch_throws (o : oss_state) (e : exn) :
  exists e', multipart_catch o e = (Throw e', o).
Proof.
  unfold multipart_catch.
  repeat (match goal with |- context [if ?b then _ else _] => destruct b end; eauto).
Qed.

(** The chunked path does not survive a failed re-encoding. *)
Lemma multipart_needs_sharp (o : oss_state) (b : bytes) (name folder : str) :
  sharp w b = None ->
  multipartUploadImage w o b name folder
  = (Throw (new_Error (lit "图片上传失败，请稍后重试")), o).
Proof. intros H. unfold multipartUploadImage. now rewrite H. Qed.

(** The single-shot path does: the original bytes are stored. *)
Lemma uploadImage_keeps_original (o : oss_state) (b : bytes) (name folder : str) :
  sharp w b = None ->
  put_error w (object_key w folder) b = None ->
  exists d o',
    uploadImage w o b name folder = (Return d, o')
    /\ obj_body <$> bucket o' !! filename d = Some b.
Proof.
  intros Hs Hp. unfold uploadImage, client_put. rewrite Hs, Hp.
  eexists _, _. split; [reflexivity|]. cbn [bucket filename].
  now rewrite lookup_insert_eq.
Qed.

(** What a successful single-shot upload returns and stores. *)
Lemma uploadImage_returns (o o' : oss_state) (b : bytes) (name folder : str)
  (d : upload_data) :
  uploadImage w o b name folder = (Return d, o') ->
  let stored := default b (sharp w b) in
  filename d = object_key w folder
  /\ mimetype d = IMAGE_JPEG
  /\ size d = N.of_nat (length stored)
  /\ uploadMethod d = None
  /\ calls o' = calls o ++ [CallPut (object_key w folder)]
  /\ bucket o' !! object_key w folder
     = Some {| obj_body := stored; obj_headers := put_headers;
               obj_meta := put_meta w name |}.
Proof.
  unfold uploadImage, client_put.
  assert (S : match sharp w b with Some b0 => b0 | None => b end = default b (sharp w b))
    by now destruct (sharp w b).
  rewrite S. set (stored := default b (sharp w b)).
  destruct (put_error w (object_key w folder) stored) as [e|].
  - destruct (uploadImage_catch_throws
                {| bucket := bucket o; calls := calls o ++ [CallPut (object_key w folder)] |} e)
      as [e' ->]. discriminate.
  - intros [= <- <-]. cbn [filename mimetype size uploadMethod calls bucket].
    repeat split. apply lookup_insert_eq.
Qed.

(** What a successful chunked upload returns and stores. *)
Lemma multipart_returns (o o' : oss_state) (b : bytes) (name folder : str)
  (d : upload_data) :
  multipartUploadImage w o b name folder = (Return d, o') ->
  exists stored,
    sharp w b = Some stored
    /\ filename d = object_key w folder
    /\ mimetype d = IMAGE_JPEG
    /\ size d = N.of_nat (length stored)
    /\ uploadMethod d = Some MULTIPART
    /\ calls o' = calls o ++ [CallMultipartUpload (object_key w folder)]
    /\ bucket o' !! object_key w folder
       = Some {| obj_body := stored; obj_headers := multipart_headers;
                 obj_meta := multipart_meta w name |}.
Proof.
  unfold multipartUploadImage, client_multipartUpload.
  destruct (sharp w b) as [stored|].
  2: { destruct (multipart_catch_throws o sharp_error) as [e' ->]. discriminate. }
  destruct (writeFile_error w) as [e|].
  { destruct (multipart_catch_throws o e) as [e' ->]. discriminate. }
  destruct (multipart_error w (object_key w folder) stored) as [e|].
  - destruct (multipart_catch_throws
                {| bucket := bucket o;
                   calls := calls o ++ [CallMultipartUpload (object_key w folder)] |} e)
      as [e' ->]. discriminate.
  - intros [= <- <-]. exists stored.
    cbn [filename mimetype size uploadMethod calls bucket].
    repeat split. apply lookup_insert_eq.
Qed.

(** The calls each path makes to the storage client. *)
Lemma uploadImage_calls (o : oss_state) (b : bytes) (name folder : str) :
  calls (snd (uploadImage w o b name folder))
  = calls o ++ [CallPut (object_key w folder)].
Proof.
  unfold uploadImage, client_put.
  destruct (put_error w _ _) as [e|]; [|reflexivity].
  match goal with |- context [uploadImage_catch ?o' e] =>
    destruct (uploadImage_catch_throws o' e) as [e' ->] end.
  reflexivity.
Qed.

Lemma multipart_calls (o : oss_state) (b : bytes) (name folder : str) :
  calls (snd (multipartUploadImage w o b name folder)) = calls o
  \/ calls (snd (multipartUploadImage w o b name folder))
     = calls o ++ [CallMultipartUpload (object_key w folder)].
Proof.
  unfold multipartUploadImage, client_multipartUpload.
  destruct (sharp w b) as [stored|].
  2: { destruct (multipart_catch_throws o sharp_error) as [e' ->]. now left. }
  destruct (writeFile_error w) as [e|].
  { destruct (multipart_catch_throws o e) as [e' ->]. now left. }
  destruct (multipart_error w _ _) as [e|]; [|now right].
  match goal with |- context [multipart_catch ?o' e] =>
    destruct (multipart_catch_throws o' e) as [e' ->] end.
  now right.
Qed.

End Storage.

(* ===================================================================== *)
(** * The ingestion router *)
(* ===================================================================== *)

(** C2: both routers choose the path by the file size against the
    threshold of 5 MiB (5242880 bytes). A size above the threshold takes
    the chunked path: the storage state is the one [multipartUploadImage]
    leaves, the client sees no [put], and a successful result is marked
    [multipart]. A size at or below the threshold (so 5242880 and 5242879
    too) takes the single-shot path: the state is the one [uploadImage]
    leaves and the client sees exactly one [put]. *)
Theorem upload_path_by_size (w : world) (o : oss_state) (req : generate_request)
  (f : file) :
  let chunked := multipartUploadImage w o (buffer f) (originalname f) FOLDER_POETRY in
  let single := uploadImage w o (buffer f) (originalname f) FOLDER_POETRY in
  let key := object_key w FOLDER_POETRY in
  threshold = 5242880
  /\ (threshold < file_size f ->
      snd (Images.upload w o (Some f)) = snd chunked
      /\ snd (upload_step w o (with_file req f)) = snd chunked
      /\ fst (upload_step w o (with_file req f))
         = match fst chunked with Return d => Some (url d) | Throw _ => None end
      /\ (CallPut key ∉ drop (length (calls o)) (calls (snd chunked)))
      /\ (forall d, fst chunked = Return d -> uploadMethod d = Some MULTIPART))
  /\ (file_size f <= threshold ->
      snd (Images.upload w o (Some f)) = snd single
      /\ snd (upload_step w o (with_file req f)) = snd single
      /\ fst (upload_step w o (with_file req f))
         = match fst single with Return d => Some (url d) | Throw _ => None end
      /\ calls (snd single) = calls o ++ [CallPut key]
      /\ (forall d, fst single = Return d -> uploadMethod d = None)).
Proof.
  cbv zeta. split; [reflexivity|]. split; intros Hsize.
  - apply N.ltb_lt in Hsize.
    unfold Images.upload, upload_step, with_file. cbn [req_file]. rewrite Hsize.
    destruct (multipartUploadImage w o (buffer f) (originalname f) FOLDER_POETRY)
      as [[d|e] o'] eqn:E; cbn [fst snd].
    + repeat split; try reflexivity.
      * apply multipart_returns in E.
        destruct E as (stored & _ & _ & _ & _ & _ & Hc & _).
        rewrite Hc, drop_app_length. rewrite list_elem_of_singleton. discriminate.
      * intros d' [= <-]. apply multipart_returns in E.
        now destruct E as (stored & _ & _ & _ & _ & Hm & _).
    + repeat split; try reflexivity; [|discriminate].
      pose proof (multipart_calls w o (buffer f) (originalname f) FOLDER_POETRY) as Hc.
      rewrite E in Hc. cbn [snd] in Hc. destruct Hc as [-> | ->].
      * rewrite drop_all. apply not_elem_of_nil.
      * rewrite drop_app_length, list_elem_of_singleton. discriminate.
  - apply N.ltb_ge in Hsize.
    unfold Images.upload, upload_step, with_file. cbn [req_file]. rewrite Hsize.
    pose proof (uploadImage_calls w o (buffer f) (originalname f) FOLDER_POETRY) as Hc.
    destruct (uploadImage w o (buffer f) (originalname f) FOLDER_POETRY)
      as [[d|e] o'] eqn:E; cbn [fst snd] in *.
    + repeat split; try reflexivity; try assumption.
      intros d' [= <-]. now apply uploadImage_returns in E.
    + repeat split; try reflexivity; try assumption. discriminate.
Qed.

Lemma upload_path_by_size_witness :
  snd (Images.upload (sample_world re_encodes good_reply None) empty_oss
         (Some (sized_file 5242881)))
  = snd (multipartUploadImage (sample_world re_encodes good_reply None) empty_oss
           (buffer (sized_file 5242881)) (originalname (sized_file 5242881))
           FOLDER_POETRY)
  /\ snd (Images.upload (sample_world re_encodes good_reply None) empty_oss
            (Some (sized_file 5242880)))
     = snd (uploadImage (sample_world re_encodes good_reply None) empty_oss
              (buffer (sized_file 5242880)) (originalname (sized_file 5242880))
              FOLDER_POETRY)
  /\ snd (Images.upload (sample_world re_encodes good_reply None) empty_oss
            (Some (sized_file 5242879)))
     = snd (uploadImage (sample_world re_encodes good_reply None) empty_oss
              (buffer (sized_file 5242879)) (originalname (sized_file 5242879))
              FOLDER_POETRY).
Proof.
  destruct (upload_path_by_size (sample_world re_encodes good_reply None) empty_oss
              (url_request None) (sized_file 5242881)) as (_ & Above & _).
  destruct (upload_path_by_size (sample_world re_encodes good_reply None) empty_oss
              (url_request None) (sized_file 5242880)) as (_ & _ & At).
  destruct (upload_path_by_size (sample_world re_encodes good_reply None) empty_oss
              (url_request None) (sized_file 5242879)) as (_ & _ & Below).
  split; [exact (proj1 (Above eq_refl))|].
  split.
  - refine (proj1 (At _)). discriminate.
  - refine (proj1 (Below _)). discriminate.
Defined.

(** The sample uploads are as multer hands them over: [size] is the length
    of [buffer]. *)
Lemma sized_file_size (n : N) :
  file_size (sized_file n) = N.of_nat (length (buffer (sized_file n))).
Proof.
  unfold sized_file, zero_bytes. cbn [file_size buffer].
  now rewrite repeat_length, N2Nat.id.
Qed.

(** C7: on the chunked path a failed re-encoding is not caught. With
    bytes that are no image, [multipartUploadImage] throws and stores
    nothing, so the multipart route answers 500, and so does the upload
    route for a file of 5242881 bytes; [uploadImage], given the same four
    bytes, stores them unmodified and succeeds. *)
Theorem chunked_path_fails_on_undecodable_bytes :
  let w := sample_world rejects good_reply None in
  let f := {| buffer := not_an_image; originalname := lit "holiday.png";
              file_size := 4; file_mimetype := lit "image/png" |} in
  let failed :=
    {| code := 500; payload := BError (lit "图片上传失败，请稍后重试") None |} in
  multipartUploadImage w empty_oss not_an_image (lit "holiday.png") FOLDER_POETRY
  = (Throw (new_Error (lit "图片上传失败，请稍后重试")), empty_oss)
  /\ Images.upload_multipart w empty_oss (Some f) = (failed, empty_oss)
  /\ Images.upload w empty_oss (Some (sized_file 5242881)) = (failed, empty_oss)
  /\ exists d o',
       uploadImage w empty_oss not_an_image (lit "holiday.png") FOLDER_POETRY
       = (Return d, o')
       /\ obj_body <$> bucket o' !! filename d = Some not_an_image.
Proof.
  cbv zeta. split; [reflexivity|]. split; [reflexivity|]. split; [reflexivity|].
  now apply uploadImage_keeps_original.
Qed.

(** C10: what either path returns for a stored image. The object key is
    [folder/<Date.now()>_<uuid>.jpg], built from the clock and the uuid
    source alone, so it ends in [.jpg] and is the same whatever the
    caller's file name; the reported type is [image/jpeg]; the reported
    size is the length of the bytes stored under the key. On the
    single-shot path those bytes are the original ones when the
    re-encoding failed. *)
Theorem stored_image_record (w : world) (o o' : oss_state) (b : bytes)
  (name folder : str) (d : upload_data) :
  (uploadImage w o b name folder = (Return d, o')
   \/ multipartUploadImage w o b name folder = (Return d, o')) ->
  filename d
  = folder ++ SLASH ++ to_decimal (key_now w) ++ UNDERSCORE ++ key_uuid w ++ EXT_JPG
  /\ EXT_JPG `suffix_of` filename d
  /\ mimetype d = IMAGE_JPEG
  /\ (exists obj,
        bucket o' !! filename d = Some obj
        /\ size d = N.of_nat (length (obj_body obj))
        /\ (sharp w b = None -> obj_body obj = b))
  /\ (forall name' o0 o0' d',
        (uploadImage w o0 b name' folder = (Return d', o0')
         \/ multipartUploadImage w o0 b name' folder = (Return d', o0')) ->
        filename d' = filename d).
Proof.
  assert (K : forall o o' name d,
             (uploadImage w o b name folder = (Return d, o')
              \/ multipartUploadImage w o b name folder = (Return d, o')) ->
             filename d = object_key w folder).
  { intros o1 o1' n1 d1 [H|H].
    - now apply uploadImage_returns in H.
    - apply multipart_returns in H. now destruct H as (stored & _ & Hf & _). }
  intros H. pose proof (K _ _ _ _ H) as Hk.
  split; [exact Hk|]. split.
  { rewrite Hk. unfold object_key.
    exists (folder ++ SLASH ++ to_decimal (key_now w) ++ UNDERSCORE ++ key_uuid w).
    now rewrite <- !app_assoc. }
  split.
  { destruct H as [H|H].
    - now apply uploadImage_returns in H.
    - apply multipart_returns in H. now destruct H as (stored & _ & _ & Hm & _). }
  split.
  - destruct H as [H|H].
    + apply uploadImage_returns in H as (_ & _ & Hs & _ & _ & Hb).
      rewrite Hk, Hb. eexists. split; [reflexivity|]. cbn [obj_body].
      split; [exact Hs|]. now intros ->.
    + apply multipart_returns in H as (stored & Hsh & _ & _ & Hs & _ & _ & Hb).
      rewrite Hk, Hb. eexists. split; [reflexivity|]. cbn [obj_body].
      split; [exact Hs|]. rewrite Hsh. discriminate.
  - intros name' o0 o0' d' H'. rewrite Hk. exact (K _ _ _ _ H').
Qed.

Lemma stored_image_record_witness :
  exists d o',
    uploadImage (sample_world rejects good_reply None) empty_oss not_an_image
      (lit "holiday.png") FOLDER_POETRY = (Return d, o')
    /\ EXT_JPG `suffix_of` filename d
    /\ mimetype d = IMAGE_JPEG
    /\ size d = 4.
Proof.
  destruct (uploadImage (sample_world rejects good_reply None) empty_oss not_an_image
              (lit "holiday.png") FOLDER_POETRY) as [[d|e] o'] eqn:E;
    [|vm_compute in E; discriminate].
  exists d, o'. split; [reflexivity|].
  destruct (stored_image_record _ _ _ _ _ _ _ (or_introl E))
    as (_ & Hsuf & Hm & (obj & Hb & Hs & Ho) & _).
  split; [exact Hsuf|]. split; [exact Hm|].
  rewrite Hs, (Ho eq_refl). reflexivity.
Defined.

(* ===================================================================== *)
(** * The generation flow *)
(* ===================================================================== *)

Section Generation.

Variable w : world.

Lemma bind_Throw {A B} (e : exn) (f : A -> completion B) : (Throw e ≫= f) = Throw e.
Proof. reflexivity. Qed.

(** A failing endpoint makes the model call throw. *)
Lemma generate_fails (input : image_input) (style : str) :
  inference_fails w -> exists e, generatePoetryFromImage w input style = Throw e.
Proof.
  intros H. unfold generatePoetryFromImage. cbv zeta.
  match goal with |- context [https w ?r ?p] =>
    specialize (H r p); destruct (https w r p) as [r0|e] end.
  - rewrite bind_Return. destruct (status r0 =? 200) eqn:S; cbn [negb].
    + destruct H as [H|H]; [apply N.eqb_eq in S; contradiction|].
      rewrite H, bind_Throw. cbn [try_catch]. eauto.
    + cbn [try_catch]. eauto.
  - rewrite bind_Throw. cbn [try_catch]. eauto.
Qed.

Lemma inference_call_fails (req : generate_request) (f : option str) (style : str) :
  inference_fails w -> exists e, inference_call w req f style = Throw e.
Proof.
  intros H. unfold inference_call.
  destruct (truthy_opt f); [now apply generate_fails|].
  destruct (req_file req); [now apply generate_fails|].
  destruct (truthy_opt (req_imageBuffer req)); [now apply generate_fails|eauto].
Qed.

(** The canned entry: the requested style's when it is one of the four,
    the one of 现代 otherwise, unless the name is inherited. *)
Lemma mockData_entry (style : str) :
  style ∉ object_prototype_keys ->
  exists e,
    mockData style = Some e
    /\ own_lookup mockPoetries (if bool_decide (style ∈ styles) then style else XIANDAI)
       = Some e.
Proof.
  intros Hp. unfold mockData, get.
  destruct (own_lookup mockPoetries style) as [e|] eqn:E.
  - exists e. split; [reflexivity|].
    assert (Hin : style ∈ styles).
    { revert E. unfold mockPoetries, styles. cbn [own_lookup].
      repeat (case_bool_decide; [subst; intros _; set_solver|]). discriminate. }
    now rewrite (bool_decide_eq_true_2 _ Hin).
  - rewrite (bool_decide_eq_false_2 _ Hp).
    assert (Hout : style ∉ styles).
    { revert E. unfold mockPoetries, styles. cbn [own_lookup].
      repeat (case_bool_decide; [discriminate|]). intros _.
      rewrite !not_elem_of_cons. repeat split; try congruence.
      apply not_elem_of_nil. }
    rewrite (bool_decide_eq_false_2 _ Hout).
    destruct (own_lookup mockPoetries XIANDAI) as [e|] eqn:E'; [eauto|].
    vm_compute in E'. discriminate.
Qed.

(** [Poetry.create] throws and leaves the table alone, or inserts the
    record under the next key. *)
Lemma create_cases (d : database) (data : poetry_data) :
  (exists e, create w d data = (Throw e, d))
  \/ (exists t r,
        d = Some t /\ rows t !! next_id t = None
        /\ create w d data
           = (Return r, Some {| rows := <[ next_id t := r ]> (rows t);
                                next_id := next_id t + 1 |})
        /\ id r = next_id t
        /\ r_poetry r = d_poetry data
        /\ r_generation r = d_generation data).
Proof.
  unfold create. destruct d as [t|]; cbn [getSupabase]; [|left; eauto].
  destruct (insert_error w); [left; eauto|].
  destruct (rows t !! next_id t) eqn:E; [left; eauto|].
  right. eexists t, _. repeat split; try reflexivity; exact E.
Qed.

(** C1, as stated, fails: for the unrecognized style 自由诗 the canned poem
    is the one of 现代, not the one of 古风. *)
Lemma unknown_style_gets_modern_poem :
  let w0 := sample_world re_encodes (Throw timeout_error) None in
  exists d,
    fst (generatePoetry w0 (sample_state None) (url_request (Some (lit "自由诗"))))
    = {| code := 201; payload := BGenerate d |}
    /\ Some (g_content d) = getMockPoetry XIANDAI
    /\ Some (g_content d) <> getMockPoetry GUFENG.
Proof. cbv zeta. eexists. vm_compute. repeat split. discriminate. Qed.

(** C1 (amended): when the model call fails, the generation request still
    gets 201 with a canned poem, whether or not the record is saved. The
    poem is the table entry of the requested style when that is one of the
    four, the entry of 古风 when no style is given, and the entry of 现代
    for any other style string that is not a property name every object
    inherits. *)
Theorem canned_poem_on_inference_failure (st : state) (req : generate_request) :
  has_image req = true ->
  inference_fails w ->
  default GUFENG (req_style req) ∉ object_prototype_keys ->
  exists d e,
    fst (generatePoetry w st req) = {| code := 201; payload := BGenerate d |}
    /\ own_lookup mockPoetries
         (if bool_decide (default GUFENG (req_style req) ∈ styles)
          then default GUFENG (req_style req) else XIANDAI) = Some e
    /\ g_content d = mock_content e
    /\ g_title d = Some (mock_title e)
    /\ g_style d = default GUFENG (req_style req)
    /\ g_description d = MOCK_DESCRIPTION.
Proof.
  intros Hi Hf Hp. unfold generatePoetry. rewrite Hi. cbn [negb]. cbv zeta.
  destruct (upload_step w (oss st) req) as [final o'].
  unfold inference_step.
  destruct (inference_call_fails req final (default GUFENG (req_style req)) Hf)
    as [e0 He]. rewrite He.
  destruct (mockData_entry _ Hp) as (e & Hm & Hl).
  unfold persist_step, poetryData, unsaved_response, mock_result.
  cbn [res_poetry res_title res_imageDescription]. rewrite Hm.
  cbn [fmap option_fmap option_map].
  match goal with |- context [create w (db st) ?data] =>
    destruct (create_cases (db st) data) as [[err Hc]|(t & r & _ & _ & Hc & _ & Hpo & _)]
  end; rewrite Hc; cbn [fst].
  - eexists _, e. split; [reflexivity|]. now repeat split.
  - eexists _, e. split; [reflexivity|]. unfold created_response.
    cbn [payload g_content g_title g_style g_description]. rewrite Hpo.
    now repeat split.
Qed.

(** C6: when [Poetry.create] throws on the assembled record, the request
    still gets 201 with the generated poem, the placeholder id
    [temp_<Date.now()>] and the note that the data was not saved. *)
Theorem unsaved_poem_is_returned (st : state) (req : generate_request)
  (data : poetry_data) (e : exn) (d' : database) :
  has_image req = true ->
  assembled w st req = Return data ->
  create w (db st) data = (Throw e, d') ->
  exists g,
    fst (generatePoetry w st req) = {| code := 201; payload := BGenerate g |}
    /\ g_id g = TempId (now_temp w)
    /\ g_note g = Some NOTE
    /\ g_content g = p_content (d_poetry data)
    /\ g_title g = p_title (d_poetry data)
    /\ g_style g = p_style (d_poetry data)
    /\ g_length g = p_length (d_poetry data).
Proof.
  intros Hi Ha Hc. unfold generatePoetry, assembled in *. rewrite Hi.
  cbn [negb]. cbv zeta in *.
  destruct (upload_step w (oss st) req) as [final o']. cbn [fst] in Ha.
  unfold persist_step. rewrite Ha, Hc. unfold unsaved_response.
  unfold poetryData in Ha.
  destruct (res_poetry (inference_step w req final (default GUFENG (req_style req))))
    as [lines|]; [|discriminate].
  injection Ha as <-. cbn [fst]. eexists. split; [reflexivity|].
  now repeat split.
Qed.

End Generation.

Lemma canned_poem_on_inference_failure_witness :
  exists d,
    fst (generatePoetry (sample_world re_encodes (Throw timeout_error) None)
           (sample_state (Some (one_row None 0))) (url_request (Some LANGMAN)))
    = {| code := 201; payload := BGenerate d |}
    /\ g_title d = Some (lit "岁月静好").
Proof.
  destruct (canned_poem_on_inference_failure
              (sample_world re_encodes (Throw timeout_error) None)
              (sample_state (Some (one_row None 0))) (url_request (Some LANGMAN)))
    as (d & e & Hd & He & _ & Ht & _).
  - reflexivity.
  - intros ref prompt. exact I.
  - apply (bool_decide_eq_false_1 _). vm_compute. reflexivity.
  - exists d. split; [exact Hd|]. rewrite Ht. vm_compute in He.
    injection He as <-. reflexivity.
Defined.


Lemma unsaved_poem_is_returned_witness :
  exists g,
    fst (generatePoetry (sample_world re_encodes good_reply None)
           (sample_state None) (url_request None))
    = {| code := 201; payload := BGenerate g |}
    /\ g_id g = TempId 1700000000752
    /\ g_note g = Some NOTE
    /\ g_content g = [lit "山水如画意境深"; lit "清风徐来花满林"].
Proof.
  destruct (assembled (sample_world re_encodes good_reply None) (sample_state None)
              (url_request None)) as [data|e] eqn:Ea;
    [|vm_compute in Ea; discriminate].
  destruct (unsaved_poem_is_returned (sample_world re_encodes good_reply None)
              (sample_state None) (url_request None) data
              (new_Error (lit "数据库未初始化")) None)
    as (g & Hg & Hid & Hn & Hc & _).
  - reflexivity.
  - exact Ea.
  - reflexivity.
  - exists g. split; [exact Hg|]. split; [exact Hid|]. split; [exact Hn|].
    rewrite Hc. vm_compute in Ea. injection Ea as <-. reflexivity.
Defined.

(* ===================================================================== *)
(** * Records: delete and share *)
(* ===================================================================== *)

Section Records.

Variable w : world.

Lemma findById_found (t : table) (i : N) (r : row) :
  rows t !! i = Some r -> findById (Some t) i = Return (Some r).
Proof. intros H. unfold findById. cbn [getSupabase]. now rewrite bind_Return, H. Qed.

Lemma findById_cases (d : database) (i : N) :
  (exists e, findById d i = Throw e)
  \/ (exists t r, d = Some t /\ rows t !! i = Some r
                  /\ findById d i = Return (Some r)).
Proof.
  destruct d as [t|]; [|left; now eexists].
  destruct (rows t !! i) as [r|] eqn:E.
  - right. exists t, r. now rewrite (findById_found t i r E).
  - left. unfold findById. cbn [getSupabase]. rewrite bind_Return, E. now eexists.
Qed.

(** C8: deleting an existing record. Without an owner id the record is
    deleted for any caller; with an owner id it is deleted for the caller
    whose [userId] is that id; for any other caller the answer is 403 and
    the table is unchanged. (The database is reachable and accepts the
    delete; an owner id is a non-empty string.) *)
Theorem delete_checks_owner (t : table) (i : N) (r : row) (caller : option str) :
  rows t !! i = Some r ->
  delete_error w = None ->
  let deleted :=
    ({| code := 200; payload := BMessage (lit "诗歌删除成功") |},
     Some {| rows := delete i (rows t); next_id := next_id t |}) in
  (user_id r = None -> deletePoetry w (Some t) i caller = deleted)
  /\ (forall u, user_id r = Some u -> caller = Some u ->
                deletePoetry w (Some t) i caller = deleted)
  /\ (forall u, user_id r = Some u -> u <> [] -> caller <> Some u ->
                deletePoetry w (Some t) i caller
                = ({| code := 403; payload := BError (lit "无权限删除此诗歌") None |},
                   Some t)).
Proof.
  intros Hr Hd. cbv zeta. unfold deletePoetry. rewrite (findById_found t i r Hr).
  unfold deleteById. cbn [getSupabase]. rewrite Hd.
  split; [|split].
  - intros ->. reflexivity.
  - intros u -> ->. unfold not_owner.
    rewrite (bool_decide_eq_true_2 _ eq_refl). cbn [negb]. now rewrite andb_false_r.
  - intros u -> Hu Hc. unfold not_owner.
    assert (Hne : Some u <> caller) by congruence.
    rewrite (bool_decide_eq_false_2 _ Hne). destruct u; [congruence|]. reflexivity.
Qed.






End Records.

Lemma delete_checks_owner_witness :
  deletePoetry (sample_world re_encodes good_reply None)
    (Some (one_row (Some (lit "u1")) 0)) 7 (Some (lit "u2"))
  = ({| code := 403; payload := BError (lit "无权限删除此诗歌") None |},
     Some (one_row (Some (lit "u1")) 0))
  /\ code (fst (deletePoetry (sample_world re_encodes good_reply None)
                  (Some (one_row (Some (lit "u1")) 0)) 7 (Some (lit "u1")))) = 200
  /\ code (fst (deletePoetry (sample_world re_encodes good_reply None)
                  (Some (one_row None 0)) 7 (Some (lit "u2")))) = 200.
Proof.
  split; [|split].
  - destruct (delete_checks_owner (sample_world re_encodes good_reply None)
                (one_row (Some (lit "u1")) 0) 7 (sample_row 7 (Some (lit "u1")) 0)
                (Some (lit "u2")) eq_refl eq_refl) as (_ & _ & H).
    apply (H (lit "u1")); [reflexivity|discriminate|discriminate].
  - destruct (delete_checks_owner (sample_world re_encodes good_reply None)
                (one_row (Some (lit "u1")) 0) 7 (sample_row 7 (Some (lit "u1")) 0)
                (Some (lit "u1")) eq_refl eq_refl) as (_ & H & _).
    now rewrite (H (lit "u1") eq_refl eq_refl).
  - destruct (delete_checks_owner (sample_world re_encodes good_reply None)
                (one_row None 0) 7 (sample_row 7 None 0)
                (Some (lit "u2")) eq_refl eq_refl) as (H & _).
    now rewrite (H eq_refl).
Defined.

Section ShareCount.





End ShareCount.


(* ===================================================================== *)
(** * Records: what each request does to the table *)
(* ===================================================================== *)

Section RecordRequests.

Variable w : world.

Lemma findById_missing (d : database) (i : N) :
  row_in d i = None -> exists e, findById d i = Throw e.
Proof.
  intros H. destruct (findById_cases d i) as [He|(t & r & -> & Hr & _)]; [exact He|].
  cbn [row_in] in H. congruence.
Qed.

Lemma findById_unset (i : N) :
  findById None i = Throw (new_Error (lit "数据库未初始化")).
Proof. reflexivity. Qed.

Lemma state_eta (st : state) : {| oss := oss st; db := db st |} = st.
Proof. now destruct st. Qed.

Lemma generatePoetry_code (st : state) (req : generate_request) :
  code (fst (generatePoetry w st req)) = 400
  \/ code (fst (generatePoetry w st req)) = 201
  \/ code (fst (generatePoetry w st req)) = 500.
Proof.
  unfold generatePoetry. cbv zeta.
  destruct (negb (has_image req)); [now left|].
  destruct (upload_step w (oss st) req) as [final o'].
  destruct (persist_step _ _ _ _ _ _ _) as [[r|e] d'] eqn:E; [|now right; right].
  right; left. revert E. unfold persist_step, unsaved_response.
  destruct (poetryData _ _ _ _ _ _) as [data|e].
  - destruct (create w (db st) data) as [[row|e] d2].
    + now intros [= <- _].
    + destruct (res_poetry _); [now intros [= <- _]|discriminate].
  - destruct (res_poetry _); [now intros [= <- _]|discriminate].
Qed.

End RecordRequests.

(** X1: Looking up a record that is not there: [.single()] reports an error on
    an empty result, so [findById] throws instead of returning [null]. The
    four requests that name the record answer 500 and change nothing, and
    none of the requests handled here is ever answered with 404. *)
Theorem missing_poem_answers_500 (w : world) (st : state) (i : N) :
  row_at st i = None ->
  (forall op,
     op = GetById i \/ (exists b, op = UpdateFeedback i b)
     \/ (exists p, op = SharePoem i p) \/ (exists u, op = DeletePoem i u) ->
     code (fst (handle w st op)) = 500 /\ snd (handle w st op) = st)
  /\ (forall w' st' op, code (fst (handle w' st' op)) <> 404).
Proof.
  intros Hr. split.
  - destruct (findById_missing (db st) i Hr) as [e He].
    intros op [->|[[b ->]|[[p ->]|[u ->]]]]; cbn [handle].
    + unfold getPoetryById. rewrite He. now split.
    + unfold updateFeedback. rewrite He. cbn [fst snd]. split; [reflexivity|apply state_eta].
    + unfold sharePoetry. rewrite He. cbn [fst snd]. split; [reflexivity|apply state_eta].
    + unfold deletePoetry. rewrite He. cbn [fst snd]. split; [reflexivity|apply state_eta].
  - clear. intros w st op. destruct op as [req|j|j b|j p|j u]; cbn [handle].
    + destruct (generatePoetry_code w st req) as [H|[H|H]]; rewrite H; discriminate.
    + unfold getPoetryById.
      destruct (findById_cases (db st) j) as [[e ->]|(t & r & _ & _ & ->)]; discriminate.
    + unfold updateFeedback.
      destruct (findById_cases (db st) j) as [[e ->]|(t & r & _ & _ & ->)];
        [discriminate|].
      destruct (save _ _ _) as [[s|e] d']; discriminate.
    + unfold sharePoetry.
      destruct (findById_cases (db st) j) as [[e ->]|(t & r & _ & _ & ->)];
        [discriminate|].
      destruct (incrementShareCount _ _ _) as [[s|e] d']; discriminate.
    + unfold deletePoetry.
      destruct (findById_cases (db st) j) as [[e ->]|(t & r & _ & _ & ->)];
        [discriminate|].
      destruct (not_owner _ _); [discriminate|].
      destruct (deleteById _ _ _) as [[s|e] d']; discriminate.
Qed.

Lemma missing_poem_answers_500_witness :
  code (fst (handle (sample_world re_encodes good_reply None)
               (sample_state (Some (one_row None 0))) (SharePoem 8 None))) = 500
  /\ snd (handle (sample_world re_encodes good_reply None)
            (sample_state (Some (one_row None 0))) (SharePoem 8 None))
     = sample_state (Some (one_row None 0)).
Proof.
  destruct (missing_poem_answers_500 (sample_world re_encodes good_reply None)
              (sample_state (Some (one_row None 0))) 8 eq_refl) as [H _].
  apply H. right. right. left. now exists None.
Defined.

(** X2: A feedback request lays the members its body has over the stored
    feedback and keeps the others: the answer carries the merged feedback,
    and the stored row changes in its feedback and time stamp only. *)
Theorem feedback_is_merged (w : world) (t : table) (i : N) (r : row)
  (b : feedback_body) :
  rows t !! i = Some r -> id r = i -> update_error w = None ->
  let merged := merge_feedback b (r_feedback r) in
  updateFeedback w (Some t) i b
  = ({| code := 200; payload := BFeedback merged |},
     Some {| rows := <[ i := with_feedback r merged (Some (iso_now w)) ]> (rows t);
             next_id := next_id t |})
  /\ merge_feedback b merged = merged.
Proof.
  intros Hr Hid Hu. cbv zeta. split.
  - unfold updateFeedback. rewrite (findById_found t i r Hr).
    unfold save. cbn [getSupabase id]. rewrite Hu, Hid, Hr.
    unfold merge_feedback, with_feedback.
    destruct b as [[x|] [y|] [z|]], (r_feedback r) as [a c l];
      cbn [fb_rating fb_comment fb_isLiked rating comment isLiked r_feedback];
      rewrite ?Hid; reflexivity.
  - unfold merge_feedback.
    destruct b as [[x|] [y|] [z|]], (r_feedback r) as [a c l]; reflexivity.
Qed.

Lemma feedback_is_merged_witness :
  updateFeedback (sample_world re_encodes good_reply None)
    (Some (one_row None 0)) 7
    {| fb_rating := Some 5; fb_comment := None; fb_isLiked := None |}
  = ({| code := 200;
        payload :=
          BFeedback
            (merge_feedback
               {| fb_rating := Some 5; fb_comment := None; fb_isLiked := None |}
               (r_feedback (sample_row 7 None 0))) |},
     Some {| rows :=
               <[ 7 := with_feedback (sample_row 7 None 0)
                         (merge_feedback
                            {| fb_rating := Some 5; fb_comment := None;
                               fb_isLiked := None |}
                            (r_feedback (sample_row 7 None 0)))
                         (Some (iso_now (sample_world re_encodes good_reply None))) ]>
                 (rows (one_row None 0));
             next_id := next_id (one_row None 0) |}).
Proof.
  exact (proj1 (feedback_is_merged (sample_world re_encodes good_reply None)
                  (one_row None 0) 7 (sample_row 7 None 0)
                  {| fb_rating := Some 5; fb_comment := None; fb_isLiked := None |}
                  eq_refl eq_refl eq_refl)).
Defined.



(** X4: After a delete request answered with 200 the record is gone, every
    other record and the bucket are as before, and a second delete of the
    same record is answered with 500 and changes nothing. *)
Theorem deleted_poem_is_gone (w : world) (st : state) (i : N) (u : option str) :
  code (fst (handle w st (DeletePoem i u))) = 200 ->
  let st' := snd (handle w st (DeletePoem i u)) in
  row_at st' i = None
  /\ (forall j, j <> i -> row_at st' j = row_at st j)
  /\ oss st' = oss st
  /\ (forall w2 u2,
        code (fst (handle w2 st' (DeletePoem i u2))) = 500
        /\ snd (handle w2 st' (DeletePoem i u2)) = st').
Proof.
  intros Hc. cbv zeta.
  assert (Hgone : row_at (snd (handle w st (DeletePoem i u))) i = None
                  /\ (forall j, j <> i ->
                        row_at (snd (handle w st (DeletePoem i u))) j = row_at st j)
                  /\ oss (snd (handle w st (DeletePoem i u))) = oss st).
  { revert Hc. cbn [handle]. unfold deletePoetry, row_at.
    destruct (findById_cases (db st) i) as [[e ->]|(t & r & Hd & Hr & ->)];
      [discriminate|].
    destruct (not_owner _ _); [discriminate|].
    unfold deleteById. rewrite Hd. cbn [getSupabase].
    destruct (delete_error w); [discriminate|]. intros _.
    cbn [fst snd db oss row_in rows]. split; [apply lookup_delete_eq|].
    split; [|reflexivity]. intros j Hj. apply lookup_delete_ne. congruence. }
  destruct Hgone as (Hg & Ho & Hs). split; [exact Hg|]. split; [exact Ho|].
  split; [exact Hs|]. intros w2 u2.
  destruct (findById_missing (db (snd (handle w st (DeletePoem i u)))) i Hg) as [e He].
  revert He. generalize (snd (handle w st (DeletePoem i u))). intros st' He.
  cbn [handle]. unfold deletePoetry. rewrite He. cbn [fst snd].
  split; [reflexivity|apply state_eta].
Qed.

Lemma deleted_poem_is_gone_witness :
  row_at (snd (handle (sample_world re_encodes good_reply None)
                 (sample_state (Some (one_row None 0))) (DeletePoem 7 None))) 7 = None.
Proof.
  exact (proj1 (deleted_poem_is_gone (sample_world re_encodes good_reply None)
                  (sample_state (Some (one_row None 0))) 7 None eq_refl)).
Defined.

(* ===================================================================== *)
(** * Sequences of requests *)
(* ===================================================================== *)

Section Invariants.

Variable w : world.

Lemma well_formed_replace (t : table) (j : N) (r0 r2 : row) :
  well_formed (Some t) -> rows t !! j = Some r0 ->
  id r2 = j -> r_poetry r2 = r_poetry r0 ->
  well_formed (Some {| rows := <[ j := r2 ]> (rows t); next_id := next_id t |}).
Proof.
  intros (Hk & Hl & Hb) Hr Hid Hp. split; [|split].
  - intros k x. cbn [row_in rows]. destruct (decide (j = k)) as [<-|Hne].
    + rewrite lookup_insert_eq. now intros [= <-].
    + rewrite lookup_insert_ne by exact Hne. apply (Hk k x).
  - intros k x. cbn [row_in rows]. destruct (decide (j = k)) as [<-|Hne].
    + rewrite lookup_insert_eq. intros [= <-]. rewrite Hp. apply (Hl j r0 Hr).
    + rewrite lookup_insert_ne by exact Hne. apply (Hl k x).
  - intros k x. cbn [rows next_id]. destruct (decide (j = k)) as [<-|Hne].
    + rewrite lookup_insert_eq. intros _. apply (Hb j r0 Hr).
    + rewrite lookup_insert_ne by exact Hne. apply (Hb k x).
Qed.

Lemma well_formed_delete (t : table) (j : N) :
  well_formed (Some t) ->
  well_formed (Some {| rows := delete j (rows t); next_id := next_id t |}).
Proof.
  intros (Hk & Hl & Hb).
  split; [|split]; intros k x; cbn [row_in rows next_id];
    rewrite lookup_delete_Some; intros [_ H].
  - apply (Hk k x H).
  - apply (Hl k x H).
  - apply (Hb k x H).
Qed.

Lemma create_well_formed (d : database) (data : poetry_data) :
  well_formed d ->
  p_length (d_poetry data) = N.of_nat (length (p_content (d_poetry data))) ->
  well_formed (snd (create w d data)).
Proof.
  intros Hw Hlen.
  destruct (create_cases w d data)
    as [[e ->]|(t & r & -> & Hn & -> & Hid & Hp & _)]; [exact Hw|].
  destruct Hw as (Hk & Hl & Hb). cbn [snd]. split; [|split].
  - intros k x. cbn [row_in rows]. destruct (decide (next_id t = k)) as [<-|Hne].
    + rewrite lookup_insert_eq. now intros [= <-].
    + rewrite lookup_insert_ne by exact Hne. apply (Hk k x).
  - intros k x. cbn [row_in rows]. destruct (decide (next_id t = k)) as [<-|Hne].
    + rewrite lookup_insert_eq. intros [= <-]. now rewrite Hp.
    + rewrite lookup_insert_ne by exact Hne. apply (Hl k x).
  - intros k x. cbn [rows next_id]. destruct (decide (next_id t = k)) as [<-|Hne].
    + intros _. lia.
    + rewrite lookup_insert_ne by exact Hne. intros H. specialize (Hb k x H). lia.
Qed.

Lemma poetryData_length (req : generate_request) (final : option str) (style : str)
  (result : gen_result) (time : Z) (data : poetry_data) :
  poetryData w req final style result time = Return data ->
  p_length (d_poetry data) = N.of_nat (length (p_content (d_poetry data))).
Proof.
  unfold poetryData. destruct (res_poetry result); [|discriminate].
  now intros [= <-].
Qed.

Lemma persist_step_db (d : database) (req : generate_request) (final : option str)
  (style : str) (result : gen_result) (time : Z) :
  snd (persist_step w d req final style result time) = d
  \/ exists data,
       poetryData w req final style result time = Return data
       /\ snd (persist_step w d req final style result time) = snd (create w d data).
Proof.
  unfold persist_step.
  destruct (poetryData w req final style result time) as [data|e]; [|now left].
  right. exists data. split; [reflexivity|].
  now destruct (create w d data) as [[row|e] d'].
Qed.

Lemma generatePoetry_db (st : state) (req : generate_request) :
  db (snd (generatePoetry w st req)) = db st
  \/ exists final style result time data,
       poetryData w req final style result time = Return data
       /\ db (snd (generatePoetry w st req)) = snd (create w (db st) data).
Proof.
  unfold generatePoetry. cbv zeta.
  destruct (negb (has_image req)); [now left|].
  destruct (upload_step w (oss st) req) as [final o'].
  match goal with |- context [persist_step w ?d ?q ?f ?s ?r ?t] =>
    destruct (persist_step_db d q f s r t) as [H|(data & Hd & H)];
    destruct (persist_step w d q f s r t) as [[resp|e] d'] eqn:E;
    cbn [snd db] in *
  end.
  - now left.
  - now left.
  - right. eauto 10.
  - right. eauto 10.
Qed.

Lemma handle_well_formed (st : state) (op : operation) :
  well_formed (db st) -> well_formed (db (snd (handle w st op))).
Proof.
  intros Hw. destruct op as [req|j|j b|j p|j u]; cbn [handle].
  - destruct (generatePoetry_db st req) as [->|(f & s & r & z & data & Hd & ->)];
      [exact Hw|].
    apply create_well_formed; [exact Hw|]. apply (poetryData_length _ _ _ _ _ _ Hd).
  - exact Hw.
  - unfold updateFeedback.
    destruct (findById_cases (db st) j) as [[e ->]|(t & r & Hd & Hr & ->)];
      [exact Hw|].
    unfold save. rewrite Hd in *. cbn [getSupabase id].
    destruct (update_error w); [exact Hw|].
    rewrite (proj1 Hw j r Hr), Hr. cbn [snd db].
    apply (well_formed_replace t j r); [exact Hw|exact Hr| |reflexivity].
    cbn [id]. first [reflexivity|apply (proj1 Hw j r Hr)].
  - unfold sharePoetry.
    destruct (findById_cases (db st) j) as [[e ->]|(t & r & Hd & Hr & ->)];
      [exact Hw|].
    unfold incrementShareCount. rewrite Hd in *. cbn [getSupabase id].
    destruct (update_error w); [exact Hw|].
    rewrite (proj1 Hw j r Hr), Hr. cbn [snd db].
    apply (well_formed_replace t j r); [exact Hw|exact Hr| |reflexivity].
    cbn [id]. first [reflexivity|apply (proj1 Hw j r Hr)].
  - unfold deletePoetry.
    destruct (findById_cases (db st) j) as [[e ->]|(t & r & Hd & Hr & ->)];
      [exact Hw|].
    destruct (not_owner _ _); [exact Hw|].
    unfold deleteById. rewrite Hd in *. cbn [getSupabase].
    destruct (delete_error w); [exact Hw|].
    cbn [snd db]. now apply well_formed_delete.
Qed.

End Invariants.

Lemma empty_table_well_formed : well_formed (Some empty_table).
Proof.
  split; [|split]; intros k x; cbn [row_in rows empty_table];
    rewrite lookup_empty; discriminate.
Qed.

(** X5: The requests handled here, in any number and order and in any
    environment, keep the table well formed: every row is stored under its
    own [id], the [length] of every stored poem is its number of lines,
    and the key sequence of the table lies above every key in use. *)
Theorem requests_keep_table_well_formed (st : state)
  (steps : list (world * operation)) :
  well_formed (db st) -> well_formed (db (run st steps)).
Proof.
  revert st. induction steps as [|[w op] rest IH]; intros st Hw; [exact Hw|].
  cbn [run]. apply IH. now apply handle_well_formed.
Qed.

Lemma requests_keep_table_well_formed_witness :
  well_formed
    (db (run (sample_state (Some empty_table))
           [ (sample_world re_encodes good_reply None, Generate (url_request None));
             (sample_world re_encodes good_reply None, SharePoem 1 None);
             (sample_world re_encodes good_reply None, DeletePoem 1 None) ])).
Proof.
  apply requests_keep_table_well_formed. exact empty_table_well_formed.
Defined.

(** X6: While the database handle is unset every request that names a record
    is answered with 500 and changes nothing; a generation request is still
    answered, its poem carrying the placeholder id and the note that it was
    not saved; and no request sets the handle. *)
Theorem unset_database_is_survived (w : world) (st : state) (op : operation) :
  db st = None ->
  db (snd (handle w st op)) = None
  /\ (forall g, fst (handle w st op) = {| code := 201; payload := BGenerate g |} ->
        g_id g = TempId (now_temp w) /\ g_note g = Some NOTE)
  /\ ((forall req, op <> Generate req) ->
        code (fst (handle w st op)) = 500 /\ snd (handle w st op) = st).
Proof.
  intros Hd. destruct op as [req|j|j b|j p|j u]; cbn [handle].
  - split; [|split].
    + destruct (generatePoetry_db w st req) as [->|(f & s & r & z & data & _ & ->)];
        [exact Hd|].
      now rewrite Hd.
    + intros g. unfold generatePoetry. cbv zeta.
      destruct (negb (has_image req)); [discriminate|].
      destruct (upload_step w (oss st) req) as [final o'].
      unfold persist_step. rewrite Hd.
      destruct (poetryData _ _ _ _ _ _) as [data|e]; cbn [create getSupabase];
        unfold unsaved_response; destruct (res_poetry _); cbn [fst];
        try discriminate; now intros [= <-].
    + intros H. now contradiction (H req).
  - unfold getPoetryById. rewrite Hd, findById_unset. cbn [fst snd code db].
    split; [exact Hd|]. split; [discriminate|]. intros _. now split.
  - unfold updateFeedback. rewrite Hd, findById_unset. cbn [fst snd code db].
    split; [reflexivity|]. split; [discriminate|]. intros _.
    split; [reflexivity|]. rewrite <- Hd. apply state_eta.
  - unfold sharePoetry. rewrite Hd, findById_unset. cbn [fst snd code db].
    split; [reflexivity|]. split; [discriminate|]. intros _.
    split; [reflexivity|]. rewrite <- Hd. apply state_eta.
  - unfold deletePoetry. rewrite Hd, findById_unset. cbn [fst snd code db].
    split; [reflexivity|]. split; [discriminate|]. intros _.
    split; [reflexivity|]. rewrite <- Hd. apply state_eta.
Qed.

Lemma unset_database_is_survived_witness :
  db (snd (handle (sample_world re_encodes good_reply None) (sample_state None)
             (Generate (url_request None)))) = None.
Proof.
  exact (proj1 (unset_database_is_survived (sample_world re_encodes good_reply None)
                  (sample_state None) (Generate (url_request None)) eq_refl)).
Defined.

(* ===================================================================== *)
(** * The generation flow: answers, stored rows, model input *)
(* ===================================================================== *)

Section GenerationFlow.

Variable w : world.

Lemma mockData_inherited (style : str) :
  style ∈ object_prototype_keys -> mockData style = None.
Proof.
  assert (H : Forall (fun k => mockData k = None) object_prototype_keys)
    by (repeat constructor).
  rewrite Forall_forall in H. apply H.
Qed.

(** The variable [result] holds a poem unless the canned table was read
    at an inherited name. *)
Lemma inference_step_poem (req : generate_request) (final : option str) (style : str) :
  style ∉ object_prototype_keys ->
  exists lines, res_poetry (inference_step w req final style) = Some lines.
Proof.
  intros Hp. unfold inference_step.
  destruct (inference_call w req final style) as [p|e]; [now eexists|].
  destruct (mockData_entry style Hp) as (e0 & He & _).
  unfold mock_result. cbn [res_poetry]. rewrite He. now eexists.
Qed.

Lemma create_returns (d d' : database) (data : poetry_data) (r : row) :
  create w d data = (Return r, d') ->
  exists t,
    d = Some t /\ rows t !! next_id t = None
    /\ d' = Some {| rows := <[ next_id t := r ]> (rows t); next_id := next_id t + 1 |}
    /\ id r = next_id t
    /\ r_poetry r = d_poetry data
    /\ r_recognition r = d_imageRecognition data
    /\ r_image r = d_image data
    /\ user_id r = or_null (d_userId data)
    /\ r_feedback r = default empty_feedback (d_feedback data)
    /\ r_share r = default default_share (d_share data).
Proof.
  unfold create. destruct d as [t|]; cbn [getSupabase]; [|discriminate].
  destruct (insert_error w); [discriminate|].
  destruct (rows t !! next_id t) eqn:E; [discriminate|].
  intros [= <- <-]. exists t. now repeat split.
Qed.

Lemma create_throws (d d' : database) (data : poetry_data) (e : exn) :
  create w d data = (Throw e, d') -> d' = d.
Proof.
  destruct (create_cases w d data) as [[e0 ->]|(t & r & _ & _ & -> & _)];
    [now intros [= _ <-]|discriminate].
Qed.

(** The answer of step 3, given the poem of step 2. *)
Lemma persist_step_answer (d : database) (req : generate_request)
  (final : option str) (style : str) (result : gen_result) (time : Z)
  (lines : list str) :
  res_poetry result = Some lines ->
  exists g d',
    persist_step w d req final style result time
    = (Return {| code := 201; payload := BGenerate g |}, d')
    /\ g_content g = lines
    /\ g_title g = res_title result
    /\ g_style g = style
    /\ g_length g = N.of_nat (length lines)
    /\ g_description g = res_imageDescription result
    /\ g_processingTime g = time
    /\ g_model g = MODEL_NAME
    /\ ((exists t r,
           d = Some t /\ rows t !! next_id t = None
           /\ d' = Some {| rows := <[ next_id t := r ]> (rows t);
                           next_id := next_id t + 1 |}
           /\ g_id g = RowId (next_id t) /\ g_note g = None
           /\ id r = next_id t
           /\ p_content (r_poetry r) = lines
           /\ p_title (r_poetry r) = res_title result
           /\ p_style (r_poetry r) = style
           /\ rec_description (r_recognition r) = res_imageDescription result
           /\ user_id r = or_null (req_userId req)
           /\ r_feedback r = empty_feedback
           /\ r_share r = default_share)
        \/ (d' = d /\ g_id g = TempId (now_temp w) /\ g_note g = Some NOTE
            /\ (d = None \/ insert_error w <> None
                \/ exists t x, d = Some t /\ rows t !! next_id t = Some x))).
Proof.
  intros Hl. unfold persist_step, poetryData, unsaved_response. rewrite Hl.
  match goal with |- context [create w d ?data] =>
    destruct (create w d data) as [[r|e] d'] eqn:E
  end.
  - destruct (create_returns _ _ _ _ E)
      as (t & -> & Hn & -> & Hid & Hp & Hrec & _ & Hu & Hf & Hs).
    eexists _, _. split; [reflexivity|].
    unfold created_response.
    cbn [g_content g_title g_style g_length g_description g_processingTime
         g_model g_id g_note].
    rewrite Hp. cbn [d_poetry p_content p_title p_style p_length].
    assert (Hm : gen_model (r_generation r) = MODEL_NAME).
    { revert E. unfold create. cbn [getSupabase].
      destruct (insert_error w); [discriminate|]. rewrite Hn. now intros [= <-]. }
    repeat (split; [first [reflexivity|exact Hm]|]).
    left. exists t, r. rewrite Hid, Hp, Hrec, Hu, Hf, Hs. now repeat split.
  - pose proof (create_throws _ _ _ _ E) as ->.
    eexists _, _. split; [reflexivity|].
    cbn [g_content g_title g_style g_length g_description g_processingTime
         g_model g_id g_note].
    repeat (split; [reflexivity|]). right. repeat (split; [reflexivity|]).
    revert E. unfold create. destruct d as [t|]; cbn [getSupabase]; [|now left].
    destruct (insert_error w); [right; left; discriminate|].
    destruct (rows t !! next_id t) as [x|] eqn:Ex; [|discriminate].
    intros _. right. right. now exists t, x.
Qed.

Lemma uploadImage_url (o o' : oss_state) (b : bytes) (name folder : str)
  (d : upload_data) :
  uploadImage w o b name folder = (Return d, o') ->
  filename d = object_key w folder /\ url d = getImageUrl w (filename d).
Proof.
  unfold uploadImage, client_put. cbv zeta.
  destruct (put_error w _ _) as [e|].
  - destruct (uploadImage_catch_throws {| bucket := bucket o;
        calls := calls o ++ [CallPut (object_key w folder)] |} e) as [e' ->].
    discriminate.
  - now intros [= <- _].
Qed.

Lemma multipart_url (o o' : oss_state) (b : bytes) (name folder : str)
  (d : upload_data) :
  multipartUploadImage w o b name folder = (Return d, o') ->
  filename d = object_key w folder /\ url d = getImageUrl w (filename d).
Proof.
  unfold multipartUploadImage, client_multipartUpload. cbv zeta.
  destruct (sharp w b) as [pb|].
  2:{ destruct (multipart_catch_throws o sharp_error) as [e' ->]. discriminate. }
  destruct (writeFile_error w) as [e|].
  { destruct (multipart_catch_throws o e) as [e' ->]. discriminate. }
  destruct (multipart_error w _ _) as [e|].
  - destruct (multipart_catch_throws {| bucket := bucket o;
        calls := calls o ++ [CallMultipartUpload (object_key w folder)] |} e)
      as [e' ->].
    discriminate.
  - now intros [= <- _].
Qed.

Lemma getImageUrl_truthy (name : str) : truthy (getImageUrl w name) = true.
Proof.
  unfold getImageUrl. destruct (baseUrl w); reflexivity.
Qed.

End GenerationFlow.

(** X7: A generation request is answered with 400, and nothing happens, when
    it carries no image. With an image it is answered with 201 and a poem
    in the requested style whatever storage, model and database do, unless
    the style is a name every object inherits: such a style gets 500 when
    the model call fails. *)
Theorem generation_is_always_answered (w : world) (st : state)
  (req : generate_request) :
  let style := default GUFENG (req_style req) in
  (has_image req = false ->
   generatePoetry w st req
   = ({| code := 400;
         payload := BError (lit "请提供图片文件、图片数据或图片URL") None |}, st))
  /\ (has_image req = true -> style ∉ object_prototype_keys ->
      exists g,
        fst (generatePoetry w st req) = {| code := 201; payload := BGenerate g |}
        /\ g_style g = style
        /\ g_length g = N.of_nat (length (g_content g))
        /\ g_model g = MODEL_NAME
        /\ g_processingTime g = (Z.of_N (now_end w) - Z.of_N (now_start w))%Z)
  /\ (has_image req = true -> style ∈ object_prototype_keys -> inference_fails w ->
      code (fst (generatePoetry w st req)) = 500
      /\ db (snd (generatePoetry w st req)) = db st).
Proof.
  cbv zeta. split; [|split].
  - intros Hi. unfold generatePoetry. now rewrite Hi.
  - intros Hi Hp. unfold generatePoetry. rewrite Hi. cbn [negb]. cbv zeta.
    destruct (upload_step w (oss st) req) as [final o'].
    destruct (inference_step_poem w req final _ Hp) as [lines Hl].
    match goal with |- context [persist_step w ?d ?q ?f ?s ?r ?t] =>
      destruct (persist_step_answer w d q f s r t lines Hl)
        as (g & d' & -> & Hc & _ & Hs & Hn & _ & Ht & Hm & _)
    end.
    exists g. cbn [fst]. rewrite Hc. now repeat split.
  - intros Hi Hp Hf. unfold generatePoetry. rewrite Hi. cbn [negb]. cbv zeta.
    destruct (upload_step w (oss st) req) as [final o'].
    unfold inference_step.
    destruct (inference_call_fails w req final (default GUFENG (req_style req)) Hf)
      as [e ->].
    unfold persist_step, poetryData, unsaved_response, mock_result.
    cbn [res_poetry]. rewrite (mockData_inherited _ Hp). now split.
Qed.

Lemma generation_is_always_answered_witness :
  generatePoetry (sample_world re_encodes good_reply None) (sample_state None)
    {| req_file := None; req_imageBuffer := None; req_imageUrl := None;
       req_style := None; req_userId := None; req_ip := lit "127.0.0.1";
       req_userAgent := None |}
  = ({| code := 400;
        payload := BError (lit "请提供图片文件、图片数据或图片URL") None |},
     sample_state None)
  /\ code (fst (generatePoetry
                  (sample_world re_encodes (Throw timeout_error) None)
                  (sample_state None) (url_request (Some (lit "constructor")))))
     = 500.
Proof.
  split.
  - apply (generation_is_always_answered (sample_world re_encodes good_reply None)
             (sample_state None)). reflexivity.
  - apply (generation_is_always_answered
             (sample_world re_encodes (Throw timeout_error) None)
             (sample_state None) (url_request (Some (lit "constructor")))).
    + reflexivity.
    + apply (bool_decide_eq_true_1 _). vm_compute. reflexivity.
    + intros ref prompt. exact I.
Defined.

(** X8: The identifier of a generated poem says whether it was stored. A row
    key means that the key was free before, that the row now stored under
    it holds the poem, title, style and description of the answer with no
    feedback and a share counter of zero, and that the answer has no note.
    A placeholder means that the table is as it was, and the answer
    carries the note. *)
Theorem durable_id_iff_stored (w : world) (st : state) (req : generate_request)
  (g : generate_data) :
  fst (generatePoetry w st req) = {| code := 201; payload := BGenerate g |} ->
  match g_id g with
  | RowId i =>
    row_at st i = None
    /\ g_note g = None
    /\ exists r,
         row_at (snd (generatePoetry w st req)) i = Some r
         /\ id r = i
         /\ p_content (r_poetry r) = g_content g
         /\ p_title (r_poetry r) = g_title g
         /\ p_style (r_poetry r) = g_style g
         /\ rec_description (r_recognition r) = g_description g
         /\ r_feedback r = empty_feedback
         /\ r_share r = default_share
  | TempId t =>
    db (snd (generatePoetry w st req)) = db st
    /\ t = now_temp w
    /\ g_note g = Some NOTE
  end.
Proof.
  unfold generatePoetry. cbv zeta.
  destruct (negb (has_image req)); [discriminate|].
  destruct (upload_step w (oss st) req) as [final o'].
  destruct (res_poetry (inference_step w req final (default GUFENG (req_style req))))
    as [lines|] eqn:Hl.
  - match goal with |- context [persist_step w ?d ?q ?f ?s ?r ?t] =>
      destruct (persist_step_answer w d q f s r t lines Hl)
        as (g0 & d' & -> & Hc & Ht & Hs & _ & Hde & _ & _ & Hcase)
    end.
    cbn [fst snd db]. intros [= <-].
    destruct Hcase as [(t & r & Hd & Hn & -> & -> & Hno & Hid & Hpc & Hpt & Hps
                          & Hrec & _ & Hf & Hsh)
                      |(-> & -> & Hno & _)].
    + unfold row_at. rewrite Hd. cbn [db row_in rows].
      split; [exact Hn|]. split; [exact Hno|]. exists r.
      rewrite lookup_insert_eq, Hc, Ht, Hs, Hde. now repeat split.
    + now repeat split.
  - unfold persist_step, poetryData, unsaved_response. rewrite Hl. discriminate.
Qed.

Lemma durable_id_iff_stored_witness :
  exists g,
    fst (generatePoetry (sample_world re_encodes good_reply None)
           (sample_state (Some (one_row None 0))) (url_request None))
    = {| code := 201; payload := BGenerate g |}
    /\ g_id g = RowId 8
    /\ match g_id g with
       | RowId i => row_at (sample_state (Some (one_row None 0))) i = None
       | TempId _ => False
       end.
Proof.
  eexists. split; [vm_compute; reflexivity|]. split; [reflexivity|].
  pose proof (durable_id_iff_stored (sample_world re_encodes good_reply None)
                (sample_state (Some (one_row None 0))) (url_request None) _
                ltac:(vm_compute; reflexivity)) as H.
  cbn [g_id] in *. exact (proj1 H).
Defined.

(** X9: With an uploaded file the model is shown the stored copy when the
    upload succeeds and the raw bytes of the file when it fails; an image
    URL or base64 text sent along with the file is not used. *)
Theorem model_sees_stored_copy_or_bytes (w : world) (o : oss_state)
  (req : generate_request) (f : file) (style : str) :
  req_file req = Some f ->
  let upload :=
    if threshold <? file_size f
    then multipartUploadImage w o (buffer f) (originalname f) FOLDER_POETRY
    else uploadImage w o (buffer f) (originalname f) FOLDER_POETRY in
  inference_call w req (fst (upload_step w o req)) style
  = generatePoetryFromImage w
      match fst upload with
      | Return d => InUrl (getImageUrl w (object_key w FOLDER_POETRY))
      | Throw _ => InBuffer (buffer f)
      end style.
Proof.
  intros Hf. cbv zeta. unfold upload_step, inference_call. rewrite Hf.
  destruct (threshold <? file_size f).
  - destruct (multipartUploadImage w o (buffer f) (originalname f) FOLDER_POETRY)
      as [[d|e] o'] eqn:E; cbn [fst truthy_opt]; [|reflexivity].
    destruct (multipart_url w _ _ _ _ _ _ E) as [Hn Hu].
    rewrite Hu, getImageUrl_truthy, Hn. reflexivity.
  - destruct (uploadImage w o (buffer f) (originalname f) FOLDER_POETRY)
      as [[d|e] o'] eqn:E; cbn [fst truthy_opt]; [|reflexivity].
    destruct (uploadImage_url w _ _ _ _ _ _ E) as [Hn Hu].
    rewrite Hu, getImageUrl_truthy, Hn. reflexivity.
Qed.

Lemma model_sees_stored_copy_or_bytes_witness :
  inference_call (sample_world re_encodes good_reply None)
    (with_file (url_request None) (sized_file 4))
    (fst (upload_step (sample_world re_encodes good_reply None) empty_oss
            (with_file (url_request None) (sized_file 4))))
    GUFENG
  = generatePoetryFromImage (sample_world re_encodes good_reply None)
      match
        fst (if threshold <? file_size (sized_file 4)
             then multipartUploadImage (sample_world re_encodes good_reply None)
                    empty_oss (buffer (sized_file 4)) (originalname (sized_file 4))
                    FOLDER_POETRY
             else uploadImage (sample_world re_encodes good_reply None)
                    empty_oss (buffer (sized_file 4)) (originalname (sized_file 4))
                    FOLDER_POETRY)
      with
      | Return d =>
        InUrl (getImageUrl (sample_world re_encodes good_reply None)
                 (object_key (sample_world re_encodes good_reply None) FOLDER_POETRY))
      | Throw _ => InBuffer (buffer (sized_file 4))
      end GUFENG.
Proof.
  exact (model_sees_stored_copy_or_bytes (sample_world re_encodes good_reply None)
           empty_oss (with_file (url_request None) (sized_file 4)) (sized_file 4)
           GUFENG eq_refl).
Defined.

(** X10: A style outside the four known ones (and not an inherited name) is
    prompted as 古风, while the canned poem used when the model fails is
    the one of 现代: the two fall-backs differ. *)
Theorem unknown_style_fallbacks_differ (w : world) (style : str) :
  style ∉ styles -> style ∉ object_prototype_keys ->
  buildImagePoetryPrompt w style = buildImagePoetryPrompt w GUFENG
  /\ mockData style = mockData XIANDAI
  /\ mockData XIANDAI <> mockData GUFENG
  /\ buildImagePoetryPrompt w XIANDAI <> buildImagePoetryPrompt w GUFENG.
Proof.
  intros Hs Hp.
  assert (Hown : forall A (members : list (str * A)),
             map fst members = styles -> own_lookup members style = None).
  { intros A members Hm. revert Hs. rewrite <- Hm. clear.
    induction members as [|[k v] rest IH]; [reflexivity|].
    cbn [map fst own_lookup]. rewrite not_elem_of_cons. intros [Hne Hr].
    rewrite bool_decide_eq_false_2 by congruence. now apply IH. }
  split; [|split; [|split]].
  - unfold buildImagePoetryPrompt. do 2 f_equal. unfold stylePrompt, get.
    rewrite (Hown _ stylePrompts eq_refl), (bool_decide_eq_false_2 _ Hp).
    destruct (own_lookup stylePrompts GUFENG) as [p|] eqn:E;
      [reflexivity|vm_compute in E; discriminate].
  - unfold mockData, get.
    rewrite (Hown _ mockPoetries eq_refl), (bool_decide_eq_false_2 _ Hp).
    reflexivity.
  - vm_compute. discriminate.
  - unfold buildImagePoetryPrompt. intros H. apply app_inv_head in H.
    apply app_inv_tail in H. vm_compute in H. discriminate.
Qed.

Lemma unknown_style_fallbacks_differ_witness :
  buildImagePoetryPrompt (sample_world re_encodes good_reply None) (lit "自由诗")
  = buildImagePoetryPrompt (sample_world re_encodes good_reply None) GUFENG
  /\ mockData (lit "自由诗") = mockData XIANDAI.
Proof.
  destruct (unknown_style_fallbacks_differ (sample_world re_encodes good_reply None)
              (lit "自由诗")) as (H1 & H2 & _).
  - apply (bool_decide_eq_false_1 _). vm_compute. reflexivity.
  - apply (bool_decide_eq_false_1 _). vm_compute. reflexivity.
  - now split.
Defined.

(* ===================================================================== *)
(** * Storage: failed uploads, uploads from a URL, deletion *)
(* ===================================================================== *)

Section StorageResults.

Variable w : world.

Lemma uploadImage_catch_eq (o : oss_state) (e : exn) :
  uploadImage_catch o e = (Throw (new_Error (put_failure_message e)), o).
Proof.
  unfold uploadImage_catch, put_failure_message, retry_put.
  destruct (has_code e "SignatureDoesNotMatch");
    destruct (has_code e "NoSuchBucket"); try reflexivity;
    destruct (has_code e "AccessDenied"); try reflexivity;
    destruct (has_code e "InvalidAccessKeyId"); reflexivity.
Qed.

Lemma multipart_catch_code (o o' : oss_state) (e e' : exn) :
  multipart_catch o e = (Throw e', o') -> exn_code e' = None /\ o' = o.
Proof.
  unfold multipart_catch.
  destruct (has_code e "ConnectionTimeoutError"); [now intros [= <- <-]|].
  destruct (has_code e "RequestTimeoutError"); [now intros [= <- <-]|].
  destruct (has_code e "NoSuchBucket"); now intros [= <- <-].
Qed.

(** What [uploadImage] returns, in full. *)
Lemma uploadImage_result (o o' : oss_state) (b : bytes) (name folder : str)
  (d : upload_data) :
  uploadImage w o b name folder = (Return d, o') ->
  let key := object_key w folder in
  let stored := default b (sharp w b) in
  d = {| filename := key; originalName := name;
         size := N.of_nat (length stored); mimetype := IMAGE_JPEG;
         url := getImageUrl w key; ossUrl := oss_url w key;
         upload_etag := etag w key stored; uploadMethod := None |}
  /\ o' = {| bucket := <[ key := {| obj_body := stored; obj_headers := put_headers;
                                    obj_meta := put_meta w name |} ]> (bucket o);
             calls := calls o ++ [CallPut key] |}.
Proof.
  unfold uploadImage, client_put. cbv zeta.
  destruct (sharp w b) as [pb|]; cbn [default];
    (destruct (put_error w _ _) as [e|];
     [rewrite uploadImage_catch_eq; discriminate|now intros [= <- <-]]).
Qed.

Lemma multipart_result (o o' : oss_state) (b : bytes) (name folder : str)
  (d : upload_data) :
  multipartUploadImage w o b name folder = (Return d, o') ->
  let key := object_key w folder in
  exists stored,
    sharp w b = Some stored
    /\ d = {| filename := key; originalName := name;
              size := N.of_nat (length stored); mimetype := IMAGE_JPEG;
              url := getImageUrl w key; ossUrl := oss_url w key;
              upload_etag := etag w key stored; uploadMethod := Some MULTIPART |}
    /\ o' = {| bucket := <[ key := {| obj_body := stored;
                                      obj_headers := multipart_headers;
                                      obj_meta := multipart_meta w name |} ]>
                           (bucket o);
               calls := calls o ++ [CallMultipartUpload key] |}.
Proof.
  unfold multipartUploadImage, client_multipartUpload. cbv zeta.
  destruct (sharp w b) as [pb|].
  2:{ destruct (multipart_catch_throws o sharp_error) as [e' ->]. discriminate. }
  destruct (writeFile_error w) as [e|].
  { destruct (multipart_catch_throws o e) as [e' ->]. discriminate. }
  destruct (multipart_error w _ _) as [e|].
  - match goal with |- context [multipart_catch ?o1 e] =>
      destruct (multipart_catch_throws o1 e) as [e' ->] end.
    discriminate.
  - intros [= <- <-]. now exists pb.
Qed.

Lemma uploadImage_throws (o o' : oss_state) (b : bytes) (name folder : str) (e : exn) :
  uploadImage w o b name folder = (Throw e, o') ->
  exn_code e = None /\ bucket o' = bucket o.
Proof.
  unfold uploadImage, client_put. cbv zeta.
  destruct (put_error w _ _) as [e0|]; [|discriminate].
  rewrite uploadImage_catch_eq. now intros [= <- <-].
Qed.

Lemma multipart_throws (o o' : oss_state) (b : bytes) (name folder : str) (e : exn) :
  multipartUploadImage w o b name folder = (Throw e, o') ->
  exn_code e = None /\ bucket o' = bucket o.
Proof.
  unfold multipartUploadImage, client_multipartUpload. cbv zeta.
  destruct (sharp w b) as [pb|].
  2:{ intros H. destruct (multipart_catch_code _ _ _ _ H) as [Hc ->]. now split. }
  destruct (writeFile_error w) as [e0|].
  { intros H. destruct (multipart_catch_code _ _ _ _ H) as [Hc ->]. now split. }
  destruct (multipart_error w _ _) as [e0|]; [|discriminate].
  intros H. destruct (multipart_catch_code _ _ _ _ H) as [Hc ->]. now split.
Qed.

End StorageResults.

(** X11: When the storage client rejects the put, [uploadImage] has called it
    once and does not call it again: the two retries on a signature
    mismatch name bindings of the [try] block and fail before they reach
    the client. The bucket is unchanged and the error thrown carries the
    message for the client's error code, the general one for a signature
    mismatch. *)
Theorem rejected_put_is_not_retried (w : world) (o : oss_state) (b : bytes)
  (name folder : str) (e : exn) :
  put_error w (object_key w folder) (default b (sharp w b)) = Some e ->
  uploadImage w o b name folder
  = (Throw (new_Error (put_failure_message e)),
     {| bucket := bucket o; calls := calls o ++ [CallPut (object_key w folder)] |})
  /\ (has_code e "SignatureDoesNotMatch" = true ->
      put_failure_message e = lit "图片上传失败，请稍后重试").
Proof.
  intros He. split.
  - unfold uploadImage, client_put. cbv zeta.
    destruct (sharp w b) as [pb|]; cbn in He; rewrite He;
      apply uploadImage_catch_eq.
  - unfold put_failure_message, has_code. destruct (exn_code e) as [c|]; [|discriminate].
    intros Hc. apply bool_decide_eq_true_1 in Hc. subst c.
    rewrite !bool_decide_eq_false_2; [reflexivity| | |]; vm_compute; discriminate.
Qed.

Lemma rejected_put_is_not_retried_witness :
  calls (snd (uploadImage (refusing_world "SignatureDoesNotMatch") empty_oss
                not_an_image (lit "holiday.png") FOLDER_POETRY))
  = [CallPut (object_key (refusing_world "SignatureDoesNotMatch") FOLDER_POETRY)].
Proof.
  rewrite (proj1 (rejected_put_is_not_retried (refusing_world "SignatureDoesNotMatch")
                    empty_oss not_an_image (lit "holiday.png") FOLDER_POETRY _
                    eq_refl)).
  reflexivity.
Defined.

(** X12: An upload from a URL that succeeds stores what was downloaded, after
    the re-encoding, under a fresh key of the given folder and names it
    [image_<time>.jpg]; the path is chosen by the number of bytes
    downloaded, and the public URL is the one [getImageUrl] gives for the
    key. *)
Theorem url_upload_stores_download (w : world) (x : remote) (o o' : oss_state)
  (imageUrl folder : str) (d : upload_data) :
  uploadImageFromUrl w x o imageUrl folder = (Return d, o') ->
  exists data obj,
    download x imageUrl = inl data
    /\ filename d = object_key w folder
    /\ originalName d = lit "image_" ++ to_decimal (download_now x) ++ EXT_JPG
    /\ url d = getImageUrl w (filename d)
    /\ mimetype d = IMAGE_JPEG
    /\ uploadMethod d
       = (if threshold <? N.of_nat (length data) then Some MULTIPART else None)
    /\ bucket o' !! filename d = Some obj
    /\ obj_body obj = default data (sharp w data)
    /\ size d = N.of_nat (length (obj_body obj))
    /\ ImageRoutes.upload_url w x o imageUrl (Some folder)
       = ({| code := 200; payload := BUpload d |}, o').
Proof.
  intros H.
  assert (Hr : ImageRoutes.upload_url w x o imageUrl (Some folder)
               = ({| code := 200; payload := BUpload d |}, o')).
  { unfold ImageRoutes.upload_url.
    change (default FOLDER_POETRY (Some folder)) with folder. now rewrite H. }
  revert H. unfold uploadImageFromUrl.
  destruct (download x imageUrl) as [data|[c s]]; [|discriminate]. cbv zeta.
  destruct (threshold <? N.of_nat (length data)) eqn:Et.
  - destruct (multipartUploadImage w o data _ folder) as [[d0|e] o0] eqn:E;
      [|discriminate].
    intros [= -> ->].
    destruct (multipart_result w _ _ _ _ _ _ E) as (stored & Hs & -> & ->).
    eexists data, _. cbn [filename originalName url mimetype uploadMethod size bucket].
    rewrite lookup_insert_eq, Hs, Et. now repeat split.
  - destruct (uploadImage w o data _ folder) as [[d0|e] o0] eqn:E; [|discriminate].
    intros [= -> ->].
    destruct (uploadImage_result w _ _ _ _ _ _ E) as (-> & ->).
    eexists data, _. cbn [filename originalName url mimetype uploadMethod size bucket].
    rewrite lookup_insert_eq, Et. now repeat split.
Qed.

Lemma url_upload_stores_download_witness :
  exists d o',
    uploadImageFromUrl (sample_world rejects good_reply None)
      (sample_remote (inl not_an_image)) empty_oss
      (lit "https://example.com/a.jpg") FOLDER_POETRY = (Return d, o')
    /\ obj_body <$> bucket o' !! filename d = Some not_an_image
    /\ originalName d = lit "image_1700000000001.jpg".
Proof.
  destruct (uploadImageFromUrl (sample_world rejects good_reply None)
              (sample_remote (inl not_an_image)) empty_oss
              (lit "https://example.com/a.jpg") FOLDER_POETRY)
    as [[d|e] o'] eqn:E; [|vm_compute in E; discriminate].
  destruct (url_upload_stores_download _ _ _ _ _ _ _ E)
    as (data & obj & Hd & _ & Hn & _ & _ & _ & Hb & Ho & _).
  exists d, o'. split; [reflexivity|]. rewrite Hb. cbn [fmap option_fmap option_map].
  rewrite Ho, Hn. injection Hd as <-. split; reflexivity.
Defined.

(** X13: An upload from a URL that fails leaves the bucket as it was. When the
    download succeeded the error thrown is the general one whatever made
    the storage step fail: the messages of the two upload paths for a
    missing bucket, a denied access or a time-out do not get through. When
    the download failed nothing was sent to storage. The router answers 500
    with the general message either way. *)
Theorem url_upload_failure_is_general (w : world) (x : remote) (o o' : oss_state)
  (imageUrl folder : str) (e : exn) :
  uploadImageFromUrl w x o imageUrl folder = (Throw e, o') ->
  bucket o' = bucket o
  /\ (forall data, download x imageUrl = inl data ->
        e = new_Error (lit "图片上传失败，请稍后重试"))
  /\ (forall c s, download x imageUrl = inr (c, s) ->
        o' = o /\ e = fromUrl_catch c s)
  /\ ImageRoutes.upload_url w x o imageUrl (Some folder)
     = ({| code := 500;
           payload := BError (lit "图片上传失败，请稍后重试") (details_of w e) |}, o').
Proof.
  intros H.
  assert (Hr : ImageRoutes.upload_url w x o imageUrl (Some folder)
               = ({| code := 500;
                     payload := BError (lit "图片上传失败，请稍后重试")
                                  (details_of w e) |}, o')).
  { unfold ImageRoutes.upload_url.
    change (default FOLDER_POETRY (Some folder)) with folder. now rewrite H. }
  revert H. unfold uploadImageFromUrl.
  destruct (download x imageUrl) as [data|[c s]].
  - cbv zeta. destruct (threshold <? N.of_nat (length data)).
    + destruct (multipartUploadImage w o data _ folder) as [[d0|e0] o0] eqn:E;
        [discriminate|].
      destruct (multipart_throws w _ _ _ _ _ _ E) as [Hc Hb]. rewrite Hc.
      intros [= <- <-]. split; [exact Hb|]. split; [reflexivity|].
      split; [discriminate|exact Hr].
    + destruct (uploadImage w o data _ folder) as [[d0|e0] o0] eqn:E;
        [discriminate|].
      destruct (uploadImage_throws w _ _ _ _ _ _ E) as [Hc Hb]. rewrite Hc.
      intros [= <- <-]. split; [exact Hb|]. split; [reflexivity|].
      split; [discriminate|exact Hr].
  - intros [= <- <-]. split; [reflexivity|]. split; [discriminate|].
    split; [|exact Hr]. now intros c0 s0 [= <- <-].
Qed.

Lemma url_upload_failure_is_general_witness :
  fst (uploadImageFromUrl (refusing_world "NoSuchBucket")
         (sample_remote (inl not_an_image)) empty_oss
         (lit "https://example.com/a.jpg") FOLDER_POETRY)
  = Throw (new_Error (lit "图片上传失败，请稍后重试"))
  /\ fst (uploadImage (refusing_world "NoSuchBucket") empty_oss not_an_image
            (lit "a.jpg") FOLDER_POETRY)
     = Throw (new_Error (lit "OSS存储桶不存在，请检查配置")).
Proof.
  split; [|vm_compute; reflexivity].
  match goal with |- fst ?c = _ => destruct c as [[d|e] o'] eqn:E end;
    [vm_compute in E; discriminate|].
  destruct (url_upload_failure_is_general _ _ _ _ _ _ _ E) as (_ & H & _).
  cbn [fst]. f_equal. exact (H not_an_image eq_refl).
Defined.

(** X14: Deleting through the image router. Without a name the answer is 400.
    When the client accepts the delete the answer is 200, the key is
    absent afterwards and every other object is as before; when it throws
    the answer is 500 and the bucket is unchanged. In particular what an
    upload has just stored can be deleted under the [filename] returned. *)
Theorem image_delete_removes_object (x : remote) (o : oss_state) (name : str) :
  name <> [] ->
  let answer := ImageRoutes.remove x o name in
  (remove_error x name = None ->
   code (fst answer) = 200
   /\ bucket (snd answer) !! name = None
   /\ (forall k, k <> name -> bucket (snd answer) !! k = bucket o !! k))
  /\ (remove_error x name <> None -> code (fst answer) = 500 /\ snd answer = o)
  /\ (forall w o0 b original folder d,
        uploadImage w o0 b original folder = (Return d, o) -> name = filename d ->
        bucket o !! name <> None).
Proof.
  intros Hn. cbv zeta. unfold ImageRoutes.remove, deleteImage.
  destruct name as [|c name]; [congruence|]. cbn [truthy negb].
  split; [|split].
  - intros ->. cbn [fst snd code bucket]. split; [reflexivity|].
    split; [apply lookup_delete_eq|]. intros k Hk. apply lookup_delete_ne. congruence.
  - destruct (remove_error x (c :: name)); [now split|congruence].
  - intros w o0 b original folder d H ->.
    destruct (uploadImage_result w _ _ _ _ _ _ H) as (-> & ->).
    cbn [filename bucket]. now rewrite lookup_insert_eq.
Qed.

Lemma image_delete_removes_object_witness :
  code (fst (ImageRoutes.remove (sample_remote (inl [])) empty_oss (lit "poetry/a.jpg")))
  = 200.
Proof.
  destruct (image_delete_removes_object (sample_remote (inl [])) empty_oss
              (lit "poetry/a.jpg")) as (H & _).
  - discriminate.
  - exact (proj1 (H eq_refl)).
Defined.

(* ===================================================================== *)
(** * The parser on a reply in the layout of the prompt *)
(* ===================================================================== *)

Section Layout.

Lemma trim_end_app_spaces (X ws : str) :
  forallb is_space ws = true -> trim_end (X ++ ws) = trim_end X.
Proof.
  induction ws as [|c ws IH] using rev_ind; intros H; [now rewrite app_nil_r|].
  rewrite forallb_app in H. apply andb_prop in H as [H1 H2].
  cbn [forallb] in H2. rewrite andb_true_r in H2.
  rewrite app_assoc, trim_end_snoc_space by exact H2. now apply IH.
Qed.

Lemma trim_start_spaces (ws s : str) :
  forallb is_space ws = true -> trim_start (ws ++ s) = trim_start s.
Proof.
  induction ws as [|c ws IH]; intros H; [reflexivity|].
  cbn [forallb] in H. apply andb_prop in H as [H1 H2].
  cbn [app trim_start]. rewrite H1. now apply IH.
Qed.

(** White space after a trimmed text is trimmed away. *)
Lemma trim_app_spaces (X ws : str) :
  trim X = X -> forallb is_space ws = true -> trim (X ++ ws) = X.
Proof.
  intros HX Hw. destruct X as [|c X].
  - cbn [app]. unfold trim. rewrite <- (app_nil_r ws), trim_start_spaces by exact Hw.
    reflexivity.
  - pose proof (trimmed_first c X HX) as Hc. unfold trim in *.
    rewrite trim_start_cons in HX by exact Hc.
    change ((c :: X) ++ ws) with (c :: X ++ ws).
    rewrite trim_start_cons by exact Hc.
    change (c :: X ++ ws) with ((c :: X) ++ ws).
    now rewrite trim_end_app_spaces.
Qed.

Lemma until_stop (stop : str -> bool) (s : str) : stop s = true -> until stop s = [].
Proof. intros H. destruct s as [|c s]; [reflexivity|]. cbn [until]. now rewrite H. Qed.

Lemma until_marker_description (Y : str) : until stop_description (MARK_POETRY ++ Y) = [].
Proof. apply until_stop. unfold stop_description. now rewrite starts_with_app. Qed.

Lemma until_marker_poetry (Y : str) : until stop_poetry (MARK_ANALYSIS ++ Y) = [].
Proof. apply until_stop. unfold stop_poetry. now rewrite starts_with_app. Qed.

Lemma no_star_app (X Y : str) :
  no_star X = true -> no_star Y = true -> no_star (X ++ Y) = true.
Proof. unfold no_star. intros HX HY. now rewrite forallb_app, HX, HY. Qed.

Lemma join_lines_cons (l : str) (ls : list str) :
  ls <> [] -> join_lines (l :: ls) = l ++ 10 :: join_lines ls.
Proof. destruct ls; [congruence|reflexivity]. Qed.

Lemma join_lines_no_star (ls : list str) :
  Forall plain_line ls -> no_star (join_lines ls) = true.
Proof.
  induction 1 as [|l ls Hl Hls IH]; [reflexivity|].
  destruct ls as [|l2 ls]; [apply Hl|].
  rewrite join_lines_cons by discriminate.
  apply no_star_app; [apply Hl|]. unfold no_star in *. cbn [forallb]. exact IH.
Qed.

Lemma join_lines_first (ls : list str) :
  ls <> [] -> Forall plain_line ls ->
  exists c s, join_lines ls = c :: s /\ is_space c = false.
Proof.
  intros Hne H. destruct H as [|l ls Hl Hls]; [congruence|].
  destruct (plain_line_first l Hl) as (c & l' & -> & Hc).
  destruct ls as [|l2 ls]; [now exists c, l'|].
  rewrite join_lines_cons by discriminate. now eexists c, _.
Qed.

Lemma join_lines_last (ls : list str) :
  ls <> [] -> Forall plain_line ls ->
  exists s c, join_lines ls = s ++ [c] /\ is_space c = false.
Proof.
  intros Hne H. induction H as [|l ls Hl Hls IH]; [congruence|].
  destruct ls as [|l2 ls].
  - destruct (plain_line_last l Hl) as (s & c & -> & Hc). now exists s, c.
  - destruct (IH ltac:(discriminate)) as (s & c & E & Hc).
    rewrite join_lines_cons by discriminate. rewrite E.
    exists (l ++ 10 :: s), c. split; [reassoc|exact Hc].
Qed.

Lemma trim_ends (X : str) (c d : N) (s' s'' : str) :
  X = c :: s' -> X = s'' ++ [d] -> is_space c = false -> is_space d = false ->
  trim X = X.
Proof.
  intros E1 E2 Hc Hd. destruct s'' as [|c2 s''].
  - subst X. injection E2 as -> ->. unfold trim. rewrite trim_start_cons by exact Hc.
    now apply (trim_end_snoc []).
  - rewrite E2. cbn [app]. cbn [app] in E2. rewrite E1 in E2. injection E2 as -> _.
    now apply trim_kept.
Qed.

Lemma join_lines_trimmed (ls : list str) :
  ls <> [] -> Forall plain_line ls -> trim (join_lines ls) = join_lines ls.
Proof.
  intros Hne H.
  destruct (join_lines_first ls Hne H) as (c & s & E1 & Hc).
  destruct (join_lines_last ls Hne H) as (s2 & d & E2 & Hd).
  exact (trim_ends _ c d s s2 E1 E2 Hc Hd).
Qed.

Lemma split_join_lines (ls : list str) :
  ls <> [] -> Forall plain_line ls -> split 10 (join_lines ls) = ls.
Proof.
  intros Hne H. induction H as [|l ls Hl Hls IH]; [congruence|].
  destruct Hl as (_ & _ & Hs & _).
  destruct ls as [|l2 ls].
  - cbn [join_lines]. apply split_no_sep. now apply single_line_no_lf.
  - rewrite join_lines_cons by discriminate.
    rewrite split_app by now apply single_line_no_lf.
    now rewrite IH.
Qed.

Lemma filter_nonblank_all (ls : list str) :
  Forall plain_line ls -> filter_nonblank ls = ls.
Proof.
  induction 1 as [|l ls (Ht & Hn & _) Hls IH]; [reflexivity|].
  unfold filter_nonblank in *. cbn [List.filter]. rewrite Ht, IH.
  destruct l; [congruence|reflexivity].
Qed.

Variables D T A : str.
Variable Ls : list str.
Hypothesis D_trimmed : trim D = D.
Hypothesis D_no_star : no_star D = true.
Hypothesis T_plain : plain_line T.
Hypothesis T_long : (2 <= length T)%nat.
Hypothesis Ls_some : Ls <> [].
Hypothesis Ls_plain : Forall plain_line Ls.
Hypothesis A_trimmed : trim A = A.

Lemma layout_body_trimmed :
  trim (T ++ 10 :: join_lines Ls) = T ++ 10 :: join_lines Ls.
Proof.
  destruct (plain_line_first T T_plain) as (c & s & E1 & Hc).
  destruct (join_lines_last Ls Ls_some Ls_plain) as (s2 & d & E2 & Hd).
  apply (trim_ends _ c d (s ++ 10 :: join_lines Ls) (T ++ 10 :: s2)); try assumption.
  - now rewrite E1.
  - rewrite E2. reassoc.
Qed.

Lemma layout_description :
  section_text MARK_DESCRIPTION stop_description DEFAULT_DESCRIPTION
    (formatted_reply D T Ls A) = D.
Proof.
  unfold section_text, formatted_reply. rewrite after_found.
  cbn [trim_start]. change (is_space 10) with true. cbv iota.
  match goal with |- context [MARK_POETRY ++ ?z] => set (Z := z) end.
  destruct D as [|d D'] eqn:ED.
  - cbn [app trim_start]. change (is_space 10) with true. cbv iota.
    unfold MARK_POETRY at 1. cbn [app trim_start]. change (is_space 42) with false.
    cbv iota.
    change (42 :: 42 :: 35799 :: 27468 :: 65306 :: 42 :: 42 :: Z)
      with (MARK_POETRY ++ Z).
    now rewrite until_marker_description.
  - rewrite <- ED in *. assert (Hd : is_space d = false).
    { rewrite ED in D_trimmed. now apply trimmed_first in D_trimmed. }
    assert (E1 : forall Y, trim_start (D ++ Y) = D ++ Y).
    { intros Y. rewrite ED. cbn [app]. now apply trim_start_cons. }
    rewrite E1, (until_no_star _ _ _ stop_description_star D_no_star).
    rewrite !(until_lf _ _ stop_description_star), until_marker_description.
    now apply trim_app_spaces.
Qed.

Lemma layout_after_poetry :
  after MARK_POETRY (formatted_reply D T Ls A)
  = Some (10 :: T ++ 10 :: join_lines Ls ++ 10 :: 10 :: MARK_ANALYSIS ++ 10 :: A).
Proof.
  unfold formatted_reply.
  match goal with |- context [MARK_POETRY ++ ?z] => set (Z := z) end.
  replace (MARK_DESCRIPTION ++ 10 :: D ++ 10 :: 10 :: MARK_POETRY ++ Z)
    with ((MARK_DESCRIPTION ++ [10]) ++ D ++ 10 :: ([] ++ 10 :: MARK_POETRY ++ Z))
    by reassoc.
  rewrite after_not_inside by (assumption || reflexivity).
  rewrite after_no_star by reflexivity.
  apply after_found.
Qed.

Lemma layout_poetry :
  section_text MARK_POETRY stop_poetry (formatted_reply D T Ls A)
    (formatted_reply D T Ls A) = T ++ 10 :: join_lines Ls.
Proof.
  unfold section_text. rewrite layout_after_poetry.
  cbn [trim_start]. change (is_space 10) with true. cbv iota.
  destruct (plain_line_first T T_plain) as (t & T' & ET & Ht).
  assert (E1 : forall Z, trim_start (T ++ Z) = T ++ Z).
  { intros Z. rewrite ET. cbn [app]. now apply trim_start_cons. }
  destruct T_plain as (_ & _ & _ & HT).
  rewrite E1, (until_no_star _ _ _ stop_poetry_star HT).
  rewrite (until_lf _ _ stop_poetry_star).
  rewrite (until_no_star _ _ _ stop_poetry_star (join_lines_no_star Ls Ls_plain)).
  rewrite !(until_lf _ _ stop_poetry_star), until_marker_poetry.
  replace (T ++ 10 :: join_lines Ls ++ [10; 10])
    with ((T ++ 10 :: join_lines Ls) ++ [10; 10]) by reassoc.
  apply trim_app_spaces; [apply layout_body_trimmed|reflexivity].
Qed.

Lemma layout_analysis :
  section_text MARK_ANALYSIS stop_analysis DEFAULT_ANALYSIS
    (formatted_reply D T Ls A) = A.
Proof.
  destruct T_plain as (_ & _ & _ & HT).
  unfold section_text, formatted_reply.
  match goal with |- context [MARK_ANALYSIS ++ ?z] => set (Z := z) end.
  replace (MARK_DESCRIPTION ++ 10 :: D ++ 10 :: 10 :: MARK_POETRY ++ 10 :: T ++ 10 ::
             join_lines Ls ++ 10 :: 10 :: MARK_ANALYSIS ++ Z)
    with ((MARK_DESCRIPTION ++ [10]) ++ D ++ 10 ::
          ((10 :: MARK_POETRY ++ [10]) ++ T ++ 10 ::
           (join_lines Ls ++ 10 :: ([] ++ 10 :: MARK_ANALYSIS ++ Z))))
    by reassoc.
  rewrite after_not_inside by (assumption || reflexivity).
  rewrite after_not_inside by (assumption || reflexivity).
  rewrite (after_no_star MARK_ANALYSIS (join_lines Ls))
    by (apply join_lines_no_star; assumption) || reflexivity.
  rewrite after_no_star by reflexivity.
  rewrite after_found, until_is_nil. unfold Z.
  cbn [trim_start]. change (is_space 10) with true. cbv iota.
  unfold trim in *. now rewrite trim_start_idem.
Qed.

Lemma layout_parse_try :
  parse_try (formatted_reply D T Ls A)
  = Return {| poetry := Ls; imageDescription := D; analysis := A; title := Some T |}.
Proof.
  unfold parse_try.
  rewrite description_text, bind_Return, poetry_text, bind_Return.
  rewrite layout_description, layout_poetry.
  destruct T_plain as (HT & HN & HS & _).
  rewrite (title_exec T (join_lines Ls) HN HS).
  unfold group1_trim. cbn [m_end cap]. rewrite !bind_Return. rewrite HT.
  assert (Ht : truthy_opt (Some T) = true) by (destruct T; [congruence|reflexivity]).
  assert (Hs : title_missing_or_short (Some T) = false).
  { unfold title_missing_or_short. rewrite Ht. cbn [negb orb].
    apply Nat.ltb_ge. exact T_long. }
  rewrite Ht, Hs. cbn [andb].
  rewrite analysis_text, bind_Return, layout_analysis.
  rewrite (title_line_replace T (join_lines Ls) HN HS).
  rewrite (join_lines_trimmed Ls Ls_some Ls_plain).
  rewrite (split_join_lines Ls Ls_some Ls_plain), (filter_nonblank_all Ls Ls_plain).
  reflexivity.
Qed.

Lemma layout_trimmed : A <> [] -> trim (formatted_reply D T Ls A) = formatted_reply D T Ls A.
Proof.
  intros HA. destruct (exists_last HA) as (A' & a & EA).
  assert (Ha : is_space a = false).
  { rewrite EA in A_trimmed. now apply trimmed_last in A_trimmed. }
  unfold formatted_reply, MARK_DESCRIPTION at 1. cbn [app].
  eapply (trim_ends _ 42 a); [reflexivity| |reflexivity|exact Ha].
  rewrite EA. rewrite !app_comm_cons.
  repeat (rewrite !app_assoc || rewrite !app_comm_cons). reflexivity.
Qed.

End Layout.

Lemma prompt_ends_with_layout (w : world) (style : str) :
  exists request, buildImagePoetryPrompt w style = request ++ prompt_layout.
Proof.
  unfold buildImagePoetryPrompt.
  match goal with |- exists request, ?a ++ ?sp ++ ?b = _ =>
    exists (a ++ sp ++ take (length b - length prompt_layout)%nat b);
    transitivity (a ++ sp ++ (take (length b - length prompt_layout)%nat b
                                ++ prompt_layout));
    [do 2 f_equal; vm_compute; reflexivity|]
  end.
  now rewrite <- !app_assoc.
Qed.

Lemma prompt_layout_parse (D T : str) (Ls : list str) (A : str) :
  trim D = D -> no_star D = true ->
  plain_line T -> (2 <= length T)%nat ->
  Ls <> [] -> Forall plain_line Ls ->
  trim A = A ->
  parsePoetryResult (formatted_reply D T Ls A)
  = Return {| poetry := Ls; imageDescription := D; analysis := A; title := Some T |}.
Proof.
  intros HD1 HD2 HT1 HT2 HL1 HL2 HA. unfold parsePoetryResult.
  now rewrite (layout_parse_try D T A Ls HD1 HD2 HT1 HT2 HL1 HL2 HA).
Qed.

(** X15: The prompt asks for the layout [formatted_reply]; a reply in that
    layout, with a title of at least two units, any number of poem lines
    and fields that hold no marker and nothing to trim, is parsed into
    exactly its fields. *)
Theorem prompt_layout_round_trip (D T : str) (Ls : list str) (A : str) :
  trim D = D -> no_star D = true ->
  plain_line T -> (2 <= length T)%nat ->
  Ls <> [] -> Forall plain_line Ls ->
  trim A = A ->
  parsePoetryResult (formatted_reply D T Ls A)
  = Return {| poetry := Ls; imageDescription := D; analysis := A; title := Some T |}
  /\ (forall w style, exists request,
        buildImagePoetryPrompt w style = request ++ prompt_layout).
Proof.
  intros HD1 HD2 HT1 HT2 HL1 HL2 HA. split.
  - now apply prompt_layout_parse.
  - intros w style. apply prompt_ends_with_layout.
Qed.

Lemma prompt_layout_round_trip_witness :
  parsePoetryResult
    (formatted_reply (lit "一座山") (lit "春日即景")
       [lit "山水如画意境深"; lit "清风徐来花满林"; lit "诗情画意共此时"]
       (lit "色彩丰富"))
  = Return {| poetry := [lit "山水如画意境深"; lit "清风徐来花满林";
                         lit "诗情画意共此时"];
              imageDescription := lit "一座山"; analysis := lit "色彩丰富";
              title := Some (lit "春日即景") |}.
Proof.
  assert (P : forall l, trim l = l -> l <> [] -> single_line l = true ->
                        no_star l = true -> plain_line l) by (intros; now repeat split).
  apply (prompt_layout_round_trip (lit "一座山") (lit "春日即景")
           [lit "山水如画意境深"; lit "清风徐来花满林"; lit "诗情画意共此时"]
           (lit "色彩丰富")).
  - reflexivity.
  - reflexivity.
  - apply P; [reflexivity|discriminate|reflexivity|reflexivity].
  - vm_compute. lia.
  - discriminate.
  - repeat constructor; try discriminate.
  - reflexivity.
Defined.

(* ===================================================================== *)
(** * The parser on any reply *)
(* ===================================================================== *)

Section AnyReply.

Lemma parse_returns (s : str) : exists r, parsePoetryResult s = Return r.
Proof.
  unfold parsePoetryResult, try_catch.
  destruct (parse_try_cases s) as [[e ->]|(r & -> & _)]; now eexists.
Qed.

Lemma after_absent (m s : str) : includes m s = false -> after m s = None.
Proof.
  induction s as [|c s IH]; cbn [includes after]; intros H;
    apply orb_false_elim in H as [H1 H2]; rewrite H1; [reflexivity|now apply IH].
Qed.

Lemma starts_with_app_r (m p s : str) :
  starts_with m p = true -> starts_with m (p ++ s) = true.
Proof.
  revert p. induction m as [|a m IH]; intros p H; [reflexivity|].
  destruct p as [|b p]; [discriminate|]. cbn [app starts_with] in *.
  apply andb_prop in H as [H1 H2]. now rewrite H1, IH.
Qed.

Lemma includes_app_r (m p s : str) :
  includes m p = true -> includes m (p ++ s) = true.
Proof.
  induction p as [|b p IH]; cbn [includes app]; intros H.
  - rewrite orb_false_r in H. destruct m; [|discriminate]. now destruct s.
  - apply orb_prop in H as [H|H].
    + change (b :: p ++ s) with ((b :: p) ++ s). now rewrite starts_with_app_r.
    + rewrite IH by exact H. apply orb_true_r.
Qed.

Lemma includes_app_l (m p s : str) :
  includes m s = true -> includes m (p ++ s) = true.
Proof.
  intros H. induction p as [|b p IH]; [exact H|].
  cbn [app includes]. rewrite IH. apply orb_true_r.
Qed.

Lemma trim_start_suffix (s : str) : exists p, s = p ++ trim_start s.
Proof.
  induction s as [|c s [p IH]]; [now exists []|]. cbn [trim_start].
  destruct (is_space c); [|now exists []].
  exists (c :: p). cbn [app]. now rewrite <- IH.
Qed.

Lemma trim_end_prefix (s : str) : exists q, s = trim_end s ++ q.
Proof.
  unfold trim_end. destruct (trim_start_suffix (rev s)) as [p E].
  exists (rev p). rewrite <- rev_app_distr, <- E. now rewrite rev_involutive.
Qed.

Lemma until_prefix (stop : str -> bool) (s : str) : exists q, s = until stop s ++ q.
Proof.
  induction s as [|c s [q IH]]; [now exists []|]. cbn [until].
  destruct (stop (c :: s)); [now eexists|].
  exists q. cbn [app]. now rewrite <- IH.
Qed.

Lemma after_suffix (m s r : str) : after m s = Some r -> exists p, s = p ++ r.
Proof.
  induction s as [|c s IH]; cbn [after].
  - destruct (starts_with m []); [|discriminate]. intros [= <-].
    exists []. now rewrite drop_nil.
  - destruct (starts_with m (c :: s)).
    + intros [= <-]. exists (take (length m) (c :: s)). now rewrite take_drop.
    + intros H. destruct (IH H) as [p ->]. now exists (c :: p).
Qed.

Lemma includes_trim (m x : str) : includes m x = false -> includes m (trim x) = false.
Proof.
  intros H. destruct (includes m (trim x)) eqn:E; [|reflexivity].
  unfold trim in E. destruct (trim_end_prefix (trim_start x)) as [q Eq].
  destruct (trim_start_suffix x) as [p Ep].
  apply (includes_app_r _ _ q) in E. rewrite <- Eq in E.
  apply (includes_app_l _ p) in E. rewrite <- Ep in E. congruence.
Qed.

(** The text a lazy group takes holds no marker it stops in front of. *)
Lemma until_excludes (m : str) (stop : str -> bool) (s : str) :
  m <> [] -> (forall x, starts_with m x = true -> stop x = true) ->
  includes m (until stop s) = false.
Proof.
  intros Hm Hs. induction s as [|c s IH].
  - destruct m; [congruence|reflexivity].
  - cbn [until]. destruct (stop (c :: s)) eqn:E.
    + destruct m; [congruence|reflexivity].
    + cbn [includes]. rewrite IH, orb_false_r.
      destruct (starts_with m (c :: until stop s)) eqn:E2; [|reflexivity].
      destruct (until_prefix stop s) as [q Eq].
      apply (starts_with_app_r _ _ q) in E2. cbn [app] in E2. rewrite <- Eq in E2.
      apply Hs in E2. congruence.
Qed.

Lemma description_excludes (m : str) (s : str) :
  m <> [] -> includes m DEFAULT_DESCRIPTION = false ->
  (forall x, starts_with m x = true -> stop_description x = true) ->
  includes m (section_text MARK_DESCRIPTION stop_description DEFAULT_DESCRIPTION s)
  = false.
Proof.
  intros Hm Hd Hs. unfold section_text.
  destruct (after MARK_DESCRIPTION s) as [r|]; [|exact Hd].
  apply includes_trim. now apply until_excludes.
Qed.

Lemma forallb_section (f : N -> bool) (m : str) (stop : str -> bool) (s : str) :
  forallb f s = true -> forallb f (section_text m stop s s) = true.
Proof.
  intros H. unfold section_text. destruct (after m s) as [r|] eqn:E; [|exact H].
  destruct (after_suffix m s r E) as [p ->].
  rewrite forallb_app in H. apply andb_prop in H as [_ H].
  destruct (trim_start_suffix r) as [p1 E1]. rewrite E1, forallb_app in H.
  apply andb_prop in H as [_ H].
  destruct (until_prefix stop (trim_start r)) as [q2 E2]. rewrite E2, forallb_app in H.
  apply andb_prop in H as [H _].
  destruct (trim_start_suffix (until stop (trim_start r))) as [p3 E3].
  rewrite E3, forallb_app in H. apply andb_prop in H as [_ H].
  destruct (trim_end_prefix (trim_start (until stop (trim_start r)))) as [q4 E4].
  rewrite E4, forallb_app in H. now apply andb_prop in H as [H _].
Qed.

Lemma exec_from_eq (r : regex) (i : nat) (s : str) :
  exec_from r i s =
  match rmatch r {| pos := i; rest := s; cap := None |} Some with
  | Some st => Some {| m_index := i; m_end := st |}
  | None => match s with [] => None | _ :: s' => exec_from r (S i) s' end
  end.
Proof. now destruct s. Qed.

Lemma exec_from_anchored (r : regex) (s : str) (i : nat) :
  exec_from (Seq Bol r) (S i) s = None.
Proof.
  revert i. induction s as [|c s IH]; intros i; rewrite exec_from_eq, rmatch_Seq,
    rmatch_Bol; cbn [pos Nat.eqb]; [reflexivity|apply IH].
Qed.

(** The lazy run of [.] in front of a line feed: the text read is one
    line. *)
Lemma lazy_dot_inv (k : mstate -> option mstate) :
  (forall st, is_Some (k st) -> exists R, rest st = 10 :: R) ->
  forall (fuel : nat) (st : mstate),
    is_Some (star_loop (rmatch (Cls CDot)) false k fuel st) ->
    exists T R, rest st = T ++ 10 :: R /\ single_line T = true.
Proof.
  intros Hk. induction fuel as [|fuel IH]; intros st H; cbn [star_loop] in H.
  - destruct (Hk st H) as [R E]. now exists [], R.
  - destruct (k st) as [x|] eqn:K.
    + destruct (Hk st ltac:(rewrite K; eauto)) as [R E]. now exists [], R.
    + cbn [or_else] in H. rewrite rmatch_Cls in H.
      destruct (rest st) as [|x s'] eqn:E; [now destruct H|].
      destruct (in_class CDot x) eqn:C; [|now destruct H].
      destruct (pos st <? pos (advance st s'))%nat; [|now destruct H].
      destruct (IH _ H) as (T' & R & E' & HT). cbn [advance rest] in E'.
      exists (x :: T'), R. split; [now rewrite E'|].
      unfold single_line in *. cbn [forallb]. cbn [in_class] in C. now rewrite C.
Qed.

Lemma title_exec_inv (P : str) (m : rmatch_result) :
  exec RE_TITLE P = Some m ->
  exists T R, P = T ++ 10 :: R /\ T <> [] /\ single_line T = true.
Proof.
  unfold exec. rewrite exec_from_eq.
  destruct (rmatch RE_TITLE {| pos := 0; rest := P; cap := None |} Some) as [st|] eqn:E.
  2:{ destruct P; [discriminate|]. unfold RE_TITLE. now rewrite exec_from_anchored. }
  intros _. revert E. unfold RE_TITLE, Plus.
  rewrite rmatch_Seq, rmatch_Bol. cbn [pos Nat.eqb].
  rewrite rmatch_Seq, rmatch_Group, rmatch_Seq, rmatch_Cls. cbn [rest].
  destruct P as [|x s']; [discriminate|].
  destruct (in_class CDot x) eqn:C; [|discriminate].
  rewrite rmatch_Star. intros E.
  match type of E with star_loop _ _ ?k ?n ?st0 = _ =>
    assert (Hk : forall st, is_Some (k st) -> exists R, rest st = 10 :: R);
    [|destruct (lazy_dot_inv k Hk n st0) as (T' & R & E' & HT)]
  end.
  - intros st1 H. rewrite rmatch_Chr in H. cbn [rest] in H.
    destruct (rest st1) as [|y R]; [now destruct H|].
    destruct (y =? 10) eqn:Y; [|now destruct H].
    apply N.eqb_eq in Y. subst y. now exists R.
  - rewrite E. eauto.
  - cbn [advance rest] in E'. exists (x :: T'), R. split; [now rewrite E'|].
    split; [discriminate|]. unfold single_line in *. cbn [forallb].
    cbn [in_class] in C. now rewrite C.
Qed.

End AnyReply.

(** X16: What the parser makes of the markers. When a reply lacks the
    description marker the description returned is the canned one, and
    likewise for the analysis; and the description returned never holds
    the poem marker or the analysis marker. *)
Theorem sections_default_and_stop (s : str) (r : parsed) :
  parsePoetryResult s = Return r ->
  (includes MARK_DESCRIPTION s = false -> imageDescription r = DEFAULT_DESCRIPTION)
  /\ (includes MARK_ANALYSIS s = false -> analysis r = DEFAULT_ANALYSIS)
  /\ includes MARK_POETRY (imageDescription r) = false
  /\ includes MARK_ANALYSIS (imageDescription r) = false.
Proof.
  assert (HP : includes MARK_POETRY
                 (section_text MARK_DESCRIPTION stop_description DEFAULT_DESCRIPTION s)
               = false).
  { apply description_excludes; [discriminate|reflexivity|].
    intros x H. unfold stop_description. now rewrite H. }
  assert (HA : includes MARK_ANALYSIS
                 (section_text MARK_DESCRIPTION stop_description DEFAULT_DESCRIPTION s)
               = false).
  { apply description_excludes; [discriminate|reflexivity|].
    intros x H. unfold stop_description. rewrite H. apply orb_true_r. }
  assert (Fallback : forall e, parse_catch s e = Return r ->
            (includes MARK_DESCRIPTION s = false ->
             imageDescription r = DEFAULT_DESCRIPTION)
            /\ (includes MARK_ANALYSIS s = false -> analysis r = DEFAULT_ANALYSIS)
            /\ includes MARK_POETRY (imageDescription r) = false
            /\ includes MARK_ANALYSIS (imageDescription r) = false).
  { intros e [= <-]. now repeat split. }
  assert (Sections : forall p t,
            Return {| poetry := p;
                      imageDescription :=
                        section_text MARK_DESCRIPTION stop_description
                          DEFAULT_DESCRIPTION s;
                      analysis :=
                        section_text MARK_ANALYSIS stop_analysis DEFAULT_ANALYSIS s;
                      title := t |} = Return r ->
            (includes MARK_DESCRIPTION s = false ->
             imageDescription r = DEFAULT_DESCRIPTION)
            /\ (includes MARK_ANALYSIS s = false -> analysis r = DEFAULT_ANALYSIS)
            /\ includes MARK_POETRY (imageDescription r) = false
            /\ includes MARK_ANALYSIS (imageDescription r) = false).
  { intros p t [= <-]. cbn [imageDescription analysis].
    split; [|split; [|split; [exact HP|exact HA]]]; intros H;
      unfold section_text; now rewrite (after_absent _ _ H). }
  unfold parsePoetryResult, try_catch, parse_try.
  rewrite description_text, bind_Return, poetry_text, bind_Return.
  destruct (exec RE_TITLE _) as [m|].
  - destruct (group1_trim m) as [c|e]; [|apply Fallback].
    rewrite !bind_Return.
    match goal with |- context [if ?b then _ else _] => destruct b end;
      [apply Fallback|].
    rewrite analysis_text, bind_Return. apply Sections.
  - rewrite bind_Return.
    match goal with |- context [if ?b then _ else _] => destruct b end;
      [apply Fallback|].
    rewrite analysis_text, bind_Return. apply Sections.
Qed.

Lemma sections_default_and_stop_witness :
  exists r,
    parsePoetryResult (lit "**诗歌：**春日即景
山水如画意境深
清风徐来花满林") = Return r
    /\ imageDescription r = DEFAULT_DESCRIPTION
    /\ analysis r = DEFAULT_ANALYSIS.
Proof.
  destruct (parse_returns (lit "**诗歌：**春日即景
山水如画意境深
清风徐来花满林")) as [r Hr].
  destruct (sections_default_and_stop _ r Hr) as (H1 & H2 & _).
  exists r. split; [exact Hr|]. split; [apply H1|apply H2]; reflexivity.
Defined.

(** X17: A title that is returned is the first line of the poem section,
    trimmed: that section has a line feed, what precedes the first one is
    a non-empty line, and the lines returned are those of the rest (of
    the whole section when the trimmed title is empty). A reply without a
    line feed therefore gets no title. *)
Theorem returned_title_is_first_line (s : str) (r : parsed) :
  parsePoetryResult s = Return r ->
  (forall t, title r = Some t ->
     exists T R,
       section_text MARK_POETRY stop_poetry s s = T ++ 10 :: R
       /\ T <> [] /\ single_line T = true /\ t = trim T
       /\ poetry r
          = filter_nonblank (split 10 (if truthy t then trim R else T ++ 10 :: R)))
  /\ (no_lf s = true -> title r = None).
Proof.
  intros H.
  assert (Main : forall t, title r = Some t ->
            exists T R,
              section_text MARK_POETRY stop_poetry s s = T ++ 10 :: R
              /\ T <> [] /\ single_line T = true /\ t = trim T
              /\ poetry r
                 = filter_nonblank
                     (split 10 (if truthy t then trim R else T ++ 10 :: R))).
  { revert H. unfold parsePoetryResult, try_catch, parse_try.
    rewrite description_text, bind_Return, poetry_text, bind_Return.
    destruct (exec RE_TITLE _) as [m|] eqn:E.
    - destruct (title_exec_inv _ m E) as (T & R & EP & HN & HS).
      rewrite EP in *. rewrite (title_exec T R HN HS) in E. injection E as <-.
      unfold group1_trim. cbn [m_end cap]. rewrite !bind_Return.
      rewrite (title_line_replace T R HN HS). cbn [truthy_opt].
      match goal with |- context [if ?b then Throw _ else _] => destruct b end;
        [intros [= <-]; discriminate|].
      rewrite analysis_text, bind_Return. intros [= <-] t [= <-].
      exists T, R. now repeat split.
    - rewrite bind_Return.
      match goal with |- context [if ?b then Throw _ else _] => destruct b end;
        [intros [= <-]; discriminate|].
      rewrite analysis_text, bind_Return. intros [= <-]. discriminate. }
  split; [exact Main|].
  intros Hs. destruct (title r) as [t|] eqn:Et; [|reflexivity].
  destruct (Main t eq_refl) as (T & R & EP & _).
  pose proof (forallb_section _ MARK_POETRY stop_poetry s Hs) as HP.
  rewrite EP, forallb_app in HP. apply andb_prop in HP as [_ HP].
  discriminate.
Qed.

Lemma returned_title_is_first_line_witness :
  exists r,
    parsePoetryResult (lit "**诗歌：**春日即景 山水如画意境深") = Return r
    /\ title r = None.
Proof.
  destruct (parse_returns (lit "**诗歌：**春日即景 山水如画意境深")) as [r Hr].
  exists r. split; [exact Hr|].
  apply (returned_title_is_first_line _ r Hr). reflexivity.
Defined.

(* ===================================================================== *)
(** * The model call, and a reply in the layout through the whole flow *)
(* ===================================================================== *)

Section ModelCall.

Variable w : world.

Lemma try_parse (s : str) (h : exn -> completion parsed) :
  try_catch (parsePoetryResult s) h = parsePoetryResult s.
Proof. destruct (parse_returns s) as [r ->]. reflexivity. Qed.

Lemma generate_on_reply (input : image_input) (style text : str) :
  replies w text ->
  generatePoetryFromImage w input style = parsePoetryResult (trim text).
Proof.
  intros H. unfold generatePoetryFromImage. cbv zeta.
  match goal with |- context [https w ?r ?p] =>
    destruct (H r p) as (r0 & -> & Hs & Hc) end.
  rewrite bind_Return, Hs, Hc. cbn [N.eqb Pos.eqb negb]. rewrite bind_Return.
  apply try_parse.
Qed.

(** A request with an image always reaches the model. *)
Lemma inference_call_input (req : generate_request) (o : oss_state) (style : str) :
  has_image req = true ->
  exists input,
    inference_call w req (fst (upload_step w o req)) style
    = generatePoetryFromImage w input style.
Proof.
  unfold has_image, inference_call, upload_step. intros H.
  destruct (req_file req) as [f|].
  - match goal with |- context [truthy_opt ?x] => destruct (truthy_opt x) end;
      now eexists.
  - cbn [fst]. destruct (truthy_opt (req_imageUrl req)); [now eexists|].
    destruct (truthy_opt (req_imageBuffer req)); [now eexists|].
    rewrite bool_decide_eq_false_2 in H by (intros [x Hx]; discriminate).
    discriminate.
Qed.

End ModelCall.

(** X18: The model call returns exactly when the endpoint answers 200 with a
    text, and then it returns what the parser makes of the trimmed text.
    Otherwise it throws an error without a code whose message is one of
    five fixed texts, so nothing the endpoint sent gets through. *)
Theorem model_call_returns_parsed_reply (w : world) (input : image_input)
  (style : str) :
  let ref := match input with InBuffer b => DataUri b | InUrl u => RemoteUrl u end in
  (forall p,
     generatePoetryFromImage w input style = Return p <->
     exists r c,
       https w ref (buildImagePoetryPrompt w style) = Return r
       /\ status r = 200 /\ content r = Some c
       /\ parsePoetryResult (trim c) = Return p)
  /\ (forall e,
        generatePoetryFromImage w input style = Throw e ->
        exn_code e = None
        /\ In (exn_message e)
             [ lit "图片格式不支持，请使用JPEG、PNG等常见格式";
               lit "图片文件过大，请压缩后重试";
               lit "API密钥无效，请检查配置";
               lit "API调用频率过高，请稍后重试";
               lit "诗歌生成失败，请稍后重试" ]).
Proof.
  cbv zeta.
  assert (Caught : forall e0 e,
            Throw (generate_catch e0) = (Throw e : completion parsed) ->
            exn_code e = None
            /\ In (exn_message e)
                 [ lit "图片格式不支持，请使用JPEG、PNG等常见格式";
                   lit "图片文件过大，请压缩后重试";
                   lit "API密钥无效，请检查配置";
                   lit "API调用频率过高，请稍后重试";
                   lit "诗歌生成失败，请稍后重试" ]).
  { intros e0 e. unfold generate_catch.
    match goal with |- context [if ?b then _ else _] => destruct b end;
      [intros [= <-]; cbn [exn_message exn_code new_Error]; split; [reflexivity|left; reflexivity]|].
    match goal with |- context [if ?b then _ else _] => destruct b end;
      [intros [= <-]; cbn [exn_message exn_code new_Error]; split; [reflexivity|right; left; reflexivity]|].
    match goal with |- context [if ?b then _ else _] => destruct b end;
      [intros [= <-]; cbn [exn_message exn_code new_Error]; split; [reflexivity|do 2 right; left; reflexivity]|].
    match goal with |- context [if ?b then _ else _] => destruct b end;
      [intros [= <-]; cbn [exn_message exn_code new_Error]; split; [reflexivity|do 3 right; left; reflexivity]|].
    intros [= <-]. cbn [exn_message exn_code new_Error].
    split; [reflexivity|do 4 right; left; reflexivity]. }
  unfold generatePoetryFromImage. cbv zeta.
  destruct (https w _ _) as [r|e0].
  - rewrite bind_Return. destruct (status r =? 200) eqn:Hs; cbn [negb].
    + apply N.eqb_eq in Hs. destruct (content r) as [c|] eqn:Hc.
      * rewrite bind_Return, try_parse. split.
        -- intros p. split; [intros H; now exists r, c|].
           intros (r' & c' & [= <-] & _ & Hc' & H). rewrite Hc in Hc'.
           now injection Hc' as <-.
        -- intros e H. destruct (parse_returns (trim c)) as [p Hp]. congruence.
      * rewrite bind_Throw. cbn [try_catch]. split.
        -- intros p. split; [discriminate|].
           intros (r' & c' & [= <-] & _ & H & _). congruence.
        -- apply Caught.
    + cbn [try_catch]. split.
      * intros p. split; [discriminate|].
        intros (r' & c' & [= <-] & H & _). rewrite H in Hs. discriminate.
      * apply Caught.
  - rewrite bind_Throw. cbn [try_catch]. split.
    + intros p. split; [discriminate|]. now intros (r' & c' & H & _).
    + apply Caught.
Qed.

(** X19: A reply in the layout of the prompt goes through the whole flow
    unchanged: with the table reachable and its next key free, the answer is 201
    with the key of a new row, the poem lines, the title and the
    description of the reply, and the new row holds the same. *)
Theorem reply_in_layout_is_stored_and_returned (w : world) (st : state)
  (req : generate_request) (t : table) (D T : str) (Ls : list str) (A : str) :
  has_image req = true ->
  replies w (formatted_reply D T Ls A) ->
  trim D = D -> no_star D = true ->
  plain_line T -> (2 <= length T)%nat ->
  Ls <> [] -> Forall plain_line Ls ->
  trim A = A -> A <> [] ->
  db st = Some t -> rows t !! next_id t = None -> insert_error w = None ->
  exists g r,
    fst (generatePoetry w st req) = {| code := 201; payload := BGenerate g |}
    /\ g_id g = RowId (next_id t)
    /\ g_content g = Ls
    /\ g_title g = Some T
    /\ g_description g = D
    /\ g_length g = N.of_nat (length Ls)
    /\ g_note g = None
    /\ row_at (snd (generatePoetry w st req)) (next_id t) = Some r
    /\ p_content (r_poetry r) = Ls
    /\ p_title (r_poetry r) = Some T
    /\ rec_description (r_recognition r) = D.
Proof.
  intros Hi Hr HD1 HD2 HT1 HT2 HL1 HL2 HA1 HA2 Hdb Hb Hins.
  destruct (inference_call_input w req (oss st) (default GUFENG (req_style req)) Hi)
    as [input Hin].
  rewrite (generate_on_reply w input _ _ Hr) in Hin.
  rewrite (layout_trimmed D T A Ls HA1 HA2) in Hin.
  pose proof (prompt_layout_parse D T Ls A HD1 HD2 HT1 HT2 HL1 HL2 HA1) as Hp.
  rewrite Hp in Hin.
  unfold generatePoetry. rewrite Hi. cbn [negb]. cbv zeta.
  destruct (upload_step w (oss st) req) as [final o']. cbn [fst] in Hin.
  unfold inference_step. rewrite Hin.
  match goal with |- context [persist_step w ?d ?q ?f ?s ?x ?z] =>
    destruct (persist_step_answer w d q f s x z Ls eq_refl)
      as (g & d' & -> & Hc & Ht & _ & Hn & Hde & _ & _ & Hcase)
  end.
  cbn [of_parsed res_title res_imageDescription title imageDescription] in *.
  destruct Hcase as [(t0 & r & Hd & _ & -> & Hid & Hno & _ & Hpc & Hpt & _ & Hrec & _)
                    |(_ & _ & _ & Hwhy)].
  - rewrite Hdb in Hd. injection Hd as <-.
    exists g, r. cbn [fst snd]. unfold row_at. cbn [db row_in rows].
    rewrite lookup_insert_eq. now repeat split.
  - exfalso. rewrite Hdb in *. destruct Hwhy as [H|[H|(t0 & x & [= <-] & H)]];
      [discriminate|contradiction|].
    congruence.
Qed.

Lemma reply_in_layout_is_stored_and_returned_witness :
  exists g,
    fst (generatePoetry
           (sample_world re_encodes
              (Return {| status := 200; data_text := lit "[object Object]";
                         content :=
                           Some (formatted_reply (lit "一座山") (lit "春日即景")
                                   [lit "山水如画意境深"; lit "清风徐来花满林";
                                    lit "诗情画意共此时"]
                                   (lit "色彩丰富")) |})
              None)
           (sample_state (Some empty_table)) (url_request None))
    = {| code := 201; payload := BGenerate g |}
    /\ g_id g = RowId 1
    /\ g_content g = [lit "山水如画意境深"; lit "清风徐来花满林";
                      lit "诗情画意共此时"]
    /\ g_title g = Some (lit "春日即景").
Proof.
  assert (P : forall l, trim l = l -> l <> [] -> single_line l = true ->
                        no_star l = true -> plain_line l) by (intros; now repeat split).
  destruct (reply_in_layout_is_stored_and_returned
              (sample_world re_encodes
                 (Return {| status := 200; data_text := lit "[object Object]";
                            content :=
                              Some (formatted_reply (lit "一座山") (lit "春日即景")
                                      [lit "山水如画意境深"; lit "清风徐来花满林";
                                       lit "诗情画意共此时"]
                                      (lit "色彩丰富")) |})
                 None)
              (sample_state (Some empty_table)) (url_request None) empty_table
              (lit "一座山") (lit "春日即景")
              [lit "山水如画意境深"; lit "清风徐来花满林"; lit "诗情画意共此时"]
              (lit "色彩丰富"))
    as (g & r & Hg & Hid & Hc & Ht & _).
  - reflexivity.
  - intros ref prompt. eexists. split; [reflexivity|]. now split.
  - reflexivity.
  - reflexivity.
  - apply P; [reflexivity|discriminate|reflexivity|reflexivity].
  - vm_compute. lia.
  - discriminate.
  - repeat constructor; try discriminate.
  - reflexivity.
  - discriminate.
  - reflexivity.
  - apply lookup_empty.
  - reflexivity.
  - exists g. now repeat split.
Defined.

Section ImageRecord.

Variable w : world.

(** What step 1 yields for an uploaded file. *)
Lemma upload_step_file (o o' : oss_state) (req : generate_request) (f : file)
  (final : option str) :
  req_file req = Some f ->
  upload_step w o req = (final, o') ->
  match final with
  | Some u =>
    u = getImageUrl w (object_key w FOLDER_POETRY)
    /\ exists obj,
         bucket o' !! object_key w FOLDER_POETRY = Some obj
         /\ obj_body obj = default (buffer f) (sharp w (buffer f))
  | None => bucket o' = bucket o
  end.
Proof.
  intros Hf. unfold upload_step. rewrite Hf.
  destruct (threshold <? file_size f).
  - destruct (multipartUploadImage w o (buffer f) (originalname f) FOLDER_POETRY)
      as [[d|e] o1] eqn:E; intros [= <- <-].
    + destruct (multipart_result w _ _ _ _ _ _ E) as (stored & Hs & -> & ->).
      cbn [url bucket]. split; [reflexivity|]. eexists.
      rewrite lookup_insert_eq, Hs. split; reflexivity.
    + apply (multipart_throws w _ _ _ _ _ _ E).
  - destruct (uploadImage w o (buffer f) (originalname f) FOLDER_POETRY)
      as [[d|e] o1] eqn:E; intros [= <- <-].
    + destruct (uploadImage_result w _ _ _ _ _ _ E) as (-> & ->).
      cbn [url bucket]. split; [reflexivity|]. eexists.
      rewrite lookup_insert_eq. split; reflexivity.
    + apply (uploadImage_throws w _ _ _ _ _ _ E).
Qed.

End ImageRecord.

(** X20: What the row of a generated poem records of an uploaded file: the
    size and the media type multer reported for the upload, whatever the
    re-encoding made of the bytes, and the public URL of the stored copy
    as URL and path. When the upload failed the row keeps the name of the
    file, a path under [/uploads] and the URL of the request body. *)
Theorem row_describes_the_upload (w : world) (st : state) (req : generate_request)
  (f : file) (g : generate_data) (i : N) :
  req_file req = Some f ->
  fst (generatePoetry w st req) = {| code := 201; payload := BGenerate g |} ->
  g_id g = RowId i ->
  exists r,
    row_at (snd (generatePoetry w st req)) i = Some r
    /\ img_size (r_image r) = file_size f
    /\ img_mimetype (r_image r) = file_mimetype f
    /\ match fst (upload_step w (oss st) req) with
       | Some u =>
         u = getImageUrl w (object_key w FOLDER_POETRY)
         /\ img_url (r_image r) = Some u
         /\ img_path (r_image r) = u
         /\ exists obj,
              bucket (oss (snd (generatePoetry w st req)))
                !! object_key w FOLDER_POETRY = Some obj
              /\ obj_body obj = default (buffer f) (sharp w (buffer f))
       | None =>
         img_url (r_image r) = req_imageUrl req
         /\ img_filename (r_image r) = originalname f
         /\ img_path (r_image r)
            = lit "/uploads/poetry_" ++ to_decimal (now_path w) ++ EXT_JPG
       end.
Proof.
  intros Hf. unfold generatePoetry. cbv zeta.
  destruct (negb (has_image req)); [discriminate|].
  destruct (upload_step w (oss st) req) as [final o'] eqn:Eu.
  pose proof (upload_step_file w _ _ _ _ _ Hf Eu) as Hup. cbn [fst].
  unfold persist_step, poetryData, unsaved_response.
  destruct (res_poetry _) as [lines|]; [|discriminate].
  match goal with |- context [create w (db st) ?data] =>
    destruct (create w (db st) data) as [[r|e] d'] eqn:E
  end.
  - cbn [fst snd]. unfold created_response. intros [= <-]. cbn [g_id].
    intros [= <-].
    destruct (create_returns w _ _ _ _ E)
      as (t & Hd & _ & -> & Hid & _ & _ & Him & _).
    exists r. unfold row_at. cbn [db oss row_in rows].
    rewrite Hid, lookup_insert_eq, Him. cbn [d_image img_size img_mimetype
      img_url img_path img_filename]. rewrite Hf.
    split; [reflexivity|]. split; [reflexivity|]. split; [reflexivity|].
    destruct final as [u|].
    + destruct Hup as (-> & Hobj). cbn [truthy_opt]. unfold or_str.
      cbn [truthy_opt]. rewrite getImageUrl_truthy. now repeat split.
    + now repeat split.
  - cbn [fst]. intros [= <-]. discriminate.
Qed.

Lemma row_describes_the_upload_witness :
  exists r,
    row_at (snd (generatePoetry (sample_world re_encodes good_reply None)
                   (sample_state (Some empty_table))
                   (with_file (url_request None) (sized_file 4)))) 1 = Some r
    /\ img_mimetype (r_image r) = lit "image/png"
    /\ img_size (r_image r) = 4.
Proof.
  destruct (row_describes_the_upload (sample_world re_encodes good_reply None)
              (sample_state (Some empty_table))
              (with_file (url_request None) (sized_file 4)) (sized_file 4)
              _ 1 eq_refl ltac:(vm_compute; reflexivity) eq_refl)
    as (r & Hr & Hs & Hm & _).
  exists r. split; [exact Hr|]. split; [exact Hm|exact Hs].
Defined.

(* ===================================================================== *)
(** * Owners of generated poems *)
(* ===================================================================== *)

Section Keys.

(** The key in an answer is the next one of the table, and the row is
    stored under it. *)
Lemma generated_key (w : world) (st : state) (req : generate_request)
  (g : generate_data) (i : N) :
  fst (generatePoetry w st req) = {| code := 201; payload := BGenerate g |} ->
  g_id g = RowId i ->
  exists t r,
    db st = Some t /\ i = next_id t /\ rows t !! i = None
    /\ db (snd (generatePoetry w st req))
       = Some {| rows := <[ i := r ]> (rows t); next_id := next_id t + 1 |}
    /\ id r = i
    /\ user_id r = or_null (req_userId req).
Proof.
  unfold generatePoetry. cbv zeta.
  destruct (negb (has_image req)); [discriminate|].
  destruct (upload_step w (oss st) req) as [final o'].
  destruct (res_poetry (inference_step w req final (default GUFENG (req_style req))))
    as [lines|] eqn:Hl.
  - match goal with |- context [persist_step w ?d ?q ?f ?s ?x ?z] =>
      destruct (persist_step_answer w d q f s x z lines Hl)
        as (g0 & d' & -> & _ & _ & _ & _ & _ & _ & _ & Hcase)
    end.
    cbn [fst snd db]. intros [= <-] Hi.
    destruct Hcase as [(t & r & Hd & Hn & -> & Hg & _ & Hid & _ & _ & _ & _ & Hu & _)
                      |(_ & Hg & _)]; [|congruence].
    rewrite Hg in Hi. injection Hi as <-. exists t, r. now repeat split.
  - unfold persist_step, poetryData, unsaved_response. rewrite Hl. discriminate.
Qed.

End Keys.

(** X21: Who may delete a generated poem. A poem generated without a user id,
    or with the empty string as user id, has no owner and is deleted for
    any caller; one generated with a non-empty user id is deleted for the
    caller who sends that id and for no other. *)
Theorem generated_poem_owner (w : world) (st : state) (req : generate_request)
  (g : generate_data) (i : N) (w2 : world) (caller : option str) :
  fst (generatePoetry w st req) = {| code := 201; payload := BGenerate g |} ->
  g_id g = RowId i ->
  delete_error w2 = None ->
  let answer :=
    fst (handle w2 (snd (generatePoetry w st req)) (DeletePoem i caller)) in
  (or_null (req_userId req) = None -> code answer = 200)
  /\ (forall u, req_userId req = Some u -> u <> [] ->
        code answer = if bool_decide (caller = Some u) then 200 else 403).
Proof.
  intros Hg Hi Hdel. cbv zeta.
  destruct (generated_key w st req g i Hg Hi) as (t & r & _ & _ & _ & Hd & _ & Hu).
  cbn [handle]. unfold deletePoetry. rewrite Hd.
  rewrite (findById_found _ i r) by apply lookup_insert_eq.
  unfold deleteById. cbn [getSupabase]. rewrite Hdel, Hu. split.
  - intros ->. reflexivity.
  - intros u -> Hne. destruct u as [|c u]; [congruence|].
    cbn [or_null truthy]. unfold not_owner. cbn [truthy_opt truthy andb].
    case_bool_decide as H1; case_bool_decide as H2; try reflexivity; congruence.
Qed.

Lemma generated_poem_owner_witness :
  code (fst (handle (sample_world re_encodes good_reply None)
               (snd (generatePoetry (sample_world re_encodes good_reply None)
                       (sample_state (Some empty_table)) (request_of (Some []))))
               (DeletePoem 1 (Some (lit "u2"))))) = 200.
Proof.
  assert (Hg : exists g,
             fst (generatePoetry (sample_world re_encodes good_reply None)
                    (sample_state (Some empty_table)) (request_of (Some [])))
             = {| code := 201; payload := BGenerate g |}
             /\ g_id g = RowId 1)
    by (eexists; split; vm_compute; reflexivity).
  destruct Hg as (g & Hg & Hi).
  exact (proj1 (generated_poem_owner (sample_world re_encodes good_reply None)
                  (sample_state (Some empty_table)) (request_of (Some [])) g 1
                  (sample_world re_encodes good_reply None) (Some (lit "u2"))
                  Hg Hi eq_refl) eq_refl).
Defined.
